(** * Chat utilities of the vLLM entrypoints: a shallow embedding

    Source: [src/vllm/entrypoints/chat_utils.py].

    The development follows the file top to bottom:
    - [Py]: the Python values, exceptions and outcomes the code manipulates;
    - [Jinja]: the part of the [jinja2.nodes] syntax tree the analyzer reads;
    - [Analyzer]: [_is_var_access] ... [_detect_content_format];
    - [Tracker]: [BaseMultiModalItemTracker] and its two subclasses;
    - [Backfill]: [_get_full_multimodal_text_prompt];
    - [Parts]: [_parse_chat_message_content_mm_part] and
      [_parse_chat_message_content_part(s)];
    - [Post]: [_postprocess_messages];
    - [Templates]: [validate_chat_template] and [_load_chat_template];
    - [Resolve]: [_resolve_hf_chat_template] ...
      [resolve_chat_template_content_format];
    - [Builder]: [_parse_chat_message_content], the loop of
      [parse_chat_messages], [_convert_message] and the first step of
      [apply_hf_chat_template];
    - [TrackerRuns]: runs of [add] on one tracker;
    - [AsyncParts]: [AsyncMultiModalContentParser]. *)

From Stdlib Require Import ZArith String Ascii List Bool Lia DecimalString.
From stdpp Require Import base gmap strings list.
Import ListNotations.

Local Open Scope string_scope.
Local Open Scope list_scope.

Set Warnings "-register-all".

(* ===================================================================== *)
(** ** Python values, exceptions, outcomes *)
(* ===================================================================== *)

Module Py.

(** The exceptions raised in [chat_utils.py], by class.  A message is kept
    where the source distinguishes failures of one class by their text. *)
Inductive PyExc : Type :=
| AssertionError
| ValueError (msg : string)
| TypeError (msg : string)
| NotImplementedError (msg : string)
| AttributeError (msg : string)
| KeyError (key : string)
| IndexError (msg : string)
| UnboundLocalError (name : string)
| JSONDecodeError
| FetchError (msg : string).

(** What running a piece of code to completion can give.  [Unfinished] is
    only produced by the fuelled model of a [while] loop that has used up
    its fuel; it is not a Python result. *)
Inductive outcome (A : Type) : Type :=
| Returned (a : A)
| Raised (e : PyExc)
| Unfinished.

Arguments Returned {A} a.
Arguments Raised {A} e.
Arguments Unfinished {A}.

(** [str(n)] for a Python [int]. *)
Definition str_of_int (n : Z) : string :=
  NilZero.string_of_int (Z.to_int n).

(** The JSON-shaped values of a request: [None], [bool], [int], [str],
    [list] and [dict] with string keys (in insertion order). *)
Inductive pyval : Type :=
| PNone
| PBool (b : bool)
| PInt (z : Z)
| PStr (s : string)
| PList (l : list pyval)
| PDict (d : list (string * pyval)).

(** [type(v).__name__]. *)
Definition type_name (v : pyval) : string :=
  match v with
  | PNone => "NoneType"
  | PBool _ => "bool"
  | PInt _ => "int"
  | PStr _ => "str"
  | PList _ => "list"
  | PDict _ => "dict"
  end.

(** [bool(v)]. *)
Definition truthy (v : pyval) : bool :=
  match v with
  | PNone => false
  | PBool b => b
  | PInt z => negb (z =? 0)%Z
  | PStr s => negb (String.eqb s "")
  | PList l => match l with [] => false | _ => true end
  | PDict d => match d with [] => false | _ => true end
  end.

(** [d.get(k, default)] on a [dict]. *)
Definition dict_get_default (d : list (string * pyval)) (k : string)
    (default : pyval) : pyval :=
  match List.find (fun kv => String.eqb (fst kv) k) d with
  | Some kv => snd kv
  | None => default
  end.

(** [v.get(k, default)] on any value: only a [dict] has the method. *)
Definition py_get (v : pyval) (k : string) (default : pyval)
    : PyExc + pyval :=
  match v with
  | PDict d => inr (dict_get_default d k default)
  | PNone => inl (AttributeError "'NoneType' object has no attribute 'get'")
  | PBool _ => inl (AttributeError "'bool' object has no attribute 'get'")
  | PInt _ => inl (AttributeError "'int' object has no attribute 'get'")
  | PStr _ => inl (AttributeError "'str' object has no attribute 'get'")
  | PList _ => inl (AttributeError "'list' object has no attribute 'get'")
  end.

(** [d[k]] of a [dict] in insertion order, [None] for a missing key. *)
Definition dict_get {V : Type} (d : list (string * V)) (k : string)
    : option V :=
  snd <$> List.find (fun kv => String.eqb (fst kv) k) d.

(** [d[k] = v]: in place for a key of [d], at the end for a new key. *)
Fixpoint dict_set {V : Type} (d : list (string * V)) (k : string) (v : V)
    : list (string * V) :=
  match d with
  | [] => [(k, v)]
  | (k', v') :: d' =>
      if String.eqb k' k then (k, v) :: d' else (k', v') :: dict_set d' k v
  end.

(** [v is None]. *)
Definition is_None (v : pyval) : bool :=
  match v with PNone => true | _ => false end.

(** [v == s] for a string [s]. *)
Definition eq_str (v : pyval) (s : string) : bool :=
  match v with PStr s' => String.eqb s' s | _ => false end.

End Py.

Export Py.

(* ===================================================================== *)
(** ** The syntax tree of a template ([jinja2.nodes]) *)
(* ===================================================================== *)

Module Jinja.

(** The payload of a [Const] node. *)
Inductive ConstValue : Type :=
| CStr (s : string)
| CNum (z : Z)
| CBool (b : bool)
| CNone.

(** The node classes the analyzer tests with [isinstance], with the fields
    it reads and the child nodes [iter_child_nodes] visits, in field order.
    [Filter] and [Test] keep their remaining node fields ([args], [kwargs],
    [dyn_args], [dyn_kwargs]) in one list [args].  Every other class of
    [jinja2.nodes] ([Template], [Output], [If], [Tuple], [NSRef], [Call],
    ...) is an [Other] node, given by its child nodes. *)
Inductive Node : Type :=
| Name (name : string) (ctx : string)
| Const (value : ConstValue)
| Getitem (node arg : Node) (ctx : string)
| Getattr (node : Node) (attr : string) (ctx : string)
| Filter (node : option Node) (name : string) (args : list Node)
| Test (node : Node) (name : string) (args : list Node)
| Slice (start stop step : option Node)
| Assign (target node : Node)
| For (target iter : Node) (body else_ : list Node) (test : option Node)
      (recursive : bool)
| Other (children : list Node).

Definition opt_nodes (o : option Node) : list Node :=
  match o with Some n => [n] | None => [] end.

(** [Node.iter_child_nodes]: the nodes held by the fields, in field order. *)
Definition iter_child_nodes (n : Node) : list Node :=
  match n with
  | Name _ _ | Const _ => []
  | Getitem a b _ => [a; b]
  | Getattr a _ _ => [a]
  | Filter o _ args => opt_nodes o ++ args
  | Test a _ args => a :: args
  | Slice a b c => opt_nodes a ++ opt_nodes b ++ opt_nodes c
  | Assign t v => [t; v]
  | For t i body els test _ => t :: i :: body ++ els ++ opt_nodes test
  | Other cs => cs
  end.

(** A node followed by all its descendants, in the pre-order of
    [Node.find_all]. *)
Fixpoint subtree (n : Node) : list Node :=
  let opt o := match o with Some a => subtree a | None => [] end in
  n :: match n with
       | Name _ _ | Const _ => []
       | Getitem a b _ => subtree a ++ subtree b
       | Getattr a _ _ => subtree a
       | Filter o _ args => opt o ++ List.flat_map subtree args
       | Test a _ args => subtree a ++ List.flat_map subtree args
       | Slice a b c => opt a ++ opt b ++ opt c
       | Assign t v => subtree t ++ subtree v
       | For t i body els test _ =>
           subtree t ++ subtree i ++ List.flat_map subtree body
           ++ List.flat_map subtree els ++ opt test
       | Other cs => List.flat_map subtree cs
       end.

(** The descendants of [n]: what [n.find_all(object)] would yield. *)
Definition descendants (n : Node) : list Node := List.tl (subtree n).

Definition is_Assign (n : Node) : bool :=
  match n with Assign _ _ => true | _ => false end.

Definition is_For (n : Node) : bool :=
  match n with For _ _ _ _ _ _ => true | _ => false end.

(** [root.find_all(jinja2.nodes.Assign)] and [root.find_all(jinja2.nodes.For)]. *)
Definition find_all_Assign (root : Node) : list Node :=
  List.filter is_Assign (descendants root).

Definition find_all_For (root : Node) : list Node :=
  List.filter is_For (descendants root).

End Jinja.

Export Jinja.

(* ===================================================================== *)
(** ** Template structure analyzer *)
(* ===================================================================== *)

Module Analyzer.

(** [_ChatTemplateContentFormat = Literal["string", "openai"]]. *)
Inductive _ChatTemplateContentFormat : Type :=
| fmt_string
| fmt_openai.

Definition _is_var_access (node : Node) (varname : string) : bool :=
  match node with
  | Name name ctx => String.eqb ctx "load" && String.eqb name varname
  | _ => false
  end.

(** [node.arg.value == key] for a [str] key. *)
Definition const_is (arg : Node) (key : string) : bool :=
  match arg with
  | Const (CStr v) => String.eqb v key
  | _ => false
  end.

Definition _is_attr_access (node : Node) (varname key : string) : bool :=
  match node with
  | Getitem n arg _ => _is_var_access n varname && const_is arg key
  | Getattr n attr _ => _is_var_access n varname && String.eqb attr key
  | _ => false
  end.

(** The last [return] of [_is_var_or_elems_access]: [if key] holds for a
    non-empty string only. *)
Definition access_base (node : Node) (varname : string)
    (key : option string) : bool :=
  match key with
  | Some (String c k) => _is_attr_access node varname (String c k)
  | Some EmptyString | None => _is_var_access node varname
  end.

Fixpoint _is_var_or_elems_access (node : Node) (varname : string)
    (key : option string) : bool :=
  match node with
  | Filter (Some n) _ _ => _is_var_or_elems_access n varname key
  | Filter None _ _ => false
  | Test n _ _ => _is_var_or_elems_access n varname key
  | Getitem n (Slice _ _ _) _ => _is_var_or_elems_access n varname key
  | _ => access_base node varname key
  end.

(** One pass of the [for assign_ast in root.find_all(Assign)] loop for the
    popped name [related_varname]: the pairs it yields and the names it
    appends to the queue, or the [AssertionError] of
    [assert isinstance(lhs, jinja2.nodes.Name)]. *)
Fixpoint scan_assigns (assigns : list Node) (related_varname : string)
    : PyExc + (list (Node * string) * list string) :=
  match assigns with
  | [] => inr ([], [])
  | assign_ast :: rest =>
      match assign_ast with
      | Assign lhs rhs =>
          if _is_var_or_elems_access rhs related_varname None then
            match lhs with
            | Name lhs_name _ =>
                match scan_assigns rest related_varname with
                | inl e => inl e
                | inr (ys, qs) =>
                    inr ((assign_ast, lhs_name) :: ys,
                         if String.eqb lhs_name related_varname
                         then qs else lhs_name :: qs)
                end
            | _ => inl AssertionError
            end
          else scan_assigns rest related_varname
      | _ => scan_assigns rest related_varname
      end
  end.

(** The [while related_varnames] loop; one unit of fuel per [popleft]. *)
Fixpoint bfs_loop (fuel : nat) (assigns : list Node)
    (related_varnames : list string) : outcome (list (Node * string)) :=
  match related_varnames with
  | [] => Returned []
  | related_varname :: queue =>
      match fuel with
      | O => Unfinished
      | S fuel' =>
          match scan_assigns assigns related_varname with
          | inl e => Raised e
          | inr (ys, qs) =>
              match bfs_loop fuel' assigns (queue ++ qs) with
              | Returned more => Returned (ys ++ more)
              | Raised e => Raised e
              | Unfinished => Unfinished
              end
          end
      end
  end.

(** [_iter_nodes_assign_var_or_elems], run to exhaustion (both callers
    consume it in a list comprehension). *)
Definition _iter_nodes_assign_var_or_elems (fuel : nat) (root : Node)
    (varname : string) : outcome (list (Node * string)) :=
  match bfs_loop fuel (find_all_Assign root) [varname] with
  | Returned more => Returned ((root, varname) :: more)
  | Raised e => Raised e
  | Unfinished => Unfinished
  end.

(** The body of a [for loop_ast in root.find_all(For)] loop, shared by the
    two loop searches: the inner [for varname in varnames: if ...: assert
    ...; yield ...; break] fires for the first name that matches, so it
    fires when some name matches.  [None]: nothing yielded for this loop. *)
Definition loop_match (loop_ast : Node) (varnames : list string)
    (key : option string) : PyExc + option (Node * string) :=
  match loop_ast with
  | For loop_target loop_iter _ _ _ _ =>
      if existsb (fun varname => _is_var_or_elems_access loop_iter varname key)
                 varnames
      then match loop_target with
           | Name target_name _ => inr (Some (loop_ast, target_name))
           | _ => inl AssertionError
           end
      else inr None
  | _ => inr None
  end.

(** A loop search run to exhaustion. *)
Fixpoint scan_loops (loops : list Node) (varnames : list string)
    (key : option string) : PyExc + list (Node * string) :=
  match loops with
  | [] => inr []
  | loop_ast :: rest =>
      match loop_match loop_ast varnames key with
      | inl e => inl e
      | inr y =>
          match scan_loops rest varnames key with
          | inl e => inl e
          | inr ys => inr (match y with Some p => p :: ys | None => ys end)
          end
      end
  end.

(** A loop search resumed once, as [next] does: the first pair yielded,
    [None] for [StopIteration]. *)
Fixpoint first_loop (loops : list Node) (varnames : list string)
    (key : option string) : PyExc + option (Node * string) :=
  match loops with
  | [] => inr None
  | loop_ast :: rest =>
      match loop_match loop_ast varnames key with
      | inl e => inl e
      | inr (Some p) => inr (Some p)
      | inr None => first_loop rest varnames key
      end
  end.

(** [_iter_nodes_assign_messages_item], run to exhaustion. *)
Definition _iter_nodes_assign_messages_item (fuel : nat) (root : Node)
    : outcome (list (Node * string)) :=
  match _iter_nodes_assign_var_or_elems fuel root "messages" with
  | Returned l =>
      let messages_varnames := map snd l in
      match scan_loops (find_all_For root) messages_varnames None with
      | inl e => Raised e
      | inr ys => Returned ys
      end
  | Raised e => Raised e
  | Unfinished => Unfinished
  end.

(** [next(_iter_nodes_assign_content_item(root))]: the generator first
    builds [message_varnames] in full, then searches the loops lazily. *)
Definition next_iter_nodes_assign_content_item (fuel : nat) (root : Node)
    : outcome (option (Node * string)) :=
  match _iter_nodes_assign_messages_item fuel root with
  | Returned l =>
      let message_varnames := map snd l in
      match first_loop (find_all_For root) message_varnames (Some "content") with
      | inl e => Raised e
      | inr y => Returned y
      end
  | Raised e => Raised e
  | Unfinished => Unfinished
  end.

(** [_detect_content_format] on the result of [_try_extract_ast]. *)
Definition detect_on_ast (fuel : nat) (jinja_ast : option Node)
    (default : _ChatTemplateContentFormat)
    : outcome _ChatTemplateContentFormat :=
  match jinja_ast with
  | None => Returned default
  | Some ast =>
      match next_iter_nodes_assign_content_item fuel ast with
      | Returned None => Returned fmt_string        (* except StopIteration *)
      | Raised _ => Returned default                (* except Exception *)
      | Returned (Some _) => Returned fmt_openai    (* else *)
      | Unfinished => Unfinished
      end
  end.

Section WithParser.

(** [_try_extract_ast]: the template engine's parser, [None] when
    compiling or parsing the text raises. *)
Variable _try_extract_ast : string -> option Node.

Definition _detect_content_format (fuel : nat) (chat_template : string)
    (default : _ChatTemplateContentFormat)
    : outcome _ChatTemplateContentFormat :=
  detect_on_ast fuel (_try_extract_ast chat_template) default.

End WithParser.

(** *** The classification in the words of the specification

    The three stages of the analysis, stated over the assignment and loop
    statements of the tree instead of over a work queue. *)

Definition name_of (n : Node) : option string :=
  match n with Name s _ => Some s | _ => None end.

Section Stages.

Variable root : Node.

(** Some assignment of the tree has a right-hand side that is an access to
    [x] and the plain name [n] as its target. *)
Definition assigns_to (x n : string) : Prop :=
  exists lhs rhs, In (Assign lhs rhs) (find_all_Assign root)
    /\ _is_var_or_elems_access rhs x None = true
    /\ name_of lhs = Some n.

(** Some assignment of the tree has a right-hand side that is an access to
    [x] and a target that is not a plain name (a tuple, a namespace
    reference): the [assert] of the traversal fails on it. *)
Definition unnamed_assign (x : string) : Prop :=
  exists lhs rhs, In (Assign lhs rhs) (find_all_Assign root)
    /\ _is_var_or_elems_access rhs x None = true
    /\ name_of lhs = None.

(** Stage 1: the aliases of [v]: [v] itself, and the target of every
    assignment from an access to an alias. *)
Inductive alias (v : string) : string -> Prop :=
| alias_root : alias v v
| alias_assign a n : alias v a -> assigns_to a n -> alias v n.

(** [loop] is a [for] statement of the tree whose iterated expression is an
    access, under [key], to a name satisfying [P]. *)
Definition loop_over (P : string -> Prop) (key : option string)
    (loop : Node) : Prop :=
  exists t i b e ts r, loop = For t i b e ts r
    /\ exists v, P v /\ _is_var_or_elems_access i v key = true.

Definition loop_target (loop : Node) : option Node :=
  match loop with For t _ _ _ _ _ => Some t | _ => None end.

(** Stage 2: [m] is the loop variable of a loop over an alias of
    ["messages"]. *)
Definition message_var (m : string) : Prop :=
  exists loop t, In loop (find_all_For root)
    /\ loop_over (alias "messages") None loop
    /\ loop_target loop = Some t /\ name_of t = Some m.

(** Stage 3: [loop] iterates an access to the ["content"] attribute or item
    of a message variable. *)
Definition content_loop (loop : Node) : Prop :=
  In loop (find_all_For root)
  /\ loop_over message_var (Some "content") loop.

(** Stage 3 as the specification words it: the aliases of the content of
    a message variable are resolved first, and a loop over the content
    itself or over one of these aliases counts. *)

(** Some assignment of the tree has a right-hand side that is an access to
    the ["content"] of [m] and the plain name [n] as its target. *)
Definition assigns_content_to (m n : string) : Prop :=
  exists lhs rhs, In (Assign lhs rhs) (find_all_Assign root)
    /\ _is_var_or_elems_access rhs m (Some "content") = true
    /\ name_of lhs = Some n.

(** [n] is an alias of the content of a message variable. *)
Inductive content_alias : string -> Prop :=
| content_alias_first m n :
    message_var m -> assigns_content_to m n -> content_alias n
| content_alias_next a n :
    content_alias a -> assigns_to a n -> content_alias n.

(** [loop] iterates an access to the content of a message variable, or
    an access to an alias of it. *)
Definition spec_content_loop (loop : Node) : Prop :=
  In loop (find_all_For root)
  /\ (loop_over message_var (Some "content") loop
      \/ loop_over content_alias None loop).

(** The traversal raises: an alias of ["messages"] is read by an assignment
    to something that is not a name, or a loop over such an alias has a
    target that is not a name, or the first stage-3 loop has one. *)
Definition stage1_raises : Prop :=
  exists a, alias "messages" a /\ unnamed_assign a.

Definition stage2_raises : Prop :=
  exists loop t, In loop (find_all_For root)
    /\ loop_over (alias "messages") None loop
    /\ loop_target loop = Some t /\ name_of t = None.

Definition stage3_raises : Prop :=
  exists before loop after t,
    find_all_For root = before ++ loop :: after
    /\ (forall l, In l before -> ~ loop_over message_var (Some "content") l)
    /\ loop_over message_var (Some "content") loop
    /\ loop_target loop = Some t /\ name_of t = None.

Definition analysis_raises : Prop :=
  stage1_raises \/ stage2_raises \/ stage3_raises.

End Stages.

(** *** Auxiliary notions for the proofs *)

(** [assigns_to] and [unnamed_assign] over a list of statements. *)
Definition step_in (assigns : list Node) (x n : string) : Prop :=
  exists lhs rhs, In (Assign lhs rhs) assigns
    /\ _is_var_or_elems_access rhs x None = true /\ name_of lhs = Some n.

Definition bad_in (assigns : list Node) (x : string) : Prop :=
  exists lhs rhs, In (Assign lhs rhs) assigns
    /\ _is_var_or_elems_access rhs x None = true /\ name_of lhs = None.

(** [x] is an alias of a name waiting in the queue [q]. *)
Definition alias_from (root : Node) (q : list string) (x : string) : Prop :=
  exists s, In s q /\ alias root s x.

(** The target of [loop] is the plain name [r], or is not a name when [r]
    is [None]. *)
Definition targets (loop : Node) (r : option string) : Prop :=
  exists t, loop_target loop = Some t /\ name_of t = r.

(** The first loop of [loops] that iterates an access to a name of [vs]
    has target [r]. *)
Definition first_match (loops : list Node) (vs : list string)
    (key : option string) (r : option string) : Prop :=
  exists before loop after,
    loops = before ++ loop :: after
    /\ (forall l, In l before -> ~ loop_over (fun v => In v vs) key l)
    /\ loop_over (fun v => In v vs) key loop /\ targets loop r.

(** The measure of a queue that every [popleft] lowers when [rank] orders
    the alias graph. *)
Definition assign_count (root : Node) : nat := length (find_all_Assign root).

Fixpoint weight (root : Node) (rank : string -> nat) (q : list string)
    : nat :=
  match q with
  | [] => 0
  | x :: q => S (assign_count root) ^ rank x + weight root rank q
  end.

(** The tree of [{% set a = messages %}{% set messages = a %}]. *)
Definition mutual_alias_ast : Node :=
  Other [Assign (Name "a" "store") (Name "messages" "load");
         Assign (Name "messages" "store") (Name "a" "load")].

(** The tree of [{% set a, b = messages %}]. *)
Definition tuple_assign_ast : Node :=
  Other [Assign (Other [Name "a" "store"; Name "b" "store"])
                (Name "messages" "load")].

(** The tree of
    [{% for message in messages %}{% for part in message.content %}{{ part.text }}{% endfor %}{% endfor %}]. *)
Definition structured_ast : Node :=
  Other [For (Name "message" "store") (Name "messages" "load")
           [For (Name "part" "store")
                (Getattr (Name "message" "load") "content" "load")
                [Other [Getattr (Name "part" "load") "text" "load"]]
                [] None false]
           [] None false].

(** The tree of
    [{% for message in messages %}{% set parts = message.content %}{% for part in parts %}{{ part.text }}{% endfor %}{% endfor %}]. *)
Definition content_alias_ast : Node :=
  Other [For (Name "message" "store") (Name "messages" "load")
           [Assign (Name "parts" "store")
                   (Getattr (Name "message" "load") "content" "load");
            For (Name "part" "store") (Name "parts" "load")
                [Other [Getattr (Name "part" "load") "text" "load"]]
                [] None false]
           [] None false].

(** The tree of [{% set loop_messages = messages %}]. *)
Definition one_alias_ast : Node :=
  Other [Assign (Name "loop_messages" "store") (Name "messages" "load")].

(** The tree of
    [{% for message in messages %}{{ message.content }}{% endfor %}]. *)
Definition flat_ast : Node :=
  Other [For (Name "message" "store") (Name "messages" "load")
           [Other [Getattr (Name "message" "load") "content" "load"]]
           [] None false].

End Analyzer.

(* ===================================================================== *)
(** ** Item tracker *)
(* ===================================================================== *)

Module Tracker.

(** [x in (s1, ..., sn)] for strings. *)
Definition str_in (x : string) (l : list string) : bool :=
  existsb (String.eqb x) l.

(** What a tracker reads from [model_config], [hf_config] and the
    tokenizer: the model family, the per-modality limits
    ([multimodal_config.limit_per_prompt], or the empty mapping), the two
    token indices of the llava families and [tokenizer.decode]. *)
Record TrackerConfig : Type := {
  model_type : string;
  _allowed_items : gmap string Z;
  image_token_index : Z;
  video_token_index : Z;
  decode : Z -> string
}.

(** A value of [mm_inputs]: the item list of a modality, or the single
    embedding stored by [mm_inputs["image"] = image_embeds_lst[0]]. *)
Inductive mm_value (A : Type) : Type :=
| Items (l : list A)
| Single (x : A).

Arguments Items {A} l.
Arguments Single {A} x.

Section Tracker.

Variable cfg : TrackerConfig.

(** [_cached_token_str]: a memoised [tokenizer.decode]. *)
Definition _cached_token_str (token_index : Z) : string :=
  decode cfg token_index.

Definition _placeholder_str (modality : string) (current_count : Z)
    : PyExc + option string :=
  let model_type := model_type cfg in
  if str_in modality ["image"; "image_embeds"] then
    if String.eqb model_type "chatglm" then
      inr (Some "<|begin_of_image|><|endoftext|><|end_of_image|>")
    else if String.eqb model_type "phi3_v" then
      inr (Some ("<|image_" +:+ str_of_int current_count +:+ "|>"))
    else if String.eqb model_type "phi4mm" then
      inr (Some "<|endoftext10|>")
    else if str_in model_type ["minicpmo"; "minicpmv"] then
      inr (Some "(<image>./</image>)")
    else if str_in model_type ["blip-2"; "fuyu"; "paligemma"; "pixtral"] then
      inr None
    else if String.eqb model_type "qwen" then
      inr (Some ("Picture " +:+ str_of_int current_count +:+ ": <img></img>"))
    else if String.prefix "llava" model_type then
      inr (Some (_cached_token_str (image_token_index cfg)))
    else if str_in model_type
              ["chameleon"; "deepseek_vl_v2"; "internvl_chat"; "NVLM_D";
               "h2ovl_chat"] then
      inr (Some "<image>")
    else if String.eqb model_type "mllama" then
      inr (Some "<|image|>")
    else if str_in model_type ["qwen2_vl"; "qwen2_5_vl"] then
      inr (Some "<|vision_start|><|image_pad|><|vision_end|>")
    else if String.eqb model_type "molmo" then
      inr (Some "")
    else if String.eqb model_type "idefics3" then
      inr (Some "<image>")
    else if String.eqb model_type "aria" then
      inr (Some "<|fim_prefix|><|img|><|fim_suffix|>")
    else if String.eqb model_type "gemma3" then
      inr (Some "<start_of_image>")
    else
      inl (TypeError ("Unknown " +:+ modality +:+ " model type: " +:+ model_type))
  else if String.eqb modality "audio" then
    if String.eqb model_type "ultravox" then
      inr (Some "<|audio|>")
    else if String.eqb model_type "phi4mm" then
      inr (Some "<|endoftext11|>")
    else if String.eqb model_type "qwen2_audio" then
      inr (Some ("Audio " +:+ str_of_int current_count
                 +:+ ": <|audio_bos|><|AUDIO|><|audio_eos|>"))
    else if String.eqb model_type "minicpmo" then
      inr (Some "(<audio>./</audio>)")
    else
      inl (TypeError ("Unknown model type: " +:+ model_type))
  else if String.eqb modality "video" then
    if str_in model_type ["qwen2_vl"; "qwen2_5_vl"] then
      inr (Some "<|vision_start|><|video_pad|><|vision_end|>")
    else if str_in model_type ["minicpmo"; "minicpmv"] then
      inr (Some "(<video>./</video>)")
    else if String.prefix "llava" model_type then
      inr (Some (_cached_token_str (video_token_index cfg)))
    else
      inl (TypeError ("Unknown " +:+ modality +:+ " model type: " +:+ model_type))
  else
    inl (TypeError ("Unknown modality: " +:+ modality)).

(** The [ValueError] of [add]. *)
Definition limit_exceeded (allowed_count : Z) (modality : string) : PyExc :=
  ValueError ("At most " +:+ str_of_int allowed_count +:+ " " +:+ modality
              +:+ "(s) may be provided in one request.").

Section Items.

(** The item type [_T]: a loaded medium for the blocking tracker, a
    pending computation for the concurrent one. *)
Context {T : Type}.

(** [self._items_by_modality[modality]] on a [defaultdict(list)]: reading a
    missing key stores the empty list under it. *)
Definition defaultdict_getitem (items : gmap string (list T))
    (modality : string) : gmap string (list T) * list T :=
  match items !! modality with
  | Some l => (items, l)
  | None => (<[modality := []]> items, [])
  end.

(** [BaseMultiModalItemTracker.add]: the tracker after the call, and what
    the call returned or raised. *)
Definition add (items : gmap string (list T)) (modality : string) (item : T)
    : gmap string (list T) * (PyExc + option string) :=
  let allowed_count := default 1%Z (_allowed_items cfg !! modality) in
  let '(items, l) := defaultdict_getitem items modality in
  let current_count := (Z.of_nat (length l) + 1)%Z in
  if (allowed_count <? current_count)%Z then
    (items, inl (limit_exceeded allowed_count modality))
  else
    (<[modality := l ++ [item]]> items,
     _placeholder_str modality current_count).

(** Calling [add] once per element of [xs], whatever each call gives. *)
Fixpoint add_each (items : gmap string (list T)) (modality : string)
    (xs : list T)
    : gmap string (list T) * list (PyExc + option string) :=
  match xs with
  | [] => (items, [])
  | x :: rest =>
      let '(items, r) := add items modality x in
      let '(items, rs) := add_each items modality rest in
      (items, r :: rs)
  end.

End Items.
End Tracker.

Section Finalize.

Context {A : Type}.

(** The part of [all_mm_data] the two trackers share, from the test for
    mixed inputs on ([items_by_modality] holds loaded items). *)
Definition build_mm_inputs (items_by_modality : gmap string (list A))
    : PyExc + option (gmap string (mm_value A)) :=
  let mm_inputs : gmap string (mm_value A) := ∅ in
  if bool_decide (is_Some (items_by_modality !! "image"))
     && bool_decide (is_Some (items_by_modality !! "image_embeds"))
  then inl (ValueError "Mixing raw image and embedding inputs is not allowed")
  else
    let step_embeds :=
      match items_by_modality !! "image_embeds" with
      | Some image_embeds_lst =>
          if (1 <? length image_embeds_lst)%nat then
            inl (ValueError "Only one message can have {'type': 'image_embeds'}")
          else
            match image_embeds_lst with
            | x :: _ => inr (<["image" := Single x]> mm_inputs)
            | [] => inl (IndexError "list index out of range")
            end
      | None => inr mm_inputs
      end in
    match step_embeds with
    | inl e => inl e
    | inr mm_inputs =>
        let copy (modality : string) (mm_inputs : gmap string (mm_value A)) :=
          match items_by_modality !! modality with
          | Some l => <[modality := Items l]> mm_inputs
          | None => mm_inputs
          end in
        inr (Some (copy "video" (copy "audio" (copy "image" mm_inputs))))
    end.

(** [MultiModalItemTracker.all_mm_data]. *)
Definition all_mm_data (_items_by_modality : gmap string (list A))
    : PyExc + option (gmap string (mm_value A)) :=
  if bool_decide (_items_by_modality = ∅) then inr None
  else build_mm_inputs _items_by_modality.

(** A pending item, by what awaiting it gives. *)
#[local] Abbreviation Awaitable := (PyExc + A)%type.

(** [await asyncio.gather( *items)]: the values in list order; when an item
    fails, gather fails with a failure of one of them (which one is a
    matter of completion order; the first in list order is taken here). *)
Fixpoint gather (items : list Awaitable) : PyExc + list A :=
  match items with
  | [] => inr []
  | inl e :: _ => inl e
  | inr a :: rest =>
      match gather rest with
      | inl e => inl e
      | inr l => inr (a :: l)
      end
  end.

(** The dict comprehension over [self._items_by_modality.items()].  The
    source visits the modalities in the order they were first added; the
    tracker is a finite map here, without that order, and [kvs] comes in
    the order of the keys.  The two differ only in which failure is
    raised when items of two modalities fail. *)
Fixpoint gather_items (kvs : list (string * list Awaitable))
    : PyExc + list (string * list A) :=
  match kvs with
  | [] => inr []
  | (modality, items) :: rest =>
      match gather items with
      | inl e => inl e
      | inr l =>
          match gather_items rest with
          | inl e => inl e
          | inr kvs' => inr ((modality, l) :: kvs')
          end
      end
  end.

(** [AsyncMultiModalItemTracker.all_mm_data], awaited. *)
Definition async_all_mm_data (_items_by_modality : gmap string (list Awaitable))
    : PyExc + option (gmap string (mm_value A)) :=
  if bool_decide (_items_by_modality = ∅) then inr None
  else
    match gather_items (map_to_list _items_by_modality) with
    | inl e => inl e
    | inr kvs => build_mm_inputs (list_to_map kvs)
    end.

End Finalize.

(** The two [ValueError]s of [all_mm_data]: the specification's
    MixedModality failure. *)
Definition MixedModality (e : PyExc) : Prop :=
  e = ValueError "Mixing raw image and embedding inputs is not allowed"
  \/ e = ValueError "Only one message can have {'type': 'image_embeds'}".

(** The specification's LimitExceeded failure. *)
Definition LimitExceeded (e : PyExc) : Prop :=
  exists allowed_count modality, e = limit_exceeded allowed_count modality.

(** At least one item is recorded under [modality]. *)
Definition recorded {A : Type} (items : gmap string (list A))
    (modality : string) : Prop :=
  exists x l, items !! modality = Some (x :: l).

(** The number of items recorded under [modality]. *)
Definition count_of {A : Type} (items : gmap string (list A))
    (modality : string) : nat :=
  length (default [] (items !! modality)).

(** No modality is present with an empty item list: the tracker holds an
    entry only for modalities it recorded an item for. *)
Definition entries_nonempty {A : Type} (items : gmap string (list A)) : Prop :=
  forall modality l, items !! modality = Some l -> l <> [].

(** A model family with the placeholder [<|image|>], two images allowed. *)
Definition mllama_two_images : TrackerConfig :=
  {| model_type := "mllama";
     _allowed_items := {["image" := 2%Z]};
     image_token_index := 0; video_token_index := 0;
     decode := fun _ => "" |}.

(** An audio-only model family, no limit configured. *)
Definition ultravox_default_limits : TrackerConfig :=
  {| model_type := "ultravox";
     _allowed_items := ∅;
     image_token_index := 0; video_token_index := 0;
     decode := fun _ => "" |}.

(** Image embeddings switched off by a limit of 0. *)
Definition no_embeds_allowed : TrackerConfig :=
  {| model_type := "mllama";
     _allowed_items := {["image_embeds" := 0%Z]};
     image_token_index := 0; video_token_index := 0;
     decode := fun _ => "" |}.

End Tracker.

(* ===================================================================== *)
(** ** Placeholder back-fill *)
(* ===================================================================== *)

Module Backfill.

(** The line feed of ["\n".join]. *)
Definition nl : string := String (ascii_of_nat 10) EmptyString.

(** [s.count(sub)]: the occurrences of [sub] in [s], scanning from the
    left and not overlapping ([len(s) + 1] for the empty [sub]).  [skip]
    characters of an occurrence just counted are still to be passed. *)
Fixpoint count_from (sub : string) (skip : nat) (s : string) : nat :=
  match skip with
  | S k =>
      match s with
      | String _ s' => count_from sub k s'
      | EmptyString => 0
      end
  | O =>
      if String.prefix sub s then
        S (match s with
           | String _ s' => count_from sub (String.length sub - 1) s'
           | EmptyString => 0
           end)
      else
        match s with
        | String _ s' => count_from sub 0 s'
        | EmptyString => 0
        end
  end.

Definition str_count (s sub : string) : nat := count_from sub 0 s.

(** The [ValueError] of the back-fill. *)
Definition more_placeholders_than_items (placeholder : string) : PyExc :=
  ValueError ("Found more '" +:+ placeholder
              +:+ "' placeholders in input prompt than actual multimodal data items.").

(** The [for placeholder in placeholder_counts] loop, over the keys still
    to visit; the counts are updated in place as the loop goes. *)
Fixpoint backfill_loop (keys : list string)
    (placeholder_counts : list (string * Z)) (text_prompt : string)
    (missing_placeholders : list string) : PyExc + list string :=
  match keys with
  | [] => inr missing_placeholders
  | placeholder :: keys =>
      match dict_get placeholder_counts placeholder with
      | None => inl (KeyError placeholder)
      | Some c =>
          let c := (c - Z.of_nat (str_count text_prompt placeholder))%Z in
          let placeholder_counts := dict_set placeholder_counts placeholder c in
          if (c <? 0)%Z then inl (more_placeholders_than_items placeholder)
          else
            backfill_loop keys placeholder_counts text_prompt
              (missing_placeholders ++ repeat placeholder (Z.to_nat c))
      end
  end.

Definition _get_full_multimodal_text_prompt
    (placeholder_counts : list (string * Z)) (text_prompt : string)
    : PyExc + string :=
  match backfill_loop (map fst placeholder_counts) placeholder_counts
          text_prompt [] with
  | inl e => inl e
  | inr missing_placeholders =>
      inr (String.concat nl (missing_placeholders ++ [text_prompt]))
  end.

(** The specification's PlaceholderAccounting failure. *)
Definition PlaceholderAccounting (e : PyExc) : Prop :=
  exists placeholder, e = more_placeholders_than_items placeholder.

(** The copies still missing for one placeholder. *)
Definition missing_copies (text_prompt : string) (kv : string * Z)
    : list string :=
  repeat (fst kv)
    (Z.to_nat (snd kv - Z.of_nat (str_count text_prompt (fst kv)))).

(** [lines] one per line, then [body], as the claim words it: every line
    is closed by the line feed character (code 10) and the body follows
    the last of them.  The character is written out here; it is not read
    off the separator of the code. *)
Definition block_before (lines : list string) (body : string) : string :=
  fold_right (fun line rest => line +:+ String "010"%char rest) body lines.

(** The line feed, written out for the statements about lines: the
    string made of the character of code 10. *)
Definition line_feed : string := String "010"%char EmptyString.

(** [sub] occurs verbatim in [s]. *)
Definition occurs_in (sub s : string) : Prop :=
  exists pre post, s = pre +:+ sub +:+ post.

End Backfill.

(* ===================================================================== *)
(** ** Content part parser *)
(* ===================================================================== *)

Module Parts.

Import Tracker.

(** [MM_PARSER_MAP]: per part type, the extraction of the part's payload. *)
Definition MM_PARSER_MAP (part_type : string)
    : option (list (string * pyval) -> PyExc + pyval) :=
  if String.eqb part_type "text" then
    Some (fun part => inr (dict_get_default part "text" (PStr "")))
  else if String.eqb part_type "image_url" then
    Some (fun part =>
            py_get (dict_get_default part "image_url" (PDict [])) "url" (PStr ""))
  else if String.eqb part_type "image_embeds" then
    Some (fun part => inr (dict_get_default part "image_embeds" (PDict [])))
  else if String.eqb part_type "audio_url" then
    Some (fun part =>
            py_get (dict_get_default part "audio_url" (PDict [])) "url" (PStr ""))
  else if String.eqb part_type "input_audio" then
    Some (fun part => inr (dict_get_default part "input_audio" (PDict [])))
  else if String.eqb part_type "refusal" then
    Some (fun part => inr (dict_get_default part "refusal" (PStr "")))
  else if String.eqb part_type "video_url" then
    Some (fun part =>
            py_get (dict_get_default part "video_url" (PDict [])) "url" (PStr ""))
  else None.

Definition detail_warning : string :=
  "'image_url.detail' is currently not supported and will be ignored.".

(** [_parse_chat_message_content_mm_part]: the warnings it logs, and what
    it returns or raises. *)
Definition _parse_chat_message_content_mm_part (part : pyval)
    : list string * (PyExc + (string * pyval)) :=
  match part with
  | PDict d =>
      let part_type := dict_get_default d "type" PNone in
      match part_type with
      | PStr part_type =>
          match MM_PARSER_MAP part_type with
          | Some parser =>
              match parser d with
              | inl e => ([], inl e)
              | inr content =>
                  (if String.eqb part_type "image_url"
                      && negb (eq_str (dict_get_default d "detail" (PStr "auto"))
                                 "auto")
                   then [detail_warning] else [],
                   inr (part_type, content))
              end
          | None => ([], inr (part_type, PStr "unknown part_type content"))
          end
      | PNone =>
          if negb (is_None (dict_get_default d "image_url" PNone)) then
            ([], inr ("image_url", dict_get_default d "image_url" (PStr "")))
          else if negb (is_None (dict_get_default d "audio_url" PNone)) then
            ([], inr ("audio_url", dict_get_default d "audio_url" (PStr "")))
          else if negb (is_None (dict_get_default d "input_audio" PNone)) then
            ([], inr ("input_audio", part))
          else if negb (is_None (dict_get_default d "video_url" PNone)) then
            ([], inr ("video_url", dict_get_default d "video_url" (PStr "")))
          else
            ([], inl (ValueError "Missing 'type' field in multimodal part."))
      | _ => ([], inl (ValueError "Invalid 'type' field in multimodal part."))
      end
  | _ => ([], inl AssertionError)
  end.

Definition VALID_MESSAGE_CONTENT_MM_PART_TYPES : list string :=
  ["text"; "refusal"; "image_url"; "image_embeds"; "audio_url";
   "input_audio"; "video_url"].

Definition skip_warning (part_type : string) : string :=
  "Skipping multimodal part (type: '" +:+ part_type
  +:+ "') with empty / unparsable content.".

(** The interface [BaseMultiModalContentParser]: the five media methods,
    as transitions of the parser (and its tracker), and the placeholder
    counts accumulated so far. *)
Class BaseMultiModalContentParser (S : Type) : Type := {
  parse_image : pyval -> S -> S * (PyExc + unit);
  parse_image_embeds : pyval -> S -> S * (PyExc + unit);
  parse_audio : pyval -> S -> S * (PyExc + unit);
  parse_input_audio : pyval -> S -> S * (PyExc + unit);
  parse_video : pyval -> S -> S * (PyExc + unit);
  mm_placeholder_counts : S -> list (string * Z)
}.

Section PartParser.

Context {S : Type} `{BaseMultiModalContentParser S}.

(** What parsing touches: the parser and the log of warnings. *)
Record state : Type := {
  mm_parser : S;
  warnings : list string
}.

(** Computations that may raise; the state reached is kept either way. *)
Definition M (A : Type) : Type := state -> state * (PyExc + A).

Definition ret {A : Type} (a : A) : M A := fun st => (st, inr a).

Definition raise {A : Type} (e : PyExc) : M A := fun st => (st, inl e).

Definition bind {A B : Type} (c : M A) (k : A -> M B) : M B :=
  fun st =>
    match c st with
    | (st', inr a) => k a st'
    | (st', inl e) => (st', inl e)
    end.

Definition warn (msgs : list string) : M unit :=
  fun st =>
    ({| mm_parser := mm_parser st; warnings := warnings st ++ msgs |}, inr tt).

(** A call of a method of [mm_parser]. *)
Definition call (method : S -> S * (PyExc + unit)) : M unit :=
  fun st =>
    let '(p, r) := method (mm_parser st) in
    ({| mm_parser := p; warnings := warnings st |}, r).

Definition lift {A : Type} (r : PyExc + A) : M A :=
  match r with inl e => raise e | inr a => ret a end.

Notation "x <- c ;; k" := (bind c (fun x => k))
  (at level 100, c at next level, right associativity).
Notation "c ;;; k" := (bind c (fun _ => k))
  (at level 100, right associativity).

(** [{"type": kind} if wrap_dicts else None]. *)
Definition marker (wrap_dicts : bool) (kind : string) : option pyval :=
  if wrap_dicts then Some (PDict [("type", PStr kind)]) else None.

Definition _parse_chat_message_content_part (part : pyval)
    (wrap_dicts : bool) : M (option pyval) :=
  match part with
  | PStr _ => ret (Some part)
  | _ =>
      let '(logged, parsed) := _parse_chat_message_content_mm_part part in
      warn logged ;;;
      pc <- lift parsed ;;
      let '(part_type, content) := pc in
      if str_in part_type VALID_MESSAGE_CONTENT_MM_PART_TYPES
         && negb (truthy content) then
        warn [skip_warning part_type] ;;; ret None
      else if str_in part_type ["text"; "refusal"] then
        if wrap_dicts
        then ret (Some (PDict [("type", PStr "text"); ("text", content)]))
        else ret (Some content)
      else if String.eqb part_type "image_url" then
        call (parse_image content) ;;; ret (marker wrap_dicts "image")
      else if String.eqb part_type "image_embeds" then
        call (parse_image_embeds content) ;;; ret (marker wrap_dicts "image")
      else if String.eqb part_type "audio_url" then
        call (parse_audio content) ;;; ret (marker wrap_dicts "audio")
      else if String.eqb part_type "input_audio" then
        call (parse_input_audio content) ;;; ret (marker wrap_dicts "audio")
      else if String.eqb part_type "video_url" then
        call (parse_video content) ;;; ret (marker wrap_dicts "video")
      else
        raise (NotImplementedError ("Unknown part type: " +:+ part_type))
  end.

(** The [for part in parts] loop of [_parse_chat_message_content_parts];
    [content] is the list built so far. *)
Fixpoint parse_parts_loop (parts : list pyval) (wrap_dicts : bool)
    (content : list pyval) : M (list pyval) :=
  match parts with
  | [] => ret content
  | part :: parts =>
      parse_res <- _parse_chat_message_content_part part wrap_dicts ;;
      parse_parts_loop parts wrap_dicts
        (match parse_res with
         | Some v => if truthy v then content ++ [v] else content
         | None => content
         end)
  end.

(** ["\n".join(texts)]: every item must be a [str]; [i] is the index of
    the first item of [texts] in the sequence joined. *)
Fixpoint str_items_from (i : nat) (texts : list pyval)
    : PyExc + list string :=
  match texts with
  | [] => inr []
  | PStr s :: rest =>
      match str_items_from (Datatypes.S i) rest with
      | inl e => inl e
      | inr l => inr (s :: l)
      end
  | v :: _ =>
      inl (TypeError ("sequence item " +:+ str_of_int (Z.of_nat i)
                      +:+ ": expected str instance, " +:+ type_name v
                      +:+ " found"))
  end.

Definition str_items (texts : list pyval) : PyExc + list string :=
  str_items_from 0 texts.

(** [_parse_chat_message_content_parts], from the parser that
    [mm_tracker.create_parser()] returned: the one message, as the
    [dict] with its ["role"] and ["content"]. *)
Definition _parse_chat_message_content_parts (role : string)
    (parts : list pyval) (wrap_dicts : bool)
    : M (list (list (string * pyval))) :=
  content <- parse_parts_loop parts wrap_dicts [] ;;
  if wrap_dicts then
    ret [[("role", PStr role); ("content", PList content)]]
  else
    texts <- lift (str_items content) ;;
    let text_prompt := String.concat Backfill.nl texts in
    fun st =>
      let counts := mm_placeholder_counts (mm_parser st) in
      match counts with
      | [] => ret [[("role", PStr role); ("content", PStr text_prompt)]] st
      | _ =>
          (text_prompt <-
             lift (Backfill._get_full_multimodal_text_prompt counts text_prompt) ;;
           ret [[("role", PStr role); ("content", PStr text_prompt)]]) st
      end.

End PartParser.

Arguments state S : clear implicits.

(** *** The blocking parser, [MultiModalContentParser] *)

(** An item of the blocking tracker: a loaded medium, or the [dict] of
    embeddings built from a [dict] of encoded ones. *)
Inductive Item (Media : Type) : Type :=
| Medium (m : Media)
| Embeds (d : list (string * Media)).

Arguments Medium {Media} m.
Arguments Embeds {Media} d.

(** The blocking methods of [MediaConnector]. *)
Record MediaConnector (Media : Type) : Type := {
  fetch_image : pyval -> PyExc + Media;
  fetch_image_embedding : pyval -> PyExc + Media;
  fetch_audio : pyval -> PyExc + Media;
  fetch_video : pyval -> PyExc + Media
}.

Arguments fetch_image {Media} _ _.
Arguments fetch_image_embedding {Media} _ _.
Arguments fetch_audio {Media} _ _.
Arguments fetch_video {Media} _ _.

(** The parser with the tracker it feeds: [_tracker._items_by_modality]
    and [_placeholder_counts]. *)
Record SyncParser (Media : Type) : Type := {
  _items_by_modality : gmap string (list (Item Media));
  _placeholder_counts : list (string * Z)
}.

Arguments _items_by_modality {Media} _.
Arguments _placeholder_counts {Media} _.

Section SyncParser.

Variable cfg : TrackerConfig.
Context {Media : Type}.
Variable _connector : MediaConnector Media.

(** [str(v)] inside an f-string, for a [list] or a [dict]. *)
Variable str_of_container : pyval -> string.

Definition format_value (v : pyval) : string :=
  match v with
  | PStr s => s
  | PInt z => str_of_int z
  | PNone => "None"
  | PBool true => "True"
  | PBool false => "False"
  | _ => str_of_container v
  end.

(** [mm_tracker.create_parser()]: the counts start empty, the tracker is
    the request's. *)
Definition create_parser (items : gmap string (list (Item Media)))
    : SyncParser Media :=
  {| _items_by_modality := items; _placeholder_counts := [] |}.

(** [_add_placeholder]: [if placeholder] holds for a non-empty string. *)
Definition _add_placeholder (placeholder : option string)
    (counts : list (string * Z)) : list (string * Z) :=
  match placeholder with
  | Some (String c p) =>
      dict_set counts (String c p)
        (default 0%Z (dict_get counts (String c p)) + 1)%Z
  | Some EmptyString | None => counts
  end.

(** [placeholder = self._tracker.add(modality, item)] followed by
    [self._add_placeholder(placeholder)]. *)
Definition track (modality : string) (item : Item Media)
    (p : SyncParser Media) : SyncParser Media * (PyExc + unit) :=
  match add cfg (_items_by_modality p) modality item with
  | (items, inl e) =>
      ({| _items_by_modality := items;
          _placeholder_counts := _placeholder_counts p |}, inl e)
  | (items, inr placeholder) =>
      ({| _items_by_modality := items;
          _placeholder_counts :=
            _add_placeholder placeholder (_placeholder_counts p) |}, inr tt)
  end.

Definition fetch_then_track (fetch : pyval -> PyExc + Media)
    (modality : string) (locator : pyval) (p : SyncParser Media)
    : SyncParser Media * (PyExc + unit) :=
  match fetch locator with
  | inl e => (p, inl e)
  | inr medium => track modality (Medium medium) p
  end.

(** [{k: fetch_image_embedding(v) for k, v in image_embeds.items()}]. *)
Fixpoint fetch_embeddings (d : list (string * pyval))
    : PyExc + list (string * Media) :=
  match d with
  | [] => inr []
  | (k, v) :: rest =>
      match fetch_image_embedding _connector v with
      | inl e => inl e
      | inr m =>
          match fetch_embeddings rest with
          | inl e => inl e
          | inr l => inr ((k, m) :: l)
          end
      end
  end.

Definition sync_parse_image_embeds (image_embeds : pyval)
    (p : SyncParser Media) : SyncParser Media * (PyExc + unit) :=
  match image_embeds with
  | PDict d =>
      match fetch_embeddings d with
      | inl e => (p, inl e)
      | inr embeds => track "image_embeds" (Embeds embeds) p
      end
  | PStr _ =>
      fetch_then_track (fetch_image_embedding _connector) "image_embeds"
        image_embeds p
  | _ => (p, inl (UnboundLocalError "placeholder"))
  end.

Definition sync_parse_audio : pyval -> SyncParser Media
    -> SyncParser Media * (PyExc + unit) :=
  fetch_then_track (fetch_audio _connector) "audio".

Definition sync_parse_input_audio (input_audio : pyval)
    (p : SyncParser Media) : SyncParser Media * (PyExc + unit) :=
  match py_get input_audio "data" (PStr "") with
  | inl e => (p, inl e)
  | inr audio_data =>
      match py_get input_audio "format" (PStr "") with
      | inl e => (p, inl e)
      | inr audio_format =>
          let audio_url :=
            "data:audio/" +:+ format_value audio_format +:+ ";base64,"
            +:+ format_value audio_data in
          sync_parse_audio (PStr audio_url) p
      end
  end.

#[local] Instance MultiModalContentParser
    : BaseMultiModalContentParser (SyncParser Media) := {|
  parse_image := fetch_then_track (fetch_image _connector) "image";
  parse_image_embeds := sync_parse_image_embeds;
  parse_audio := sync_parse_audio;
  parse_input_audio := sync_parse_input_audio;
  parse_video := fetch_then_track (fetch_video _connector) "video";
  mm_placeholder_counts := _placeholder_counts
|}.

End SyncParser.

(** A retrieval collaborator that loads every locator as itself. *)
Definition echo_connector : MediaConnector pyval :=
  {| fetch_image := inr; fetch_image_embedding := inr;
     fetch_audio := inr; fetch_video := inr |}.

Definition image_url_part (url : string) : pyval :=
  PDict [("type", PStr "image_url"); ("image_url", PDict [("url", PStr url)])].

Definition text_part (text : string) : pyval :=
  PDict [("type", PStr "text"); ("text", PStr text)].

(** The blocking parser of the examples, on a fresh tracker. *)
Definition blocking_parser : BaseMultiModalContentParser (SyncParser pyval) :=
  MultiModalContentParser mllama_two_images echo_connector (fun _ => "").

Definition fresh_state : state (SyncParser pyval) :=
  {| mm_parser := create_parser ∅; warnings := [] |}.

(** The specification's SchemaViolation failure: the three failures on a
    part's type tag. *)
Definition SchemaViolation (e : PyExc) : Prop :=
  e = ValueError "Missing 'type' field in multimodal part."
  \/ e = ValueError "Invalid 'type' field in multimodal part."
  \/ exists part_type,
       e = NotImplementedError ("Unknown part type: " +:+ part_type).

(** The part types of the five media kinds. *)
Definition media_part_types : list string :=
  ["image_url"; "image_embeds"; "audio_url"; "input_audio"; "video_url"].

End Parts.

(* ===================================================================== *)
(** ** Post-processing of the conversation *)
(* ===================================================================== *)

Module Post.

(** The identity of a [dict] object.  A tool call's ["function"] record is
    an object of the request that the conversation refers to:
    [list(parsed_msg["tool_calls"])] copies the list, not its items. *)
Abbreviation loc := positive.

(** The ["function"] records, by identity. *)
Abbreviation heap := (gmap loc (list (string * pyval))).

(** An item of [tool_calls]: its ["id"] and its ["function"] record. *)
Record ToolCall : Type := {
  call_id : string;
  function : loc
}.

(** A message of the conversation.  [tool_calls], when present, is the
    [list] that [_parse_chat_message_content] stored. *)
Record ConversationMessage : Type := {
  role : string;
  content : pyval;
  tool_call_id : option string;
  name : option string;
  tool_calls : option (list ToolCall)
}.

(** The double quote. *)
Definition dq : string := String (ascii_of_nat 34) EmptyString.

(** *** A decoder for JSON texts

    [json.loads] on the texts made of objects, arrays, strings without
    escapes, integers, [true], [false] and [null].  The result is [None]
    where [json.loads] raises on such a text, and also on every text with
    an escape in a string, a fraction or an exponent, which this decoder
    does not read. *)

Definition is_ws (c : ascii) : bool :=
  match nat_of_ascii c with
  | 32 | 9 | 10 | 13 => true
  | _ => false
  end.

Fixpoint skip_ws (s : string) : string :=
  match s with
  | String c s' => if is_ws c then skip_ws s' else s
  | EmptyString => s
  end.

(** The characters up to the closing quote, and what follows it. *)
Fixpoint scan_string (s : string) : option (string * string) :=
  match s with
  | EmptyString => None
  | String c s' =>
      if (nat_of_ascii c =? 34)%nat then Some (EmptyString, s')
      else if (nat_of_ascii c =? 92)%nat then None
      else if (nat_of_ascii c <? 32)%nat then None   (* control character *)
      else match scan_string s' with
           | Some (body, rest) => Some (String c body, rest)
           | None => None
           end
  end.

Definition digit_of (c : ascii) : option Z :=
  let n := nat_of_ascii c in
  if ((48 <=? n) && (n <=? 57))%nat then Some (Z.of_nat (n - 48)) else None.

Fixpoint scan_digits (acc : Z) (s : string) : Z * string :=
  match s with
  | String c s' =>
      match digit_of c with
      | Some d => scan_digits (acc * 10 + d) s'
      | None => (acc, s)
      end
  | EmptyString => (acc, s)
  end.

(** An integer: [0], or a digit other than 0 and the digits after it. *)
Definition scan_int (s : string) : option (Z * string) :=
  match s with
  | String c s' =>
      match digit_of c with
      | Some d => if (d =? 0)%Z then Some (0%Z, s') else Some (scan_digits 0 s)
      | None => None
      end
  | EmptyString => None
  end.

(** [dict([(key, v)] + list(d.items()))]: a name that comes again keeps its
    first place and takes its last value. *)
Definition first_member (key : string) (v : pyval)
    (d : list (string * pyval)) : list (string * pyval) :=
  match dict_get d key with
  | Some last => (key, last) :: List.filter (fun kv => negb (String.eqb (fst kv) key)) d
  | None => (key, v) :: d
  end.

Definition strip_prefix (p s : string) : option string :=
  if String.prefix p s
  then Some (String.substring (String.length p)
               (String.length s - String.length p) s)
  else None.

Fixpoint decode_value (fuel : nat) (s : string) : option (pyval * string) :=
  match fuel with
  | O => None
  | S fuel =>
      match skip_ws s with
      | String c rest =>
          let n := nat_of_ascii c in
          if (n =? 123)%nat then            (* { *)
            match skip_ws rest with
            | String c' rest' =>
                if (nat_of_ascii c' =? 125)%nat then Some (PDict [], rest')
                else
                  match decode_members fuel (skip_ws rest) with
                  | Some (d, rest'') => Some (PDict d, rest'')
                  | None => None
                  end
            | EmptyString => None
            end
          else if (n =? 91)%nat then        (* [ *)
            match skip_ws rest with
            | String c' rest' =>
                if (nat_of_ascii c' =? 93)%nat then Some (PList [], rest')
                else
                  match decode_elements fuel (skip_ws rest) with
                  | Some (l, rest'') => Some (PList l, rest'')
                  | None => None
                  end
            | EmptyString => None
            end
          else if (n =? 34)%nat then        (* a string *)
            match scan_string rest with
            | Some (body, rest') => Some (PStr body, rest')
            | None => None
            end
          else if (n =? 45)%nat then        (* - *)
            match scan_int rest with
            | Some (z, rest') => Some (PInt (- z), rest')
            | None => None
            end
          else
            match scan_int (String c rest) with
            | Some (z, rest') => Some (PInt z, rest')
            | None =>
                match strip_prefix "true" (String c rest) with
                | Some rest' => Some (PBool true, rest')
                | None =>
                    match strip_prefix "false" (String c rest) with
                    | Some rest' => Some (PBool false, rest')
                    | None =>
                        match strip_prefix "null" (String c rest) with
                        | Some rest' => Some (PNone, rest')
                        | None => None
                        end
                    end
                end
            end
      | EmptyString => None
      end
  end

with decode_members (fuel : nat) (s : string)
    : option (list (string * pyval) * string) :=
  match fuel with
  | O => None
  | S fuel =>
      match skip_ws s with
      | String c rest =>
          if (nat_of_ascii c =? 34)%nat then
            match scan_string rest with
            | Some (key, rest) =>
                match skip_ws rest with
                | String colon rest =>
                    if (nat_of_ascii colon =? 58)%nat then
                      match decode_value fuel rest with
                      | Some (v, rest) =>
                          match skip_ws rest with
                          | String sep rest =>
                              if (nat_of_ascii sep =? 125)%nat then
                                Some ([(key, v)], rest)
                              else if (nat_of_ascii sep =? 44)%nat then
                                match decode_members fuel rest with
                                | Some (d, rest) =>
                                    Some (first_member key v d, rest)
                                | None => None
                                end
                              else None
                          | EmptyString => None
                          end
                      | None => None
                      end
                    else None
                | EmptyString => None
                end
            | None => None
            end
          else None
      | EmptyString => None
      end
  end

with decode_elements (fuel : nat) (s : string)
    : option (list pyval * string) :=
  match fuel with
  | O => None
  | S fuel =>
      match decode_value fuel s with
      | Some (v, rest) =>
          match skip_ws rest with
          | String sep rest =>
              if (nat_of_ascii sep =? 93)%nat then Some ([v], rest)
              else if (nat_of_ascii sep =? 44)%nat then
                match decode_elements fuel rest with
                | Some (l, rest) => Some (v :: l, rest)
                | None => None
                end
              else None
          | EmptyString => None
          end
      | None => None
      end
  end.

Definition json_loads (s : string) : option pyval :=
  match decode_value (S (String.length s)) s with
  | Some (v, rest) =>
      match skip_ws rest with
      | EmptyString => Some v
      | String _ _ => None
      end
  | None => None
  end.

Section PostProcess.

(** [json.loads], [None] where it raises [JSONDecodeError]. *)
Variable loads : string -> option pyval.

(** [item["function"]["arguments"] = json.loads(item["function"]["arguments"])]. *)
Definition decode_arguments (h : heap) (fn : loc) : heap * (PyExc + unit) :=
  match h !! fn with
  | None => (h, inl (KeyError "function"))
  | Some record =>
      match dict_get record "arguments" with
      | None => (h, inl (KeyError "arguments"))
      | Some (PStr text) =>
          match loads text with
          | Some value =>
              (<[fn := dict_set record "arguments" value]> h, inr tt)
          | None => (h, inl JSONDecodeError)
          end
      | Some v =>
          (h, inl (TypeError
                     ("the JSON object must be str, bytes or bytearray, not "
                      +:+ type_name v)))
      end
  end.

(** [for item in message["tool_calls"]]. *)
Fixpoint decode_calls (items : list ToolCall) (h : heap)
    : heap * (PyExc + unit) :=
  match items with
  | [] => (h, inr tt)
  | item :: items =>
      match decode_arguments h (function item) with
      | (h, inr _) => decode_calls items h
      | (h, inl e) => (h, inl e)
      end
  end.

(** [decode_calls] over the records themselves. *)
Fixpoint decode_records (fns : list loc) (h : heap) : heap * (PyExc + unit) :=
  match fns with
  | [] => (h, inr tt)
  | fn :: fns =>
      match decode_arguments h fn with
      | (h, inr _) => decode_records fns h
      | (h, inl e) => (h, inl e)
      end
  end.

(** [_postprocess_messages]: the messages are not rebuilt, the records
    they refer to are updated. *)
Fixpoint _postprocess_messages (messages : list ConversationMessage)
    (h : heap) : heap * (PyExc + unit) :=
  match messages with
  | [] => (h, inr tt)
  | message :: messages =>
      if String.eqb (role message) "assistant" then
        match tool_calls message with
        | Some items =>
            match decode_calls items h with
            | (h, inr _) => _postprocess_messages messages h
            | (h, inl e) => (h, inl e)
            end
        | None => _postprocess_messages messages h
        end
      else _postprocess_messages messages h
  end.

End PostProcess.

(** The ["function"] records of the tool calls of the assistant messages,
    in the order the pass reaches them. *)
Definition tool_call_records (messages : list ConversationMessage)
    : list loc :=
  List.flat_map
    (fun message =>
       if String.eqb (role message) "assistant"
       then map function (default [] (tool_calls message))
       else [])
    messages.

(** The arguments payload of a record. *)
Definition arguments_of (h : heap) (fn : loc) : option pyval :=
  match h !! fn with
  | Some record => dict_get record "arguments"
  | None => None
  end.

(** The payload of [fn] is a text that [loads] decodes to [value]. *)
Definition encodes (loads : string -> option pyval) (h : heap) (fn : loc)
    (value : pyval) : Prop :=
  exists text, arguments_of h fn = Some (PStr text) /\ loads text = Some value.

(** The text [{"a": 1}]. *)
Definition a_1_text : string := "{" +:+ dq +:+ "a" +:+ dq +:+ ": 1}".

(** An assistant message with one tool call, whose record is object 1. *)
Definition calling_message : ConversationMessage :=
  {| role := "assistant"; content := PNone;
     tool_call_id := None; name := None;
     tool_calls := Some [{| call_id := "call_0"; function := 1%positive |}] |}.

(** The record as it arrives: the arguments are the encoded text. *)
Definition wire_heap : heap :=
  {[ 1%positive := [("name", PStr "f"); ("arguments", PStr a_1_text)] ]}.



End Post.

(* ===================================================================== *)
(** ** Loading and validating a chat template *)
(* ===================================================================== *)

Module Templates.

(** A [chat_template] argument, [Union[Path, str]]. *)
Inductive template_source : Type :=
| Path (p : string)
| Text (s : string).

(** The failures of this part of the file: the two I/O classes, and the
    classes of [PyExc]. *)
Inductive TemplateExc : Type :=
| FileNotFoundError (msg : string)
| OSError (reason : string)
| Py (e : PyExc).

(** [c in s] for a character [c]. *)
Fixpoint char_in (c : ascii) (s : string) : bool :=
  match s with
  | EmptyString => false
  | String d s' => Ascii.eqb c d || char_in c s'
  end.

(** [JINJA_CHARS = "{}\n"]. *)
Definition JINJA_CHARS : list ascii :=
  [ascii_of_nat 123; ascii_of_nat 125; ascii_of_nat 10].

(** [any(c in chat_template for c in JINJA_CHARS)]. *)
Definition has_jinja_chars (chat_template : string) : bool :=
  existsb (fun c => char_in c chat_template) JINJA_CHARS.

Section FileSystem.

(** [Path(p).exists()]. *)
Variable path_exists : string -> bool.

(** [open(p).read()]: the text, or the reason of the [OSError]. *)
Variable read_file : string -> string + string.

(** [f"{type(chat_template)}"] for a [Path]. *)
Variable path_type_repr : string.

Definition validate_chat_template (chat_template : option template_source)
    : TemplateExc + unit :=
  match chat_template with
  | None => inr tt
  | Some (Path p) =>
      if negb (path_exists p) then
        inl (FileNotFoundError "the supplied chat template path doesn't exist")
      else
        (* neither [elif] applies: the [else] branch *)
        inl (Py (TypeError (path_type_repr
                            +:+ " is not a valid chat template type")))
  | Some (Text s) =>
      if negb (has_jinja_chars s) && negb (path_exists s) then
        inl (Py (ValueError
                   ("The supplied chat template string (" +:+ s
                    +:+ ") appears path-like, but doesn't exist!")))
      else inr tt
  end.

Definition _load_chat_template (chat_template : option template_source)
    (is_literal : bool) : TemplateExc + option string :=
  match chat_template with
  | None => inr None
  | Some src =>
      if is_literal then
        match src with
        | Path _ =>
            inl (Py (TypeError
                  "chat_template is expected to be read directly from its value"))
        | Text s => inr (Some s)
        end
      else
        match read_file (match src with Path p => p | Text s => s end) with
        | inr text => inr (Some text)
        | inl reason =>
            match src with
            | Path _ => inl (OSError reason)
            | Text s =>
                if negb (has_jinja_chars s) then
                  inl (Py (ValueError
                             ("The supplied chat template (" +:+ s
                              +:+ ") looks like a file path, but it failed to be opened. Reason: "
                              +:+ reason)))
                else
                  (* [_load_chat_template(chat_template, is_literal=True)] *)
                  inr (Some s)
            end
        end
  end.

End FileSystem.

End Templates.

(* ===================================================================== *)
(** ** Resolving the content format of a template *)
(* ===================================================================== *)

Module Resolve.

Import Analyzer.

(** [ChatTemplateContentFormatOption = Literal["auto", "string", "openai"]]. *)
Inductive ChatTemplateContentFormatOption : Type :=
| opt_auto
| opt_string
| opt_openai.

Definition option_of_format (f : _ChatTemplateContentFormat)
    : ChatTemplateContentFormatOption :=
  match f with fmt_string => opt_string | fmt_openai => opt_openai end.

Definition format_name (f : ChatTemplateContentFormatOption) : string :=
  match f with
  | opt_auto => "auto"
  | opt_string => "string"
  | opt_openai => "openai"
  end.

Definition format_option_eqb (a b : ChatTemplateContentFormatOption) : bool :=
  match a, b with
  | opt_auto, opt_auto | opt_string, opt_string | opt_openai, opt_openai => true
  | _, _ => false
  end.

(** What [cached_get_processor] returns: whether it is a [ProcessorMixin],
    and its [chat_template]. *)
Record Processor : Type := {
  is_ProcessorMixin : bool;
  processor_chat_template : option string
}.

Section Resolution.

(** [tokenizer.name_or_path]. *)
Variable name_or_path : string.

(** [cached_get_processor(tokenizer.name_or_path, ..., trust_remote_code)]. *)
Variable cached_get_processor : bool -> PyExc + Processor.

(** [tokenizer.get_chat_template(None, tools=tools)]. *)
Variable get_chat_template : option (list pyval) -> PyExc + string.

(** [_resolve_hf_chat_template]: the debug lines logged, and the template. *)
Definition _resolve_hf_chat_template (chat_template : option string)
    (tools : option (list pyval)) (trust_remote_code : bool)
    : list string * option string :=
  match chat_template with
  | Some t => ([], Some t)
  | None =>
      let from_processor : list string * option string :=
        match tools with
        | None =>
            match cached_get_processor trust_remote_code with
            | inr processor =>
                if is_ProcessorMixin processor then
                  ([], processor_chat_template processor)
                else ([], None)
            | inl _ =>
                (["Failed to load AutoProcessor chat template for "
                  +:+ name_or_path], None)
            end
        | Some _ => ([], None)
        end in
      match from_processor with
      | (logged, Some t) => (logged, Some t)
      | (logged, None) =>
          match get_chat_template tools with
          | inr t => (logged, Some t)
          | inl _ =>
              (logged ++ ["Failed to load AutoTokenizer chat template for "
                          +:+ name_or_path], None)
          end
      end
  end.

(** [_try_extract_ast]. *)
Variable _try_extract_ast : string -> option Node.

(** [isinstance(tokenizer, (PreTrainedTokenizer, PreTrainedTokenizerFast))]. *)
Variable is_hf_tokenizer : bool.

(** [_resolve_chat_template_content_format]: the debug lines logged and
    the format; [load_chat_template] with [is_literal=True] gives back its
    [Optional[str]] argument. *)
Definition _resolve_chat_template_content_format (fuel : nat)
    (chat_template : option string) (tools : option (list pyval))
    (given_format : ChatTemplateContentFormatOption)
    (trust_remote_code : bool)
    : list string * outcome _ChatTemplateContentFormat :=
  let '(debug, hf_chat_template) :=
    if is_hf_tokenizer
    then _resolve_hf_chat_template chat_template tools trust_remote_code
    else ([], None) in
  let jinja_text :=
    match hf_chat_template with
    | Some t => Some t
    | None => chat_template
    end in
  let detected_format :=
    match jinja_text with
    | None => Returned fmt_string
    | Some text => _detect_content_format _try_extract_ast fuel text fmt_string
    end in
  (debug,
   match detected_format with
   | Returned detected_format =>
       Returned (match given_format with
                 | opt_auto => detected_format
                 | opt_string => fmt_string
                 | opt_openai => fmt_openai
                 end)
   | Raised e => Raised e
   | Unfinished => Unfinished
   end).

End Resolution.

(** *** The memoised logging *)

(** The arguments of [_log_chat_template_content_format]. *)
Definition log_key : Type :=
  (option string * ChatTemplateContentFormatOption
   * ChatTemplateContentFormatOption)%type.

Definition log_key_eqb (a b : log_key) : bool :=
  let '(t1, g1, d1) := a in
  let '(t2, g2, d2) := b in
  match t1, t2 with
  | Some x, Some y => String.eqb x y
  | None, None => true
  | _, _ => false
  end && format_option_eqb g1 g2 && format_option_eqb d1 d2.

(** The cache of [functools.lru_cache], most recently used first, and the
    lines logged by the functions of this section (the analyzer's own
    diagnostics are not part of it). *)
Record log_state : Type := {
  cache : list log_key;
  logged : list string
}.

(** [lru_cache] keeps 128 entries. *)
Definition maxsize : nat := 128.

Definition detected_info (detected_format : ChatTemplateContentFormatOption)
    : string :=
  "Detected the chat template content format to be '"
  +:+ format_name detected_format
  +:+ "'. You can set `--chat-template-content-format` to override this.".

Definition mismatch_warning
    (given_format detected_format : ChatTemplateContentFormatOption) : string :=
  "You specified `--chat-template-content-format "
  +:+ format_name given_format
  +:+ "` which is different from the detected format '"
  +:+ format_name detected_format
  +:+ "'. If our automatic detection is incorrect, please consider opening a GitHub issue so that we can improve it: https://github.com/vllm-project/vllm/issues/new/choose".

(** The body of [_log_chat_template_content_format]: what one run logs. *)
Definition log_body
    (given_format detected_format : ChatTemplateContentFormatOption)
    : list string :=
  detected_info detected_format
  :: (if negb (format_option_eqb given_format opt_auto)
         && negb (format_option_eqb given_format detected_format)
      then [mismatch_warning given_format detected_format] else []).

(** [_log_chat_template_content_format] under [@lru_cache]: a hit runs
    nothing and moves the entry to the front; a miss runs the body and
    stores the entry, dropping the least recently used past [maxsize]. *)
Definition _log_chat_template_content_format (chat_template : option string)
    (given_format detected_format : ChatTemplateContentFormatOption)
    (st : log_state) : log_state :=
  let key := (chat_template, given_format, detected_format) in
  if existsb (log_key_eqb key) (cache st) then
    {| cache := key :: List.filter (fun k => negb (log_key_eqb key k)) (cache st);
       logged := logged st |}
  else
    {| cache := firstn maxsize (key :: cache st);
       logged := logged st ++ log_body given_format detected_format |}.

Section Resolve.

Variable name_or_path : string.
Variable cached_get_processor : bool -> PyExc + Processor.
Variable get_chat_template : option (list pyval) -> PyExc + string.
Variable _try_extract_ast : string -> option Node.
Variable is_hf_tokenizer : bool.

(** [resolve_chat_template_content_format]: the result, and the cache and
    log after the call. *)
Definition resolve_chat_template_content_format (fuel : nat)
    (chat_template : option string) (tools : option (list pyval))
    (given_format : ChatTemplateContentFormatOption)
    (trust_remote_code : bool) (st : log_state)
    : log_state * outcome _ChatTemplateContentFormat :=
  let '(debug, resolved) :=
    _resolve_chat_template_content_format name_or_path
      cached_get_processor get_chat_template _try_extract_ast
      is_hf_tokenizer fuel chat_template tools given_format
      trust_remote_code in
  let st := {| cache := cache st; logged := logged st ++ debug |} in
  match resolved with
  | Returned detected_format =>
      (_log_chat_template_content_format chat_template given_format
         (option_of_format detected_format) st,
       Returned detected_format)
  | Raised e => (st, Raised e)
  | Unfinished => (st, Unfinished)
  end.

End Resolve.

End Resolve.

(* ===================================================================== *)
(** ** Conversation builder *)
(* ===================================================================== *)

Module Builder.

Import Analyzer Tracker Parts.

(** Iterating a value ([for x in v], [list(v)]): the items of a [list],
    the keys of a [dict], the characters of a [str]. *)
Fixpoint chars (s : string) : list pyval :=
  match s with
  | EmptyString => []
  | String c s' => PStr (String c EmptyString) :: chars s'
  end.

Definition py_iter (v : pyval) : PyExc + list pyval :=
  match v with
  | PList l => inr l
  | PDict d => inr (map (fun kv => PStr (fst kv)) d)
  | PStr s => inr (chars s)
  | PNone => inl (TypeError "'NoneType' object is not iterable")
  | PBool _ => inl (TypeError "'bool' object is not iterable")
  | PInt _ => inl (TypeError "'int' object is not iterable")
  end.

(** An input message, [ChatCompletionMessageParam]: the required [role],
    [message.get("content")] ([PNone] for a missing key), and the optional
    keys, [None] when the key is not in the message. *)
Record ChatCompletionMessageParam : Type := {
  role : string;
  content : pyval;
  name : option pyval;
  tool_call_id : option pyval;
  tool_calls : option pyval
}.

(** The role-specific keys set on one [result_msg]. *)
Definition attach_fields (message : ChatCompletionMessageParam)
    (result_msg : list (string * pyval)) : PyExc + list (string * pyval) :=
  let with_role_fields : PyExc + list (string * pyval) :=
    if String.eqb (role message) "assistant" then
      match tool_calls message with
      | Some calls =>
          match py_iter calls with
          | inl e => inl e
          | inr l => inr (dict_set result_msg "tool_calls" (PList l))
          end
      | None => inr result_msg
      end
    else if String.eqb (role message) "tool" then
      match tool_call_id message with
      | Some id => inr (dict_set result_msg "tool_call_id" id)
      | None => inr result_msg
      end
    else inr result_msg in
  match with_role_fields with
  | inl e => inl e
  | inr result_msg =>
      match name message with
      | Some (PStr n) => inr (dict_set result_msg "name" (PStr n))
      | _ => inr result_msg
      end
  end.

(** [for result_msg in result]. *)
Fixpoint attach_all (message : ChatCompletionMessageParam)
    (result : list (list (string * pyval)))
    : PyExc + list (list (string * pyval)) :=
  match result with
  | [] => inr []
  | result_msg :: rest =>
      match attach_fields message result_msg with
      | inl e => inl e
      | inr m =>
          match attach_all message rest with
          | inl e => inl e
          | inr ms => inr (m :: ms)
          end
      end
  end.

Section Blocking.

Variable cfg : TrackerConfig.
Context {Media : Type}.
Variable _connector : MediaConnector Media.
Variable str_of_container : pyval -> string.

(** The tracker of the request and the log of warnings. *)
Record request : Type := {
  mm_tracker : gmap string (list (Item Media));
  log : list string
}.

(** [_parse_chat_message_content_parts] from the tracker: the parser is
    created for this call, its tracker is the request's. *)
Definition parse_parts_of (role : string) (parts : pyval)
    (wrap_dicts : bool) (rq : request)
    : request * (PyExc + list (list (string * pyval))) :=
  match py_iter parts with
  | inl e => (rq, inl e)
  | inr parts =>
      let '(st, r) :=
        @_parse_chat_message_content_parts _
          (MultiModalContentParser cfg _connector str_of_container)
          role parts wrap_dicts
          {| mm_parser := create_parser (mm_tracker rq);
             warnings := log rq |} in
      ({| mm_tracker := _items_by_modality (mm_parser st);
          log := warnings st |}, r)
  end.

Definition _parse_chat_message_content (message : ChatCompletionMessageParam)
    (content_format : _ChatTemplateContentFormat) (rq : request)
    : request * (PyExc + list (list (string * pyval))) :=
  let content :=
    match content message with
    | PNone => PList []
    | PStr s => PList [text_part s]
    | c => c
    end in
  match parse_parts_of (role message) content
          (match content_format with fmt_openai => true | fmt_string => false end)
          rq with
  | (rq, inl e) => (rq, inl e)
  | (rq, inr result) => (rq, attach_all message result)
  end.

(** The [for msg in messages] loop of [parse_chat_messages];
    [conversation] is the list so far. *)
Fixpoint parse_messages_loop (messages : list ChatCompletionMessageParam)
    (content_format : _ChatTemplateContentFormat)
    (conversation : list (list (string * pyval))) (rq : request)
    : request * (PyExc + list (list (string * pyval))) :=
  match messages with
  | [] => (rq, inr conversation)
  | msg :: messages =>
      match _parse_chat_message_content msg content_format rq with
      | (rq, inl e) => (rq, inl e)
      | (rq, inr sub_messages) =>
          parse_messages_loop messages content_format
            (conversation ++ sub_messages) rq
      end
  end.

End Blocking.

Arguments mm_tracker {Media} _.
Arguments log {Media} _.

(** *** Preparing the conversation for the template *)

(** [_convert_message]. *)
Definition _convert_message (msg : list (string * pyval))
    : PyExc + list (string * pyval) :=
  match dict_get msg "role" with
  | None => inl (KeyError "role")
  | Some r =>
      let result := [("role", r)] in
      let result :=
        dict_set result "content"
          (match dict_get msg "content" with
           | Some c => c
           | None => PStr ""
           end) in
      let copy (key : string) (result : list (string * pyval)) :=
        match dict_get msg key with
        | Some v => dict_set result key v
        | None => result
        end in
      inr (copy "tool_call_id" (copy "tool_calls" (copy "name" result)))
  end.

(** [conv[-1]["role"] == "assistant"] for a non-empty [conv]. *)
Definition last_is_assistant (conv : list (list (string * pyval)))
    : PyExc + bool :=
  match List.last (map Some conv) None with
  | None => inr false
  | Some final =>
      match dict_get final "role" with
      | None => inl (KeyError "role")
      | Some r => inr (eq_str r "assistant")
      end
  end.

(** The first lines of [apply_hf_chat_template] after the template is
    resolved: [conv_for_formatting], from the conversation and the keyword
    arguments. *)
Definition conv_for_formatting (conversation : list (list (string * pyval)))
    (kwargs : list (string * pyval))
    : PyExc + list (list (string * pyval)) :=
  let assistant_turn := [("role", PStr "assistant"); ("content", PStr "")] in
  if truthy (dict_get_default kwargs "add_generation_prompt" (PBool true)) then
    if truthy (dict_get_default kwargs "continue_final_message" (PBool false))
       && match conversation with [] => false | _ => true end
    then
      match last_is_assistant conversation with
      | inl e => inl e
      | inr true => inr conversation
      | inr false => inr (conversation ++ [assistant_turn])
      end
    else inr (conversation ++ [assistant_turn])
  else
    match conversation with
    | [] => inr conversation
    | _ =>
        match last_is_assistant conversation with
        | inl e => inl e
        | inr true => inr (List.removelast conversation)
        | inr false => inr conversation
        end
    end.

(** [[_convert_message(msg) for msg in conv_for_formatting]]. *)
Fixpoint convert_all (conv : list (list (string * pyval)))
    : PyExc + list (list (string * pyval)) :=
  match conv with
  | [] => inr []
  | msg :: rest =>
      match _convert_message msg with
      | inl e => inl e
      | inr m =>
          match convert_all rest with
          | inl e => inl e
          | inr ms => inr (m :: ms)
          end
      end
  end.

End Builder.

(* ===================================================================== *)
(** ** Runs of the item tracker *)
(* ===================================================================== *)

Module TrackerRuns.

Import Tracker.

Section Runs.

Variable cfg : TrackerConfig.
Context {T : Type}.

(** The tracker after a run of [add] calls, whatever each call gave. *)
Fixpoint add_calls (items : gmap string (list T))
    (calls : list (string * T)) : gmap string (list T) :=
  match calls with
  | [] => items
  | (modality, item) :: calls =>
      add_calls (add cfg items modality item).1 calls
  end.

(** No modality holds more items than its limit allows. *)
Definition within_limits (items : gmap string (list T)) : Prop :=
  forall modality,
    (Z.of_nat (count_of items modality)
     <= Z.max 0 (default 1 (_allowed_items cfg !! modality)))%Z.

End Runs.

End TrackerRuns.

(* ===================================================================== *)
(** ** The parser of pending items, [AsyncMultiModalContentParser] *)
(* ===================================================================== *)

Module AsyncParts.

Import Tracker Parts.

(** The coroutine functions of [MediaConnector]. *)
Inductive fetch_async : Type :=
| fetch_image_async
| fetch_audio_async
| fetch_video_async.

(** An item of the tracker of pending items: a coroutine object, made by
    calling a coroutine function and not awaited yet, or an
    [asyncio.Future], with its result when [set_result] was called. *)
Inductive Pending (Media : Type) : Type :=
| Coroutine (method : fetch_async) (locator : pyval)
| Future (result : option (Item Media)).

Arguments Coroutine {Media} method locator.
Arguments Future {Media} result.

(** The parser with the tracker it feeds. *)
Record AsyncParser (Media : Type) : Type := {
  _items_by_modality : gmap string (list (Pending Media));
  _placeholder_counts : list (string * Z)
}.

Arguments _items_by_modality {Media} _.
Arguments _placeholder_counts {Media} _.

Section AsyncParser.

Variable cfg : TrackerConfig.
Context {Media : Type}.
Variable _connector : MediaConnector Media.
Variable str_of_container : pyval -> string.

(** [mm_tracker.create_parser()]. *)
Definition create_parser (items : gmap string (list (Pending Media)))
    : AsyncParser Media :=
  {| _items_by_modality := items; _placeholder_counts := [] |}.

(** [placeholder = self._tracker.add(modality, item)] followed by
    [self._add_placeholder(placeholder)]. *)
Definition track (modality : string) (item : Pending Media)
    (p : AsyncParser Media) : AsyncParser Media * (PyExc + unit) :=
  match add cfg (_items_by_modality p) modality item with
  | (items, inl e) =>
      ({| _items_by_modality := items;
          _placeholder_counts := _placeholder_counts p |}, inl e)
  | (items, inr placeholder) =>
      ({| _items_by_modality := items;
          _placeholder_counts :=
            _add_placeholder placeholder (_placeholder_counts p) |}, inr tt)
  end.

(** The embeddings are fetched at once, by the blocking method; the
    future is added with or without a result. *)
Definition async_parse_image_embeds (image_embeds : pyval)
    (p : AsyncParser Media) : AsyncParser Media * (PyExc + unit) :=
  match image_embeds with
  | PDict d =>
      match fetch_embeddings _connector d with
      | inl e => (p, inl e)
      | inr embeds => track "image_embeds" (Future (Some (Embeds embeds))) p
      end
  | PStr _ =>
      match fetch_image_embedding _connector image_embeds with
      | inl e => (p, inl e)
      | inr embedding =>
          track "image_embeds" (Future (Some (Medium embedding))) p
      end
  | _ => track "image_embeds" (Future None) p
  end.

Definition async_parse_audio (audio_url : pyval)
    : AsyncParser Media -> AsyncParser Media * (PyExc + unit) :=
  track "audio" (Coroutine fetch_audio_async audio_url).

Definition async_parse_input_audio (input_audio : pyval)
    (p : AsyncParser Media) : AsyncParser Media * (PyExc + unit) :=
  match py_get input_audio "data" (PStr "") with
  | inl e => (p, inl e)
  | inr audio_data =>
      match py_get input_audio "format" (PStr "") with
      | inl e => (p, inl e)
      | inr audio_format =>
          let audio_url :=
            "data:audio/" +:+ format_value str_of_container audio_format
            +:+ ";base64," +:+ format_value str_of_container audio_data in
          async_parse_audio (PStr audio_url) p
      end
  end.

#[local] Instance AsyncMultiModalContentParser
    : BaseMultiModalContentParser (AsyncParser Media) := {|
  parse_image image_url := track "image" (Coroutine fetch_image_async image_url);
  parse_image_embeds := async_parse_image_embeds;
  parse_audio := async_parse_audio;
  parse_input_audio := async_parse_input_audio;
  parse_video video_url := track "video" (Coroutine fetch_video_async video_url);
  mm_placeholder_counts := _placeholder_counts
|}.

End AsyncParser.

(** The two trackers hold as many items under each modality, and the two
    parsers have counted the same placeholders. *)
Definition same_counts {Media : Type} (p : SyncParser Media)
    (q : AsyncParser Media) : Prop :=
  Parts._placeholder_counts p = _placeholder_counts q
  /\ forall modality,
       length <$> (Parts._items_by_modality p !! modality)
       = length <$> (_items_by_modality q !! modality).

(** [m2] goes where [m1] goes, whenever [m1] returns. *)
Definition follows {S1 S2 : Type} (R : S1 -> S2 -> Prop)
    (m1 : pyval -> S1 -> S1 * (PyExc + unit))
    (m2 : pyval -> S2 -> S2 * (PyExc + unit)) : Prop :=
  forall v p q p',
    R p q -> m1 v p = (p', inr tt) ->
    exists q', m2 v q = (q', inr tt) /\ R p' q'.

(** Two parsing states with related parsers and the same log. *)
Definition related_states {S1 S2 : Type} (R : S1 -> S2 -> Prop)
    (st1 : state S1) (st2 : state S2) : Prop :=
  R (mm_parser st1) (mm_parser st2) /\ warnings st1 = warnings st2.

(** The computation [c2] returns what [c1] returns, in a related state,
    whenever [c1] returns. *)
Definition simulates {S1 S2 A : Type} (R : S1 -> S2 -> Prop)
    (c1 : state S1 -> state S1 * (PyExc + A))
    (c2 : state S2 -> state S2 * (PyExc + A)) : Prop :=
  forall st1 st2 st1' a,
    related_states R st1 st2 -> c1 st1 = (st1', inr a) ->
    exists st2', c2 st2 = (st2', inr a) /\ related_states R st1' st2'.

(** A connector none of whose blocking retrievals succeeds. *)
Definition offline_connector : MediaConnector pyval :=
  {| fetch_image := fun _ => inl (ValueError "offline");
     fetch_image_embedding := fun _ => inl (ValueError "offline");
     fetch_audio := fun _ => inl (ValueError "offline");
     fetch_video := fun _ => inl (ValueError "offline") |}.

End AsyncParts.

(* ===================================================================== *)
(** ** Example runs *)
(* ===================================================================== *)

Module TemplateRuns.

(** A file system with the one file [template.jinja], in the directory
    [templates]. *)
Definition one_file_exists (p : string) : bool :=
  String.eqb p "template.jinja" || String.eqb p "templates".

Definition one_file_read (p : string) : string + string :=
  if String.eqb p "template.jinja" then inr "{{ messages }}"
  else if String.eqb p "templates" then
    inl "[Errno 21] Is a directory: 'templates'"
  else inl ("[Errno 2] No such file or directory: '" +:+ p +:+ "'").

End TemplateRuns.

Module PostRuns.
Import Post.

(** An assistant message with two tool calls, on the records 1 and 2. *)
Definition two_call_message : ConversationMessage :=
  {| role := "assistant"; content := PNone;
     tool_call_id := None; name := None;
     tool_calls := Some [{| call_id := "call_0"; function := 1%positive |};
                         {| call_id := "call_1"; function := 2%positive |}] |}.

(** The first record holds an encoded object, the second a text that is
    cut short. *)
Definition cut_short_heap : heap :=
  <[ 2%positive := [("name", PStr "g"); ("arguments", PStr "{")] ]> wire_heap.

End PostRuns.

Module BuilderRuns.
Import Tracker Parts Builder.

(** A request that has parsed nothing yet. *)
Definition fresh_request : request (Media := pyval) :=
  {| mm_tracker := ∅; log := [] |}.

(** A request whose messages so far have brought two images. *)
Definition two_image_request : request (Media := pyval) :=
  {| mm_tracker := {[ "image" := [Medium (PStr "http://a/1.png");
                                   Medium (PStr "http://a/2.png")] ]};
     log := [] |}.

Definition user_message (text : string) : ChatCompletionMessageParam :=
  {| role := "user"; content := PStr text; name := None;
     tool_call_id := None; tool_calls := None |}.

(** An assistant message that calls a tool. *)
Definition assistant_call_message : ChatCompletionMessageParam :=
  {| role := "assistant"; content := PNone; name := Some (PStr "helper");
     tool_call_id := None;
     tool_calls := Some (PList [PDict [("id", PStr "call_0")]]) |}.

Definition image_message (url : string) : ChatCompletionMessageParam :=
  {| role := "user"; content := PList [image_url_part url]; name := None;
     tool_call_id := None; tool_calls := None |}.

(** A message of a conversation with a key the template does not know. *)
Definition annotated_message : list (string * pyval) :=
  [("role", PStr "user"); ("annotations", PList []);
   ("name", PStr "ana")].

End BuilderRuns.

(* ===================================================================== *)
(** * Theorems *)
(* ===================================================================== *)

Module AnalyzerFacts.
Import Analyzer.

(** [find_all] is the pre-order of the children's subtrees, as in
    [Node.find_all]. *)
Lemma descendants_children (n : Node) :
  descendants n = List.flat_map subtree (iter_child_nodes n).
Proof.
  unfold descendants.
  destruct n as [| |a b c|a b c|o f args|a f args|a b c|t v|t i body els ts r|cs];
    simpl; try reflexivity.
  - now rewrite app_nil_r.
  - now rewrite app_nil_r.
  - destruct o; simpl; rewrite ?flat_map_app; simpl; now rewrite ?app_nil_r.
  - destruct a, b, c; simpl; now rewrite ?app_nil_r.
  - now rewrite app_nil_r.
  - rewrite !flat_map_app. destruct ts; simpl; now rewrite ?app_nil_r.
Qed.

Section Traversal.

Variable root : Node.

Lemma step_in_cons a assigns x n :
  step_in (a :: assigns) x n <->
  (exists lhs rhs, a = Assign lhs rhs
     /\ _is_var_or_elems_access rhs x None = true /\ name_of lhs = Some n)
  \/ step_in assigns x n.
Proof.
  unfold step_in; split.
  - intros (lhs & rhs & [Ha | Hin] & H1 & H2); [left | right]; eauto 6.
  - intros [(lhs & rhs & -> & H1 & H2) | (lhs & rhs & Hin & H1 & H2)];
      exists lhs, rhs; simpl; auto.
Qed.

Lemma bad_in_cons a assigns x :
  bad_in (a :: assigns) x <->
  (exists lhs rhs, a = Assign lhs rhs
     /\ _is_var_or_elems_access rhs x None = true /\ name_of lhs = None)
  \/ bad_in assigns x.
Proof.
  unfold bad_in; split.
  - intros (lhs & rhs & [Ha | Hin] & H1 & H2); [left | right]; eauto 6.
  - intros [(lhs & rhs & -> & H1 & H2) | (lhs & rhs & Hin & H1 & H2)];
      exists lhs, rhs; simpl; auto.
Qed.

Lemma scan_assigns_returns assigns x ys qs :
  scan_assigns assigns x = inr (ys, qs) ->
  (forall n, In n (map snd ys) <-> step_in assigns x n)
  /\ (forall n, In n qs <-> step_in assigns x n /\ n <> x)
  /\ ~ bad_in assigns x.
Proof.
  revert ys qs. induction assigns as [|a assigns IH]; intros ys qs H.
  - simpl in H. injection H as <- <-.
    split; [|split].
    + intros n; split; [intros [] | intros (? & ? & [] & _)].
    + intros n; split; [intros [] | intros [(? & ? & [] & _) _]].
    + intros (? & ? & [] & _).
  - simpl in H.
    assert (Hskip : scan_assigns assigns x = inr (ys, qs) ->
              (forall lhs rhs, a = Assign lhs rhs ->
                 _is_var_or_elems_access rhs x None = false) ->
              (forall n, In n (map snd ys) <-> step_in (a :: assigns) x n)
              /\ (forall n, In n qs <-> step_in (a :: assigns) x n /\ n <> x)
              /\ ~ bad_in (a :: assigns) x).
    { intros Hs Hno. destruct (IH _ _ Hs) as (I1 & I2 & I3).
      assert (Hn : forall P : Node -> Prop,
                 (exists lhs rhs, a = Assign lhs rhs
                    /\ _is_var_or_elems_access rhs x None = true /\ P lhs)
                 -> False).
      { intros P (l & r & E & T & _). rewrite (Hno _ _ E) in T. discriminate. }
      split; [|split].
      - intros n. rewrite step_in_cons, I1. split; [tauto|].
        intros [Hi | Hi]; [|easy].
        exfalso. exact (Hn (fun l => name_of l = Some n) Hi).
      - intros n. rewrite step_in_cons, I2. split; [tauto|].
        intros [[Hi | Hi] Hne]; [|easy].
        exfalso. exact (Hn (fun l => name_of l = Some n) Hi).
      - rewrite bad_in_cons. intros [Hb | Hb]; [|now apply I3].
        exact (Hn (fun l => name_of l = None) Hb). }
    destruct a as [| |? ? ?|? ? ?|? ? ?|? ? ?|? ? ?|lhs rhs|? ? ? ? ? ?|?];
      try (apply Hskip; [exact H | intros ? ? [=]]).
    destruct (_is_var_or_elems_access rhs x None) eqn:Hacc.
    2:{ apply Hskip; [exact H |]. intros l r [= <- <-]. exact Hacc. }
    destruct lhs as [nm ctx| | | | | | | | |]; try discriminate H.
    destruct (scan_assigns assigns x) as [e | [ys' qs']] eqn:Hs;
      [discriminate H|].
    injection H as <- <-.
    destruct (IH _ _ eq_refl) as (I1 & I2 & I3).
    assert (Hhd : forall n, nm = n <->
       (exists lhs rhs0, Assign (Name nm ctx) rhs = Assign lhs rhs0
          /\ _is_var_or_elems_access rhs0 x None = true
          /\ name_of lhs = Some n)).
    { intros n; split.
      - intros <-. exists (Name nm ctx), rhs. auto.
      - intros (l & r & [= <- <-] & _ & [= ->]). reflexivity. }
    split; [|split].
    + intros n. rewrite step_in_cons, <- Hhd, <- I1. simpl. tauto.
    + intros n. rewrite step_in_cons, <- Hhd.
      destruct (String.eqb_spec nm x) as [E | NE].
      * rewrite I2. split; [tauto|]. intros [[<- | Hi] Hne]; [easy | tauto].
      * simpl. rewrite I2. split; [|tauto].
        intros [<- | Hi]; [tauto | tauto].
    + rewrite bad_in_cons. intros [Hb | Hb]; [|now apply I3].
      destruct Hb as (l & r & [= <- <-] & _ & [=]).
Qed.

Lemma scan_assigns_raises assigns x e :
  scan_assigns assigns x = inl e -> e = AssertionError /\ bad_in assigns x.
Proof.
  induction assigns as [|a assigns IH]; intros H; [discriminate H|].
  simpl in H.
  assert (Hrec : scan_assigns assigns x = inl e ->
                 e = AssertionError /\ bad_in (a :: assigns) x).
  { intros Hs. destruct (IH Hs) as [-> Hb]. split; [easy|].
    apply bad_in_cons. now right. }
  destruct a as [| |? ? ?|? ? ?|? ? ?|? ? ?|? ? ?|lhs rhs|? ? ? ? ? ?|?];
    try (apply Hrec; exact H).
  destruct (_is_var_or_elems_access rhs x None) eqn:Hacc; [|apply Hrec; exact H].
  assert (Hbad : name_of lhs = None -> bad_in (Assign lhs rhs :: assigns) x).
  { intros Hn. exists lhs, rhs. simpl. auto. }
  destruct lhs as [nm ctx| | | | | | | | |];
    try (injection H as <-; split; [reflexivity | now apply Hbad]).
  destruct (scan_assigns assigns x) as [e' | [ys' qs']] eqn:Hs;
    [|discriminate H].
  injection H as ->. now apply Hrec.
Qed.

Lemma alias_left v s x :
  assigns_to root v s -> alias root s x -> alias root v x.
Proof.
  intros Hs Ha. induction Ha as [|a n _ IH Hn].
  - apply alias_assign with v; [apply alias_root | exact Hs].
  - apply alias_assign with a; assumption.
Qed.

(** A chain of assignments from [v] either is empty or leaves [v] for good
    through some assignment to another name. *)
Lemma alias_split v x :
  alias root v x ->
  x = v \/ exists s, assigns_to root v s /\ s <> v /\ alias root s x.
Proof.
  intros Ha. induction Ha as [|a n Ha IH Hn]; [now left|].
  destruct (string_dec n v) as [-> | Hne]; [now left|].
  right. destruct IH as [-> | (s & Hs & Hsv & Hsa)].
  - exists n. split; [exact Hn|]. split; [exact Hne | apply alias_root].
  - exists s. split; [exact Hs|]. split; [exact Hsv|].
    apply alias_assign with a; assumption.
Qed.

Lemma alias_from_pop x0 q qs x :
  (forall n, In n qs <-> assigns_to root x0 n /\ n <> x0) ->
  alias_from root (x0 :: q) x <-> x = x0 \/ alias_from root (q ++ qs) x.
Proof.
  intros Hqs. unfold alias_from. split.
  - intros (s & [<- | Hin] & Ha).
    + destruct (alias_split _ _ Ha) as [-> | (s' & Hs' & Hne & Ha')];
        [now left|].
      right. exists s'. split; [|exact Ha'].
      apply in_or_app. right. now apply Hqs.
    + right. exists s. split; [|exact Ha]. apply in_or_app. now left.
  - intros [-> | (s & Hin & Ha)].
    + exists x0. split; [now left | apply alias_root].
    + apply in_app_or in Hin as [Hin | Hin].
      * exists s. split; [now right | exact Ha].
      * exists x0. split; [now left|].
        apply Hqs in Hin as [Hs _]. now apply alias_left with s.
Qed.

Lemma bfs_loop_returns fuel q ys :
  bfs_loop fuel (find_all_Assign root) q = Returned ys ->
  (forall n, In n (map snd ys) <->
             exists x, alias_from root q x /\ assigns_to root x n)
  /\ (forall x, alias_from root q x -> ~ unnamed_assign root x).
Proof.
  revert q ys. induction fuel as [|fuel IH]; intros q ys H.
  - destruct q; [|discriminate H]. injection H as <-.
    split.
    + intros n; split; [intros [] | intros (x & (s & [] & _) & _)].
    + intros x (s & [] & _).
  - destruct q as [|x0 q]; simpl in H.
    { injection H as <-. split.
      + intros n; split; [intros [] | intros (x & (s & [] & _) & _)].
      + intros x (s & [] & _). }
    destruct (scan_assigns (find_all_Assign root) x0) as [e | [ys0 qs]] eqn:Hs;
      [discriminate H|].
    destruct (bfs_loop fuel (find_all_Assign root) (q ++ qs)) as [more| |] eqn:Hb;
      try discriminate H.
    injection H as <-.
    destruct (scan_assigns_returns _ _ _ _ Hs) as (S1 & S2 & S3).
    destruct (IH _ _ Hb) as (I1 & I2).
    pose proof (alias_from_pop x0 q qs) as Hpop.
    split.
    + intros n. rewrite map_app, in_app_iff, S1, I1. split.
      * intros [Hn | (x & Hx & Hn)].
        -- exists x0. split; [|exact Hn]. apply Hpop; auto.
        -- exists x. split; [|exact Hn]. apply Hpop; auto.
      * intros (x & Hx & Hn). apply Hpop in Hx as [-> | Hx]; eauto.
    + intros x Hx. apply Hpop in Hx as [-> | Hx]; auto.
Qed.

Lemma bfs_loop_raises fuel q e :
  bfs_loop fuel (find_all_Assign root) q = Raised e ->
  e = AssertionError
  /\ exists x, alias_from root q x /\ unnamed_assign root x.
Proof.
  revert q. induction fuel as [|fuel IH]; intros q H.
  - destruct q; discriminate H.
  - destruct q as [|x0 q]; simpl in H; [discriminate H|].
    destruct (scan_assigns (find_all_Assign root) x0) as [e0 | [ys0 qs]] eqn:Hs.
    + injection H as ->.
      destruct (scan_assigns_raises _ _ _ Hs) as [-> Hbad].
      split; [reflexivity|]. exists x0. split; [|exact Hbad].
      exists x0. split; [now left | apply alias_root].
    + destruct (bfs_loop fuel (find_all_Assign root) (q ++ qs)) as [more|e'|] eqn:Hb;
        try discriminate H.
      injection H as ->.
      destruct (scan_assigns_returns _ _ _ _ Hs) as (S1 & S2 & S3).
      destruct (IH _ Hb) as (-> & x & Hx & Hbad).
      split; [reflexivity|]. exists x. split; [|exact Hbad].
      apply (alias_from_pop x0 q qs); auto.
Qed.

Lemma alias_from_single v x : alias_from root [v] x <-> alias root v x.
Proof.
  unfold alias_from. split.
  - intros (s & [<- | []] & Ha). exact Ha.
  - intros Ha. exists v. split; [now left | exact Ha].
Qed.

(** Stage 1 run to exhaustion yields exactly the aliases. *)
Lemma var_or_elems_returns fuel v l :
  _iter_nodes_assign_var_or_elems fuel root v = Returned l ->
  (forall n, In n (map snd l) <-> alias root v n)
  /\ (forall x, alias root v x -> ~ unnamed_assign root x).
Proof.
  unfold _iter_nodes_assign_var_or_elems.
  destruct (bfs_loop fuel (find_all_Assign root) [v]) as [more| |] eqn:Hb;
    try discriminate.
  intros [= <-]. destruct (bfs_loop_returns _ _ _ Hb) as (B1 & B2).
  split.
  - intros n. simpl. rewrite B1. split.
    + intros [<- | (x & Hx & Hn)]; [apply alias_root|].
      apply alias_assign with x; [now apply alias_from_single | exact Hn].
    + intros Ha. destruct Ha as [|a n Ha Hn]; [now left|].
      right. exists a. split; [now apply alias_from_single | exact Hn].
  - intros x Hx. apply B2. now apply alias_from_single.
Qed.

Lemma var_or_elems_raises fuel v e :
  _iter_nodes_assign_var_or_elems fuel root v = Raised e ->
  exists x, alias root v x /\ unnamed_assign root x.
Proof.
  unfold _iter_nodes_assign_var_or_elems.
  destruct (bfs_loop fuel (find_all_Assign root) [v]) as [more|e'|] eqn:Hb;
    try discriminate.
  intros _. destruct (bfs_loop_raises _ _ _ Hb) as (_ & x & Hx & Hbad).
  exists x. split; [now apply alias_from_single | exact Hbad].
Qed.

(** *** The two loop searches *)

Lemma loop_over_ext (P Q : string -> Prop) key loop :
  (forall v, P v <-> Q v) -> loop_over P key loop <-> loop_over Q key loop.
Proof.
  intros HPQ. unfold loop_over. split;
    intros (t & i & b & e & ts & r & -> & v & Hv & Ha);
    exists t, i, b, e, ts, r; (split; [reflexivity|]);
    exists v; (split; [now apply HPQ | exact Ha]).
Qed.

Lemma loop_match_spec loop vs key :
  match loop_match loop vs key with
  | inr None => ~ loop_over (fun v => In v vs) key loop
  | inr (Some (l, m)) =>
      l = loop /\ loop_over (fun v => In v vs) key loop /\ targets loop (Some m)
  | inl e =>
      e = AssertionError
      /\ loop_over (fun v => In v vs) key loop /\ targets loop None
  end.
Proof.
  destruct loop as [| |? ? ?|? ? ?|? ? ?|? ? ?|? ? ?|? ?|t i b e ts r|?];
    simpl; try (intros (? & ? & ? & ? & ? & ? & [=] & _)).
  destruct (existsb _ vs) eqn:Hex.
  - apply existsb_exists in Hex as (v & Hin & Ha).
    assert (Hover : loop_over (fun v => In v vs) key (For t i b e ts r)).
    { exists t, i, b, e, ts, r. split; [reflexivity|]. now exists v. }
    destruct t; try (split; [reflexivity|]; split; [exact Hover|];
                     eexists; split; reflexivity).
  - intros (t' & i' & b' & e' & ts' & r' & [= <- <- <- <- <- <-] & v & Hin & Ha).
    assert (existsb (fun v => _is_var_or_elems_access i v key) vs = true)
      by (apply existsb_exists; now exists v).
    congruence.
Qed.

Lemma targets_functional loop r1 r2 :
  targets loop r1 -> targets loop r2 -> r1 = r2.
Proof. intros (t & H1 & <-) (t' & H2 & <-). congruence. Qed.

Lemma scan_loops_returns loops vs key ys :
  scan_loops loops vs key = inr ys ->
  (forall m, In m (map snd ys) <->
     exists loop, In loop loops
       /\ loop_over (fun v => In v vs) key loop /\ targets loop (Some m))
  /\ ~ (exists loop, In loop loops
          /\ loop_over (fun v => In v vs) key loop /\ targets loop None).
Proof.
  revert ys. induction loops as [|loop loops IH]; intros ys H; simpl in H.
  - injection H as <-. split.
    + intros m; split; [intros [] | intros (? & [] & _)].
    + intros (? & [] & _).
  - pose proof (loop_match_spec loop vs key) as Hm.
    destruct (loop_match loop vs key) as [e | y]; [discriminate H|].
    destruct (scan_loops loops vs key) as [e | ys'] eqn:Hs; [discriminate H|].
    injection H as <-. destruct (IH _ eq_refl) as (I1 & I2).
    destruct y as [[l m0]|].
    + destruct Hm as (-> & Hover & Ht). split.
      * intros m. simpl. rewrite I1. split.
        -- intros [<- | (l & Hin & Ho & Hl)];
             [exists loop; split; [now left | auto]
             |exists l; split; [now right | auto]].
        -- intros (l & [<- | Hin] & Ho & Hl).
           ++ left. pose proof (targets_functional _ _ _ Ht Hl). congruence.
           ++ right. eauto.
      * intros (l & [<- | Hin] & Ho & Hl).
        -- pose proof (targets_functional _ _ _ Ht Hl). discriminate.
        -- apply I2. eauto.
    + split.
      * intros m. rewrite I1. split.
        -- intros (l & Hin & Ho & Hl). exists l. split; [now right | auto].
        -- intros (l & [<- | Hin] & Ho & Hl); [contradiction | eauto].
      * intros (l & [<- | Hin] & Ho & Hl); [contradiction | apply I2; eauto].
Qed.

Lemma scan_loops_raises loops vs key e :
  scan_loops loops vs key = inl e ->
  exists loop, In loop loops
    /\ loop_over (fun v => In v vs) key loop /\ targets loop None.
Proof.
  induction loops as [|loop loops IH]; intros H; simpl in H; [discriminate H|].
  pose proof (loop_match_spec loop vs key) as Hm.
  destruct (loop_match loop vs key) as [e' | y].
  - destruct Hm as (_ & Ho & Ht). exists loop. split; [now left | auto].
  - destruct (scan_loops loops vs key) as [e' | ys'] eqn:Hs; [|discriminate H].
    destruct (IH H) as (l & Hin & Ho & Ht).
    exists l. split; [now right | auto].
Qed.

Lemma first_loop_spec loops vs key :
  match first_loop loops vs key with
  | inr None => forall l, In l loops -> ~ loop_over (fun v => In v vs) key l
  | inr (Some (l, m)) => first_match loops vs key (Some m)
  | inl e => first_match loops vs key None
  end.
Proof.
  induction loops as [|loop loops IH]; simpl; [intros l []|].
  pose proof (loop_match_spec loop vs key) as Hm.
  destruct (loop_match loop vs key) as [e | [[l m]|]].
  - destruct Hm as (_ & Ho & Ht). exists [], loop, loops. simpl. auto.
  - destruct Hm as (_ & Ho & Ht). exists [], loop, loops. simpl. auto.
  - assert (Hshift : forall r, first_match loops vs key r ->
                               first_match (loop :: loops) vs key r).
    { intros r (before & l & after & -> & Hb & Ho & Ht).
      exists (loop :: before), l, after. split; [reflexivity|].
      split; [|auto]. intros l' [<- | Hin]; auto. }
    destruct (first_loop loops vs key) as [e | [[l m]|]]; auto.
    intros l [<- | Hin]; auto.
Qed.

Lemma first_match_functional loops vs key r1 r2 :
  first_match loops vs key r1 -> first_match loops vs key r2 -> r1 = r2.
Proof.
  revert r1 r2. induction loops as [|loop loops IH]; intros r1 r2.
  - intros (b & l & a & E & _). destruct b; discriminate E.
  - intros (b1 & l1 & a1 & E1 & N1 & O1 & T1) (b2 & l2 & a2 & E2 & N2 & O2 & T2).
    destruct b1 as [|x1 b1], b2 as [|x2 b2]; simpl in *.
    + injection E1 as <- <-. injection E2 as <- <-.
      apply (targets_functional _ _ _ T1 T2).
    + injection E1 as <- <-. injection E2 as <- ->.
      exfalso. apply (N2 loop); [now left | exact O1].
    + injection E1 as <- ->. injection E2 as <- <-.
      exfalso. apply (N1 loop); [now left | exact O2].
    + injection E1 as <- ->. injection E2 as <- E2.
      apply IH.
      * exists b1, l1, a1. split; [reflexivity|]. split; [|auto].
        intros l Hin. apply N1. now right.
      * exists b2, l2, a2. split; [exact E2|]. split; [|auto].
        intros l Hin. apply N2. now right.
Qed.

Lemma first_match_in loops vs key r :
  first_match loops vs key r ->
  exists l, In l loops /\ loop_over (fun v => In v vs) key l.
Proof.
  intros (b & l & a & -> & _ & Ho & _). exists l. split; [|exact Ho].
  apply in_or_app. right. now left.
Qed.

Lemma message_var_targets m :
  message_var root m <->
  exists loop, In loop (find_all_For root)
    /\ loop_over (alias root "messages") None loop /\ targets loop (Some m).
Proof.
  unfold message_var, targets. split.
  - intros (loop & t & Hin & Ho & Ht & Hn). exists loop. eauto.
  - intros (loop & Hin & Ho & t & Ht & Hn). exists loop, t. auto.
Qed.

Lemma stage3_first_match vs :
  (forall v, In v vs <-> message_var root v) ->
  stage3_raises root <->
  first_match (find_all_For root) vs (Some "content") None.
Proof.
  intros Hvs. unfold stage3_raises, first_match, targets. split.
  - intros (b & l & a & t & E & Hb & Ho & Ht & Hn).
    exists b, l, a. split; [exact E|]. split; [|split; [|eauto]].
    + intros l' Hin Ho'. apply (Hb l' Hin).
      now apply (loop_over_ext _ _ _ _ Hvs).
    + now apply (loop_over_ext _ _ _ _ Hvs).
  - intros (b & l & a & E & Hb & Ho & t & Ht & Hn).
    exists b, l, a, t. split; [exact E|]. split; [|split; [|auto]].
    + intros l' Hin Ho'. apply (Hb l' Hin).
      now apply (loop_over_ext _ _ _ _ Hvs).
    + now apply (loop_over_ext _ _ _ _ Hvs).
Qed.

(** What [next] on the stage-3 generator gives, whenever it gives
    anything. *)
Lemma next_content_item_spec fuel :
  match next_iter_nodes_assign_content_item fuel root with
  | Unfinished => True
  | Raised e => analysis_raises root
  | Returned (Some _) =>
      ~ analysis_raises root /\ exists loop, content_loop root loop
  | Returned None =>
      ~ analysis_raises root /\ ~ exists loop, content_loop root loop
  end.
Proof.
  unfold next_iter_nodes_assign_content_item, _iter_nodes_assign_messages_item.
  destruct (_iter_nodes_assign_var_or_elems fuel root "messages")
    as [l|e|] eqn:H1; [| |exact I].
  2:{ left. exact (var_or_elems_raises _ _ _ H1). }
  destruct (var_or_elems_returns _ _ _ H1) as (A1 & A2).
  assert (N1 : ~ stage1_raises root).
  { intros (a & Ha & Hb). exact (A2 a Ha Hb). }
  destruct (scan_loops (find_all_For root) (map snd l) None) as [e|ys] eqn:H2.
  { right; left. destruct (scan_loops_raises _ _ _ _ H2) as (loop & Hin & Ho & t & Ht & Hn).
    exists loop, t. split; [exact Hin|]. split; [|auto].
    now apply (loop_over_ext _ _ _ _ A1). }
  destruct (scan_loops_returns _ _ _ _ H2) as (M1 & M2).
  assert (HM : forall m, In m (map snd ys) <-> message_var root m).
  { intros m. rewrite M1, message_var_targets. split;
      intros (loop & Hin & Ho & Ht); exists loop;
      (split; [exact Hin|]); (split; [|exact Ht]);
      now apply (loop_over_ext _ _ _ _ A1). }
  assert (N2 : ~ stage2_raises root).
  { intros (loop & t & Hin & Ho & Ht & Hn). apply M2.
    exists loop. split; [exact Hin|]. split; [|exists t; auto].
    now apply (loop_over_ext _ _ _ _ A1). }
  pose proof (first_loop_spec (find_all_For root) (map snd ys) (Some "content"))
    as H3.
  pose proof (stage3_first_match _ HM) as S3.
  destruct (first_loop (find_all_For root) (map snd ys) (Some "content"))
    as [e|[[loop m]|]].
  - right; right. now apply S3.
  - split.
    + intros [R | [R | R]]; [exact (N1 R) | exact (N2 R) |].
      apply S3 in R.
      pose proof (first_match_functional _ _ _ _ _ H3 R). discriminate.
    + destruct (first_match_in _ _ _ _ H3) as (l' & Hin & Ho).
      exists l'. split; [exact Hin|]. now apply (loop_over_ext _ _ _ _ HM).
  - split.
    + intros [R | [R | R]]; [exact (N1 R) | exact (N2 R) |].
      apply S3 in R. destruct (first_match_in _ _ _ _ R) as (l' & Hin & Ho).
      exact (H3 l' Hin Ho).
    + intros (l' & Hin & Ho). apply (H3 l' Hin).
      now apply (loop_over_ext _ _ _ _ HM).
Qed.

End Traversal.

(** *** Fuel *)

Section Termination.

Variable root : Node.

(** A rank that every assignment to another name lowers: the alias graph
    has no cycle but names assigned from themselves. *)
Variable rank : string -> nat.
Hypothesis rank_decreases :
  forall x n, assigns_to root x n -> n <> x -> rank n < rank x.

Lemma weight_app q1 q2 :
  weight root rank (q1 ++ q2) = weight root rank q1 + weight root rank q2.
Proof. induction q1 as [|x q1 IH]; simpl; [reflexivity | rewrite IH; lia]. Qed.

Lemma scan_assigns_queue_length assigns x ys qs :
  scan_assigns assigns x = inr (ys, qs) -> length qs <= length assigns.
Proof.
  revert ys qs. induction assigns as [|a assigns IH]; intros ys qs H; simpl in H.
  - injection H as <- <-. simpl. lia.
  - assert (Hrec : scan_assigns assigns x = inr (ys, qs) ->
                   length qs <= length (a :: assigns)).
    { intros Hs. apply IH in Hs. simpl. lia. }
    destruct a as [| |? ? ?|? ? ?|? ? ?|? ? ?|? ? ?|lhs rhs|? ? ? ? ? ?|?];
      try (apply Hrec; exact H).
    destruct (_is_var_or_elems_access rhs x None); [|apply Hrec; exact H].
    destruct lhs as [nm ctx| | | | | | | | |]; try discriminate H.
    destruct (scan_assigns assigns x) as [e | [ys' qs']] eqn:Hs;
      [discriminate H|].
    injection H as <- <-. specialize (IH _ _ eq_refl).
    destruct (String.eqb nm x); simpl; lia.
Qed.

Lemma pow_pos n : 0 < S (assign_count root) ^ n.
Proof. induction n; simpl; lia. Qed.

Lemma weight_below r qs :
  (forall n, In n qs -> rank n < r) ->
  weight root rank qs <= length qs * S (assign_count root) ^ (r - 1).
Proof.
  induction qs as [|n qs IH]; intros Hr; simpl; [lia|].
  assert (Hn : rank n < r) by (apply Hr; now left).
  assert (S (assign_count root) ^ rank n <= S (assign_count root) ^ (r - 1))
    by (apply Nat.pow_le_mono_r; lia).
  specialize (IH (fun m Hm => Hr m (or_intror Hm))). lia.
Qed.

Lemma weight_pushed x qs :
  (forall n, In n qs -> rank n < rank x) ->
  length qs <= assign_count root ->
  weight root rank qs < S (assign_count root) ^ rank x.
Proof.
  intros Hr Hlen. destruct qs as [|n qs]; [simpl; apply pow_pos|].
  assert (Hx : rank n < rank x) by (apply Hr; now left).
  pose proof (weight_below (rank x) (n :: qs) Hr) as Hw.
  destruct (rank x) as [|r]; [lia|].
  replace (S r - 1) with r in Hw by lia.
  rewrite Nat.pow_succ_r'. pose proof (pow_pos r).
  assert (length (n :: qs) * S (assign_count root) ^ r
          <= assign_count root * S (assign_count root) ^ r)
    by (apply Nat.mul_le_mono_r; exact Hlen).
  lia.
Qed.

Lemma bfs_loop_finishes fuel q :
  weight root rank q <= fuel ->
  bfs_loop fuel (find_all_Assign root) q <> Unfinished.
Proof.
  revert q. induction fuel as [|fuel IH]; intros q Hw.
  - destruct q as [|x q]; [discriminate|].
    simpl in Hw. pose proof (pow_pos (rank x)). lia.
  - destruct q as [|x q]; [discriminate|]. simpl.
    destruct (scan_assigns (find_all_Assign root) x) as [e | [ys qs]] eqn:Hs;
      [discriminate|].
    destruct (scan_assigns_returns _ _ _ _ Hs) as (_ & S2 & _).
    assert (Hlt : weight root rank qs < S (assign_count root) ^ rank x).
    { apply weight_pushed.
      - intros n Hn. apply S2 in Hn as [Hstep Hne].
        now apply rank_decreases.
      - exact (scan_assigns_queue_length _ _ _ _ Hs). }
    specialize (IH (q ++ qs)). rewrite weight_app in IH. simpl in Hw.
    destruct (bfs_loop fuel (find_all_Assign root) (q ++ qs));
      try discriminate.
    apply IH. lia.
Qed.

(** When the alias graph has no cycle but names assigned from themselves,
    the alias traversal finishes, and so does the classification. *)
Theorem alias_bfs_terminates_without_cycles (varname : string) :
  exists fuel,
    _iter_nodes_assign_var_or_elems fuel root varname <> Unfinished.
Proof.
  exists (weight root rank [varname]). unfold _iter_nodes_assign_var_or_elems.
  pose proof (bfs_loop_finishes (weight root rank [varname]) [varname] (le_n _)) as H.
  destruct (bfs_loop _ _ [varname]); [discriminate | discriminate | now elim H].
Qed.

End Termination.

Lemma alias_bfs_terminates_without_cycles_witness :
  exists fuel,
    _iter_nodes_assign_var_or_elems fuel one_alias_ast "messages" <> Unfinished.
Proof.
  apply (alias_bfs_terminates_without_cycles one_alias_ast
           (fun x => if String.eqb x "messages" then 1 else 0)).
  intros x n (lhs & rhs & Hin & Hacc & Hname) Hne.
  destruct Hin as [[= <- <-] | []].
  injection Hname as <-.
  cbv [_is_var_or_elems_access access_base _is_var_access] in Hacc.
  apply andb_true_iff in Hacc as [_ Hacc].
  apply String.eqb_eq in Hacc. subst x. simpl. lia.
Defined.

Lemma bfs_loop_more_fuel assigns fuel fuel' q :
  fuel <= fuel' ->
  bfs_loop fuel assigns q <> Unfinished ->
  bfs_loop fuel' assigns q = bfs_loop fuel assigns q.
Proof.
  revert fuel' q. induction fuel as [|fuel IH]; intros fuel' q Hle H.
  - destruct q; [|now elim H]. destruct fuel'; reflexivity.
  - destruct fuel' as [|fuel']; [lia|].
    destruct q as [|x0 q]; [reflexivity|]. simpl in *.
    destruct (scan_assigns assigns x0) as [e | [ys qs]]; [reflexivity|].
    rewrite (IH fuel' (q ++ qs)); [reflexivity | lia |].
    intros E. rewrite E in H. now elim H.
Qed.

(** The queue of [mutual_alias_ast] never empties. *)
Lemma mutual_alias_queue fuel :
  bfs_loop fuel (find_all_Assign mutual_alias_ast) ["messages"] = Unfinished
  /\ bfs_loop fuel (find_all_Assign mutual_alias_ast) ["a"] = Unfinished.
Proof.
  induction fuel as [|fuel [IH1 IH2]]; [split; reflexivity|].
  split.
  - change (match bfs_loop fuel (find_all_Assign mutual_alias_ast) ["a"] with
            | Returned more =>
                Returned ([(Assign (Name "a" "store") (Name "messages" "load"),
                            "a")] ++ more)
            | Raised e => Raised e
            | Unfinished => Unfinished
            end = Unfinished).
    now rewrite IH2.
  - change (match bfs_loop fuel (find_all_Assign mutual_alias_ast) ["messages"] with
            | Returned more =>
                Returned ([(Assign (Name "messages" "store") (Name "a" "load"),
                            "messages")] ++ more)
            | Raised e => Raised e
            | Unfinished => Unfinished
            end = Unfinished).
    now rewrite IH1.
Qed.

(** C8 (code defect).  On the tree of
    [{% set a = messages %}{% set messages = a %}] the alias traversal never
    exhausts its queue: whatever number of [popleft] steps it is allowed,
    the traversal has not finished, and neither has the classification
    that consumes it.  The guard [lhs.name != related_varname] only stops
    a name assigned from itself. *)
Theorem alias_bfs_diverges_on_mutual_assignment :
  forall fuel,
    _iter_nodes_assign_var_or_elems fuel mutual_alias_ast "messages"
      = Unfinished
    /\ detect_on_ast fuel (Some mutual_alias_ast) fmt_string = Unfinished.
Proof.
  intros fuel.
  assert (H : _iter_nodes_assign_var_or_elems fuel mutual_alias_ast "messages"
              = Unfinished).
  { unfold _iter_nodes_assign_var_or_elems.
    now rewrite (proj1 (mutual_alias_queue fuel)). }
  split; [exact H|].
  unfold detect_on_ast, next_iter_nodes_assign_content_item,
    _iter_nodes_assign_messages_item.
  now rewrite H.
Qed.

(** The guard does its job on a name assigned from itself:
    [{% set messages = messages[1:] %}] is traversed in one step. *)
Example self_assignment_terminates :
  _iter_nodes_assign_var_or_elems 1
    (Other [Assign (Name "messages" "store")
              (Getitem (Name "messages" "load")
                 (Slice (Some (Const (CNum 1))) None None) "load")])
    "messages"
  <> Unfinished.
Proof. vm_compute. discriminate. Qed.

Section Classification.

Variable _try_extract_ast : string -> option Node.

(** C1 (amended).  When no tree can be obtained the default is returned.
    When a tree is obtained and the traversal finishes: if the traversal
    raises (a matched assignment or loop has a target that is not a plain
    name) the default is returned; otherwise the result is "openai"
    exactly when the tree has a loop over an access to the "content" of a
    message variable, written on the variable itself, and "string"
    exactly when it has none.  Such a loop is a stage-3 loop of the
    specification, which also counts the loops over an alias of the
    content; those the code does not look for. *)
Theorem detect_content_format_classification
    (fuel : nat) (chat_template : string)
    (default : _ChatTemplateContentFormat) :
  let result := _detect_content_format _try_extract_ast fuel chat_template default in
  (_try_extract_ast chat_template = None -> result = Returned default)
  /\ (forall ast,
        _try_extract_ast chat_template = Some ast ->
        result <> Unfinished ->
        (analysis_raises ast -> result = Returned default)
        /\ (~ analysis_raises ast ->
            (result = Returned fmt_openai <-> exists loop, content_loop ast loop)
            /\ (result = Returned fmt_string <->
                  ~ exists loop, content_loop ast loop)
            /\ (result = Returned fmt_openai ->
                exists loop, spec_content_loop ast loop)))
  /\ (forall ast loop, content_loop ast loop -> spec_content_loop ast loop).
Proof.
  intros result. subst result. unfold _detect_content_format.
  assert (Hsound : forall ast loop,
            content_loop ast loop -> spec_content_loop ast loop).
  { intros ast loop [Hin Hover]. split; [exact Hin | now left]. }
  split; [intros ->; reflexivity|]. split; [|exact Hsound].
  intros ast -> Hfin. unfold detect_on_ast in *.
  pose proof (next_content_item_spec ast fuel) as Hspec.
  destruct (next_iter_nodes_assign_content_item fuel ast) as [[p|]|e|].
  - destruct Hspec as [Hno Hex]. split; [intros R; now elim Hno|].
    intros _. split; [|split].
    + split; intros H; solve [congruence | tauto].
    + split; intros H; solve [congruence | tauto].
    + intros _. destruct Hex as (loop & Hloop). exists loop.
      now apply Hsound.
  - destruct Hspec as [Hno Hex]. split; [intros R; now elim Hno|].
    intros _. split; [|split].
    + split; intros H; solve [congruence | tauto].
    + split; intros H; solve [congruence | tauto].
    + discriminate.
  - split; [reflexivity|]. intros Hn. now elim Hn.
  - now elim Hfin.
Qed.

End Classification.

Lemma detect_content_format_classification_witness :
  ~ analysis_raises structured_ast
  /\ exists loop, content_loop structured_ast loop.
Proof.
  destruct (detect_content_format_classification
              (fun _ => Some structured_ast) 1
              "{% for message in messages %}{% for part in message.content %}{{ part.text }}{% endfor %}{% endfor %}"
              fmt_string) as [_ [H _]].
  destruct (H structured_ast eq_refl) as [Hraise Hok].
  { vm_compute. discriminate. }
  assert (Hno : ~ analysis_raises structured_ast).
  { intros R. specialize (Hraise R). vm_compute in Hraise. discriminate. }
  split; [exact Hno|].
  apply (proj1 (Hok Hno)). vm_compute. reflexivity.
Defined.

Lemma content_alias_ast_has_spec_loop :
  spec_content_loop content_alias_ast
    (For (Name "part" "store") (Name "parts" "load")
       [Other [Getattr (Name "part" "load") "text" "load"]] [] None false).
Proof.
  split; [right; left; reflexivity|]. right.
  do 6 eexists. split; [reflexivity|].
  exists "parts". split; [|reflexivity].
  apply (content_alias_first content_alias_ast "message" "parts").
  - eexists. exists (Name "message" "store").
    split; [left; reflexivity|]. split; [|split; reflexivity].
    do 6 eexists. split; [reflexivity|].
    exists "messages". split; [constructor | reflexivity].
  - exists (Name "parts" "store"),
      (Getattr (Name "message" "load") "content" "load").
    split; [left; reflexivity|]. split; reflexivity.
Qed.

(** C1 as stated fails in two ways.  The tree of
    [{% set a, b = messages %}] parses, has no stage-3 loop, and is
    classified by the caller's default, here "openai", not "string".  The
    tree of
    [{% for message in messages %}{% set parts = message.content %}{% for part in parts %}...]
    has a stage-3 loop, a loop over the alias [parts] of the content of
    the message variable, and is classified "string" whatever the
    default: the code follows no assignment from the content. *)
Lemma detect_content_format_not_as_specified :
  ((~ exists loop, spec_content_loop tuple_assign_ast loop)
   /\ (forall fuel,
         _detect_content_format (fun _ => Some tuple_assign_ast) (S fuel)
           "{% set a, b = messages %}" fmt_openai
         = Returned fmt_openai)
   /\ Returned fmt_openai <> Returned fmt_string)
  /\ ((exists loop, spec_content_loop content_alias_ast loop)
      /\ (forall fuel default,
            _detect_content_format (fun _ => Some content_alias_ast) (S fuel)
              "{% for message in messages %}{% set parts = message.content %}{% for part in parts %}{{ part.text }}{% endfor %}{% endfor %}"
              default
            = Returned fmt_string)
      /\ Returned fmt_string <> Returned fmt_openai).
Proof.
  split; split; [| split | | split].
  - intros (loop & Hin & _). exact Hin.
  - intros fuel. reflexivity.
  - discriminate.
  - eexists. apply content_alias_ast_has_spec_loop.
  - intros [|fuel] default; reflexivity.
  - discriminate.
Qed.

End AnalyzerFacts.

Module TrackerFacts.
Import Tracker.

Section Add.

Variable cfg : TrackerConfig.
Context {T : Type}.

(** The placeholder catalog fails with a [TypeError] only. *)
Lemma _placeholder_str_raises modality current_count e :
  _placeholder_str cfg modality current_count = inl e ->
  exists msg, e = TypeError msg.
Proof.
  unfold _placeholder_str.
  repeat match goal with
         | |- context [if ?b then _ else _] => destruct b
         end; intros [= <-]; eauto.
Qed.

Lemma _placeholder_str_not_limit modality current_count e :
  _placeholder_str cfg modality current_count = inl e -> ~ LimitExceeded e.
Proof.
  intros H (a & m & ->). apply _placeholder_str_raises in H as (msg & [=]).
Qed.

(** [add], by the number of items already recorded. *)
Lemma add_unfold (items : gmap string (list T)) modality item :
  let allowed_count := default 1%Z (_allowed_items cfg !! modality) in
  let n := count_of items modality in
  add cfg items modality item =
    if (allowed_count <? Z.of_nat n + 1)%Z then
      ((defaultdict_getitem items modality).1,
       inl (limit_exceeded allowed_count modality))
    else
      (<[modality := default [] (items !! modality) ++ [item]]> items,
       _placeholder_str cfg modality (Z.of_nat n + 1)).
Proof.
  unfold add, count_of, defaultdict_getitem.
  destruct (items !! modality) as [l|]; simpl; [reflexivity|].
  destruct (_ <? _)%Z; [reflexivity|]. now rewrite insert_insert_eq.
Qed.

(** A rejected call appends nothing, under any modality. *)
Lemma add_rejected_items (items : gmap string (list T)) modality item e :
  (add cfg items modality item).2 = inl e -> LimitExceeded e ->
  forall m, default [] ((add cfg items modality item).1 !! m)
            = default [] (items !! m).
Proof.
  rewrite add_unfold. cbv zeta.
  destruct (_ <? _)%Z; simpl.
  - intros _ _ m. unfold defaultdict_getitem.
    destruct (items !! modality) as [l|] eqn:E; simpl; [reflexivity|].
    destruct (decide (modality = m)) as [<- | Hne].
    + now rewrite lookup_insert_eq, E.
    + now rewrite lookup_insert_ne.
  - intros H HL. now apply _placeholder_str_not_limit in H.
Qed.

(** A rejected call leaves the tracker as it was when the modality already
    has an entry. *)
Lemma add_rejected_present (items : gmap string (list T)) modality item e :
  is_Some (items !! modality) ->
  (add cfg items modality item).2 = inl e -> LimitExceeded e ->
  (add cfg items modality item).1 = items.
Proof.
  intros [l Hl]. rewrite add_unfold. cbv zeta.
  destruct (_ <? _)%Z; simpl.
  - intros _ _. unfold defaultdict_getitem. now rewrite Hl.
  - intros H HL. now apply _placeholder_str_not_limit in H.
Qed.

(** Repeated calls from a tracker that holds [n] items of the modality. *)
Lemma add_each_from (items : gmap string (list T)) modality (L : Z) xs :
  default 1%Z (_allowed_items cfg !! modality) = L ->
  let n := count_of items modality in
  let out := add_each cfg items modality xs in
  length out.2 = length xs
  /\ (forall k, (k < length xs)%nat ->
        out.2 !! k = Some
          (if (Z.of_nat (n + k) <? L)%Z
           then _placeholder_str cfg modality (Z.of_nat (n + k) + 1)
           else inl (limit_exceeded L modality)))
  /\ default [] (out.1 !! modality)
     = default [] (items !! modality) ++ take (Z.to_nat L - n) xs.
Proof.
  intros HL. revert items.
  induction xs as [|x xs IH]; intros items; cbv zeta.
  - simpl. split; [reflexivity|]. split; [intros k Hk; lia|].
    now rewrite take_nil, app_nil_r.
  - simpl. pose proof (add_unfold items modality x) as Hadd. cbv zeta in Hadd.
    rewrite HL in Hadd.
    destruct (add cfg items modality x) as [items1 r] eqn:Eadd.
    specialize (IH items1). cbv zeta in IH.
    destruct (add_each cfg items1 modality xs) as [items2 rs] eqn:Eeach.
    simpl in *. destruct IH as (IH1 & IH2 & IH3).
    destruct (L <? Z.of_nat (count_of items modality) + 1)%Z eqn:Hlt;
      injection Hadd as -> ->.
    + (* rejected: the count stays *)
      apply Z.ltb_lt in Hlt.
      assert (Hcnt : count_of (defaultdict_getitem items modality).1 modality
                     = count_of items modality).
      { unfold count_of, defaultdict_getitem.
        destruct (items !! modality) eqn:E; simpl; [now rewrite E|].
        now rewrite lookup_insert_eq. }
      assert (Hdef : default [] ((defaultdict_getitem items modality).1 !! modality)
                     = default [] (items !! modality)).
      { unfold defaultdict_getitem.
        destruct (items !! modality) eqn:E; simpl; [now rewrite E|].
        now rewrite lookup_insert_eq. }
      rewrite Hcnt in *. rewrite Hdef in IH3.
      split; [now rewrite IH1|]. split.
      * intros [|k] Hk; simpl.
        -- rewrite Nat.add_0_r.
           destruct (Z.ltb_spec (Z.of_nat (count_of items modality)) L);
             [lia | reflexivity].
        -- rewrite IH2 by lia.
           destruct (Z.ltb_spec (Z.of_nat (count_of items modality + k)) L);
             [lia|].
           destruct (Z.ltb_spec (Z.of_nat (count_of items modality + S k)) L);
             [lia | reflexivity].
      * rewrite IH3.
        replace (Z.to_nat L - count_of items modality)%nat with 0%nat by lia.
        reflexivity.
    + (* accepted: one more item *)
      apply Z.ltb_ge in Hlt.
      assert (Hcnt : count_of (<[modality := default [] (items !! modality) ++ [x]]> items)
                       modality = S (count_of items modality)).
      { unfold count_of. rewrite lookup_insert_eq. simpl.
        rewrite length_app. simpl. lia. }
      rewrite Hcnt in *. rewrite lookup_insert_eq in IH3. simpl in IH3.
      split; [now rewrite IH1|]. split.
      * intros [|k] Hk; simpl.
        -- rewrite Nat.add_0_r.
           destruct (Z.ltb_spec (Z.of_nat (count_of items modality)) L);
             [reflexivity | lia].
        -- rewrite IH2 by lia.
           replace (S (count_of items modality) + k)%nat
             with (count_of items modality + S k)%nat by lia.
           reflexivity.
      * rewrite IH3, <- app_assoc. f_equal.
        replace (Z.to_nat L - count_of items modality)%nat
          with (S (Z.to_nat L - S (count_of items modality)))%nat by lia.
        reflexivity.
Qed.

(** C2 (amended).  For a modality with limit [L] (1 when unspecified),
    calls number 1 to [L] of [add] on a fresh tracker pass the limit check,
    append their item and give what the placeholder catalog gives for the
    1-based count: the placeholder, or the catalog's [TypeError] for an
    unregistered (model family, modality) pair, never the limit failure.
    Call [L]+1 and every later call fail with the limit failure, and the
    items recorded are those of the first [L] calls. *)
Theorem add_respects_limit (modality : string) (L : Z) (xs : list T) :
  (0 <= L)%Z ->
  default 1%Z (_allowed_items cfg !! modality) = L ->
  let out := add_each cfg ∅ modality xs in
  (forall k, (k < length xs)%nat -> (Z.of_nat k < L)%Z ->
     out.2 !! k = Some (_placeholder_str cfg modality (Z.of_nat k + 1))
     /\ forall e, out.2 !! k = Some (inl e) -> ~ LimitExceeded e)
  /\ (forall k, (k < length xs)%nat -> (L <= Z.of_nat k)%Z ->
        out.2 !! k = Some (inl (limit_exceeded L modality)))
  /\ default [] (out.1 !! modality) = take (Z.to_nat L) xs.
Proof.
  intros HL0 HL. cbv zeta.
  destruct (add_each_from ∅ modality L xs HL) as (H1 & H2 & H3).
  assert (Hn : count_of (∅ : gmap string (list T)) modality = 0%nat).
  { unfold count_of. now rewrite lookup_empty. }
  rewrite Hn in *. simpl in H2.
  split; [|split].
  - intros k Hk HkL. specialize (H2 k Hk).
    destruct (Z.ltb_spec (Z.of_nat k) L); [|lia].
    split; [exact H2|]. intros e He. rewrite H2 in He. injection He as He.
    now apply _placeholder_str_not_limit in He.
  - intros k Hk HkL. specialize (H2 k Hk).
    destruct (Z.ltb_spec (Z.of_nat k) L); [lia | exact H2].
  - rewrite H3, lookup_empty, Nat.sub_0_r. reflexivity.
Qed.

End Add.

Lemma add_rejected_present_witness :
  let items : gmap string (list string) := {["image" := ["a"; "b"]]} in
  (add mllama_two_images items "image" "c").1 = items.
Proof.
  intros items.
  apply (add_rejected_present mllama_two_images items "image" "c"
           (limit_exceeded 2 "image")).
  - exists ["a"; "b"]. reflexivity.
  - reflexivity.
  - exists 2%Z, "image". reflexivity.
Defined.

Lemma add_respects_limit_witness :
  let out := add_each mllama_two_images ∅ "image" ["a"; "b"; "c"] in
  out.2 !! 1%nat = Some (inr (Some "<|image|>"))
  /\ out.2 !! 2%nat
     = Some (inl (ValueError "At most 2 image(s) may be provided in one request."))
  /\ default [] (out.1 !! "image") = ["a"; "b"].
Proof.
  destruct (add_respects_limit mllama_two_images "image" 2 ["a"; "b"; "c"])
    as (H1 & H2 & H3); [lia | reflexivity |].
  split; [|split].
  - exact (proj1 (H1 1%nat ltac:(simpl; lia) ltac:(lia))).
  - exact (H2 2%nat ltac:(simpl; lia) ltac:(lia)).
  - exact H3.
Defined.

(** C2 as stated fails: an audio-only model family with the default limit
    of one image.  The first call of [add] for an image is within the
    limit and appends the item, yet does not succeed: the catalog has no
    image placeholder for the family. *)
Lemma add_first_call_fails_unregistered :
  default 1%Z (_allowed_items ultravox_default_limits !! "image") = 1%Z
  /\ (add ultravox_default_limits ∅ "image" "img").2
     = inl (TypeError "Unknown image model type: ultravox")
  /\ (add ultravox_default_limits ∅ "image" "img").1 !! "image"
     = Some ["img"].
Proof. split; [|split]; reflexivity. Qed.

Section Finalize.

Context {A : Type}.

Lemma recorded_is_Some (items : gmap string (list A)) modality :
  recorded items modality -> is_Some (items !! modality).
Proof. intros (x & l & H). eauto. Qed.

Lemma build_mm_inputs_mixed (items : gmap string (list A)) :
  is_Some (items !! "image") -> is_Some (items !! "image_embeds") ->
  build_mm_inputs items
  = inl (ValueError "Mixing raw image and embedding inputs is not allowed").
Proof.
  intros Hi He. unfold build_mm_inputs.
  now rewrite !bool_decide_eq_true_2.
Qed.

Lemma nonempty_of_lookup {B : Type} (items : gmap string B) modality l :
  items !! modality = Some l -> bool_decide (items = ∅) = false.
Proof.
  intros H. apply bool_decide_eq_false_2. intros ->.
  now rewrite lookup_empty in H.
Qed.

(** The blocking tracker's [all_mm_data]. *)
Lemma all_mm_data_spec (items : gmap string (list A)) :
  (recorded items "image" -> recorded items "image_embeds" ->
     exists e, all_mm_data items = inl e /\ MixedModality e)
  /\ ((1 < count_of items "image_embeds")%nat ->
       exists e, all_mm_data items = inl e /\ MixedModality e)
  /\ (entries_nonempty items ->
       ~ (recorded items "image" /\ recorded items "image_embeds") ->
       (count_of items "image_embeds" <= 1)%nat ->
       (items = ∅ -> all_mm_data items = inr None)
       /\ (items <> ∅ ->
           exists mm_inputs,
             all_mm_data items = inr (Some mm_inputs)
             /\ mm_inputs !! "image"
                = match items !! "image_embeds" with
                  | Some (x :: _) => Some (Single x)
                  | _ => Items <$> items !! "image"
                  end
             /\ mm_inputs !! "audio" = Items <$> items !! "audio"
             /\ mm_inputs !! "video" = Items <$> items !! "video"
             /\ forall k, k <> "image" -> k <> "audio" -> k <> "video" ->
                          mm_inputs !! k = None)).
Proof.
  split; [|split].
  - intros Hi He. eexists. split; [|left; reflexivity].
    unfold all_mm_data. destruct Hi as (x & l & Hi).
    rewrite (nonempty_of_lookup _ _ _ Hi).
    apply build_mm_inputs_mixed; [rewrite Hi; eauto | now apply recorded_is_Some].
  - intros Hc. unfold count_of in Hc.
    destruct (items !! "image_embeds") as [l|] eqn:He; simpl in Hc; [|lia].
    unfold all_mm_data. rewrite (nonempty_of_lookup _ _ _ He).
    unfold build_mm_inputs. rewrite He.
    destruct (items !! "image") as [li|].
    + rewrite !bool_decide_eq_true_2 by eauto.
      eexists. split; [reflexivity | now left].
    + rewrite (bool_decide_eq_false_2 (is_Some None)) by (intros [? [=]]).
      rewrite andb_false_l.
      destruct (Nat.ltb_spec 1 (length l)); [|lia].
      eexists. split; [reflexivity | now right].
  - intros Hwf Hmix Hc. unfold all_mm_data. split.
    { intros ->. now rewrite bool_decide_eq_true_2. }
    intros Hne. rewrite bool_decide_eq_false_2 by exact Hne.
    unfold build_mm_inputs, count_of in *.
    destruct (items !! "image_embeds") as [[|x l]|] eqn:He.
    + now elim (Hwf _ _ He).
    + destruct (items !! "image") as [li|] eqn:Hi.
      { exfalso. apply Hmix. split; [|now exists x, l].
        destruct li as [|y li]; [now elim (Hwf _ _ Hi) | now exists y, li]. }
      rewrite bool_decide_eq_false_2 by (intros [? [=]]). simpl in *.
      destruct l; simpl in *; [|lia].
      eexists. split; [reflexivity|].
      destruct (items !! "audio"), (items !! "video"); simpl;
        repeat split; try (intros k H1 H2 H3);
        repeat first [rewrite lookup_insert_eq
                     |rewrite lookup_insert_ne by congruence
                     |rewrite lookup_empty]; reflexivity.
    + assert (bool_decide (is_Some (items !! "image"))
              && bool_decide (is_Some (@None (list A))) = false) as ->.
      { rewrite (bool_decide_eq_false_2 (is_Some None)) by (intros [? [=]]).
        apply andb_false_r. }
      eexists. split; [reflexivity|].
      destruct (items !! "image"), (items !! "audio"), (items !! "video"); simpl;
        repeat split; try (intros k H1 H2 H3);
        repeat first [rewrite lookup_insert_eq
                     |rewrite lookup_insert_ne by congruence
                     |rewrite lookup_empty]; reflexivity.
Qed.

Lemma gather_resolved (l : list A) : gather (map inr l) = inr l.
Proof. induction l as [|x l IH]; simpl; [reflexivity | now rewrite IH]. Qed.

Lemma gather_items_resolved (kvs : list (string * list A)) :
  gather_items (prod_map id (map inr) <$> kvs) = inr kvs.
Proof.
  induction kvs as [|[k l] kvs IH]; [reflexivity|].
  rewrite fmap_cons. cbn [gather_items prod_map fst snd id].
  now rewrite gather_resolved, IH.
Qed.

Lemma gather_raises (l : list (PyExc + A)) e :
  gather l = inl e -> In (inl e) l.
Proof.
  induction l as [|[e'|a] l IH]; simpl; [discriminate| |].
  - intros [= ->]. now left.
  - destruct (gather l); [|discriminate]. intros [= ->]. right. now apply IH.
Qed.

Lemma gather_returns (l : list (PyExc + A)) vs :
  gather l = inr vs -> l = map inr vs.
Proof.
  revert vs. induction l as [|[e'|a] l IH]; simpl; intros vs.
  - now intros [= <-].
  - discriminate.
  - destruct (gather l) as [|vs']; [discriminate|]. intros [= <-].
    simpl. now rewrite (IH vs' eq_refl).
Qed.

Lemma gather_items_raises (kvs : list (string * list (PyExc + A))) e :
  gather_items kvs = inl e -> exists k l, In (k, l) kvs /\ In (inl e) l.
Proof.
  induction kvs as [|[k l] kvs IH]; simpl; [discriminate|].
  destruct (gather l) as [e'|vs] eqn:Hg.
  - intros [= ->]. exists k, l. split; [now left | now apply gather_raises].
  - destruct (gather_items kvs); [|discriminate]. intros [= ->].
    destruct (IH eq_refl) as (k' & l' & Hin & He). exists k', l'. auto.
Qed.

Lemma gather_items_returns (kvs : list (string * list (PyExc + A))) out :
  gather_items kvs = inr out -> kvs = prod_map id (map inr) <$> out.
Proof.
  revert out. induction kvs as [|[k l] kvs IH]; simpl; intros out.
  - now intros [= <-].
  - destruct (gather l) as [e'|vs] eqn:Hg; [discriminate|].
    destruct (gather_items kvs) as [|out']; [discriminate|]. intros [= <-].
    rewrite fmap_cons. cbn [prod_map fst snd id].
    now rewrite (gather_returns _ _ Hg), (IH out' eq_refl).
Qed.

Lemma map_inr_inj (l1 l2 : list A) :
  map (@inr PyExc A) l1 = map inr l2 -> l1 = l2.
Proof.
  revert l2. induction l1 as [|x l1 IH]; intros [|y l2]; simpl;
    try discriminate; [reflexivity|].
  intros [= -> H]. now rewrite (IH _ H).
Qed.

(** When every pending item resolves, the concurrent tracker finalizes as
    the blocking tracker does on the resolved items. *)
Lemma async_all_mm_data_resolved (values : gmap string (list A)) :
  async_all_mm_data (map inr <$> values) = all_mm_data values.
Proof.
  unfold async_all_mm_data, all_mm_data.
  destruct (decide (values = ∅)) as [-> | Hne].
  { now rewrite fmap_empty, !bool_decide_eq_true_2. }
  rewrite (bool_decide_eq_false_2 (values = ∅)) by exact Hne.
  rewrite bool_decide_eq_false_2.
  2:{ intros H. apply Hne. now apply fmap_empty_inv in H. }
  match goal with
  | |- context [gather_items ?x] => destruct (gather_items x) as [e|kvs] eqn:Hg
  end.
  - apply gather_items_raises in Hg as (k & l & Hin & He).
    apply list_elem_of_In, elem_of_map_to_list in Hin.
    rewrite lookup_fmap in Hin.
    destruct (values !! k) as [vs|]; [|discriminate]. injection Hin as <-.
    apply in_map_iff in He as (? & [=] & _).
  - apply gather_items_returns in Hg.
    assert (Hmap : map (@inr PyExc A) <$> (list_to_map kvs : gmap string (list A))
                   = map inr <$> values).
    { rewrite <- list_to_map_fmap, <- Hg. apply list_to_map_to_list. }
    assert (Heq : (list_to_map kvs : gmap string (list A)) = values).
    { apply map_eq. intros k.
      assert (Hk := f_equal (fun m => m !! k) Hmap). simpl in Hk.
      rewrite !lookup_fmap in Hk.
      destruct (list_to_map kvs !! k) as [l1|], (values !! k) as [l2|];
        simpl in Hk; try discriminate; [|reflexivity].
      injection Hk as Hk. now rewrite (map_inr_inj _ _ Hk). }
    now rewrite Heq.
Qed.

(** When a pending item fails, so does the concurrent [all_mm_data], with
    the failure of a pending item. *)
Lemma async_all_mm_data_fetch_failure
    (pending : gmap string (list (PyExc + A))) modality l e :
  pending !! modality = Some l -> In (inl e) l ->
  exists e' modality' l',
    async_all_mm_data pending = inl e'
    /\ pending !! modality' = Some l' /\ In (inl e') l'.
Proof.
  intros Hl He. unfold async_all_mm_data.
  rewrite (nonempty_of_lookup _ _ _ Hl).
  destruct (gather_items (map_to_list pending)) as [e'|kvs] eqn:Hg.
  - destruct (gather_items_raises _ _ Hg) as (k & l' & Hin & He').
    exists e', k, l'. split; [reflexivity|]. split; [|exact He'].
    now apply elem_of_map_to_list, list_elem_of_In.
  - apply gather_items_returns in Hg.
    assert (Hin : In (modality, l) (map_to_list pending))
      by now apply list_elem_of_In, elem_of_map_to_list.
    rewrite Hg in Hin. apply in_map_iff in Hin as ([k vs] & [= _ <-] & _).
    apply in_map_iff in He as (? & [=] & _).
Qed.

(** C3 (amended).  The blocking [all_mm_data] fails with MixedModality
    when an image and an image embedding were both recorded, and when more
    than one image embedding was recorded; otherwise (for a tracker with no
    empty entry) it returns nothing for an empty tracker and else the
    mapping: "image" to the single embedding or to the image list, "audio"
    and "video" to their lists.  The concurrent [all_mm_data] does the
    same once every pending item has resolved; when a pending item fails
    it fails with the failure of a pending item instead. *)
Theorem all_mm_data_mixed_modality :
  (forall items : gmap string (list A),
     (recorded items "image" -> recorded items "image_embeds" ->
        exists e, all_mm_data items = inl e /\ MixedModality e)
     /\ ((1 < count_of items "image_embeds")%nat ->
          exists e, all_mm_data items = inl e /\ MixedModality e)
     /\ (entries_nonempty items ->
          ~ (recorded items "image" /\ recorded items "image_embeds") ->
          (count_of items "image_embeds" <= 1)%nat ->
          (items = ∅ -> all_mm_data items = inr None)
          /\ (items <> ∅ ->
              exists mm_inputs,
                all_mm_data items = inr (Some mm_inputs)
                /\ mm_inputs !! "image"
                   = match items !! "image_embeds" with
                     | Some (x :: _) => Some (Single x)
                     | _ => Items <$> items !! "image"
                     end
                /\ mm_inputs !! "audio" = Items <$> items !! "audio"
                /\ mm_inputs !! "video" = Items <$> items !! "video"
                /\ forall k, k <> "image" -> k <> "audio" -> k <> "video" ->
                             mm_inputs !! k = None)))
  /\ (forall values : gmap string (list A),
        async_all_mm_data (map inr <$> values) = all_mm_data values)
  /\ (forall (pending : gmap string (list (PyExc + A))) modality l e,
        pending !! modality = Some l -> In (inl e) l ->
        exists e' modality' l',
          async_all_mm_data pending = inl e'
          /\ pending !! modality' = Some l' /\ In (inl e') l').
Proof.
  split; [exact all_mm_data_spec|].
  split; [exact async_all_mm_data_resolved|].
  exact async_all_mm_data_fetch_failure.
Qed.

End Finalize.

Lemma all_mm_data_mixed_modality_witness :
  let items : gmap string (list string) :=
    <["image" := ["img"]]> (<["image_embeds" := ["emb"]]> ∅) in
  (exists e, all_mm_data items = inl e /\ MixedModality e)
  /\ async_all_mm_data (map inr <$> items) = all_mm_data items.
Proof.
  intros items.
  destruct (all_mm_data_mixed_modality (A:=string)) as (Hsync & Hasync & _).
  split; [|exact (Hasync items)].
  apply (proj1 (Hsync items)).
  - exists "img", []. reflexivity.
  - exists "emb", []. reflexivity.
Defined.

(** C3 as stated fails for the concurrent tracker: with an image whose
    fetch fails and an image embedding both recorded, [all_mm_data] fails
    with the fetch failure, not with MixedModality. *)
Lemma async_all_mm_data_fetch_failure_first :
  let pending : gmap string (list (PyExc + string)) :=
    <["image" := [inl (FetchError "timed out")]]>
      (<["image_embeds" := [inr "emb"]]> ∅) in
  recorded pending "image" /\ recorded pending "image_embeds"
  /\ async_all_mm_data pending = inl (FetchError "timed out")
  /\ ~ MixedModality (FetchError "timed out").
Proof.
  intros pending. split; [|split; [|split]].
  - eexists _, _. reflexivity.
  - eexists _, _. reflexivity.
  - reflexivity.
  - intros [H | H]; discriminate H.
Qed.

(** C10 (code defect).  With image embeddings limited to 0, [add] on a
    fresh tracker is rejected, yet the [defaultdict] lookup of the limit
    check has stored an empty entry: the tracker is no longer the fresh
    one, and [all_mm_data], which returned nothing before the call, now
    fails on [image_embeds_lst[0]]. *)
Theorem rejected_add_leaves_empty_entry :
  let fresh : gmap string (list string) := ∅ in
  let after := add no_embeds_allowed fresh "image_embeds" "emb" in
  after.2 = inl (limit_exceeded 0 "image_embeds")
  /\ after.1 = <["image_embeds" := []]> fresh
  /\ after.1 <> fresh
  /\ all_mm_data fresh = inr None
  /\ all_mm_data after.1 = inl (IndexError "list index out of range").
Proof.
  cbv zeta. split; [|split; [|split; [|split]]]; try reflexivity.
  intros H. apply (f_equal (fun m => m !! "image_embeds")) in H.
  vm_compute in H. discriminate H.
Qed.

End TrackerFacts.

Module BackfillFacts.
Import Backfill.

Lemma prefix_true sub s :
  String.prefix sub s = true -> exists post, s = sub +:+ post.
Proof.
  revert s. induction sub as [|c sub IH]; intros s H.
  - now exists s.
  - destruct s as [|d s]; [discriminate H|]. simpl in H.
    destruct (Ascii.ascii_dec c d) as [<- | Hne]; [|discriminate H].
    destruct (IH _ H) as (post & ->). now exists post.
Qed.

(** A string that does not occur is counted zero times. *)
Lemma str_count_absent s sub : ~ occurs_in sub s -> str_count s sub = 0%nat.
Proof.
  unfold str_count. induction s as [|c s IH]; intros Hno; cbn [count_from].
  - destruct (String.prefix sub "") eqn:Hp; [|reflexivity].
    exfalso. apply Hno. apply prefix_true in Hp as (post & ->).
    now exists "", post.
  - destruct (String.prefix sub (String c s)) eqn:Hp.
    + exfalso. apply Hno. apply prefix_true in Hp as (post & ->).
      now exists "", post.
    + apply IH. intros (pre & post & ->). apply Hno.
      now exists (String c pre), post.
Qed.

Lemma dict_get_set_ne {V : Type} (d : list (string * V)) k k' v :
  k <> k' -> dict_get (dict_set d k v) k' = dict_get d k'.
Proof.
  intros Hne. unfold dict_get.
  induction d as [|[k0 v0] d IH]; simpl.
  - destruct (String.eqb_spec k k'); [contradiction | reflexivity].
  - destruct (String.eqb_spec k0 k) as [-> | Hk0]; simpl.
    + destruct (String.eqb_spec k k'); [contradiction | reflexivity].
    + destruct (String.eqb_spec k0 k'); [reflexivity | exact IH].
Qed.

Lemma dict_get_in {V : Type} (d : list (string * V)) k v :
  List.NoDup (map fst d) -> In (k, v) d -> dict_get d k = Some v.
Proof.
  unfold dict_get. induction d as [|[k0 v0] d IH]; intros Hnd Hin; [easy|].
  simpl in *. apply List.NoDup_cons_iff in Hnd as [Hk0 Hnd'].
  destruct Hin as [[= -> ->] | Hin].
  - now rewrite String.eqb_refl.
  - destruct (String.eqb_spec k0 k) as [-> | Hne]; [|now apply IH].
    exfalso. apply Hk0. apply in_map_iff. now exists (k, v).
Qed.

(** The loop, over the entries still to visit. *)
Lemma backfill_loop_spec text kvs : forall d missing,
  List.NoDup (map fst kvs) ->
  (forall k v, In (k, v) kvs -> dict_get d k = Some v) ->
  ((exists kv, In kv kvs
      /\ (snd kv - Z.of_nat (str_count text (fst kv)) < 0)%Z) ->
     exists e, backfill_loop (map fst kvs) d text missing = inl e
               /\ PlaceholderAccounting e)
  /\ ((forall kv, In kv kvs ->
         (0 <= snd kv - Z.of_nat (str_count text (fst kv)))%Z) ->
      backfill_loop (map fst kvs) d text missing
      = inr (missing ++ flat_map (missing_copies text) kvs)).
Proof.
  induction kvs as [|[k v] kvs IH]; intros d missing Hnd Hd.
  - split; [intros (kv & [] & _)|]. intros _. simpl. now rewrite app_nil_r.
  - simpl. rewrite (Hd k v) by now left.
    simpl in Hnd. apply List.NoDup_cons_iff in Hnd as [Hk Hnd'].
    set (c := (v - Z.of_nat (str_count text k))%Z).
    assert (Hd' : forall k' v', In (k', v') kvs ->
                    dict_get (dict_set d k c) k' = Some v').
    { intros k' v' Hin. rewrite dict_get_set_ne; [apply Hd; now right|].
      intros ->. apply Hk. apply in_map_iff. now exists (k', v'). }
    destruct (IH (dict_set d k c) (missing ++ repeat k (Z.to_nat c)) Hnd' Hd')
      as [IHneg IHpos].
    destruct (Z.ltb_spec c 0) as [Hc | Hc].
    + split.
      * intros _. eexists. split; [reflexivity | now exists k].
      * intros Hall. specialize (Hall (k, v) (or_introl eq_refl)).
        simpl in Hall. fold c in Hall. lia.
    + split.
      * intros (kv & [<- | Hin] & Hneg); [simpl in Hneg; fold c in Hneg; lia|].
        apply IHneg. now exists kv.
      * intros Hall. rewrite IHpos by (intros kv Hin; apply Hall; now right).
        now rewrite <- app_assoc.
Qed.

Lemma concat_block_before lines body :
  String.concat nl (lines ++ [body]) = block_before lines body.
Proof.
  induction lines as [|line lines IH]; [reflexivity|].
  simpl. rewrite <- IH. destruct (lines ++ [body]) eqn:E; [|reflexivity].
  now destruct lines.
Qed.

(** C4.  Per distinct placeholder the back-fill subtracts the occurrences
    counted in the body.  If any remainder is negative it fails with
    PlaceholderAccounting; otherwise the result is the missing copies, in
    the order of the mapping, each closed by a line feed (character 10),
    followed by the body.  A placeholder supplied twice that does not
    occur in ["Describe these."] therefore comes out twice, each copy on a
    line of its own, before that body. *)
Theorem backfill_missing_placeholders :
  (forall placeholder_counts text_prompt,
     List.NoDup (map fst placeholder_counts) ->
     ((exists kv, In kv placeholder_counts
         /\ (snd kv - Z.of_nat (str_count text_prompt (fst kv)) < 0)%Z) ->
        exists e,
          _get_full_multimodal_text_prompt placeholder_counts text_prompt
            = inl e
          /\ PlaceholderAccounting e)
     /\ ((forall kv, In kv placeholder_counts ->
            (0 <= snd kv - Z.of_nat (str_count text_prompt (fst kv)))%Z) ->
         _get_full_multimodal_text_prompt placeholder_counts text_prompt
         = inr (block_before
                  (flat_map (missing_copies text_prompt) placeholder_counts)
                  text_prompt)))
  /\ (forall placeholder,
        ~ occurs_in placeholder "Describe these." ->
        _get_full_multimodal_text_prompt [(placeholder, 2%Z)] "Describe these."
        = inr (placeholder
               +:+ String "010"%char
                     (placeholder +:+ String "010"%char "Describe these."))).
Proof.
  assert (Hgen : forall placeholder_counts text_prompt,
     List.NoDup (map fst placeholder_counts) ->
     ((exists kv, In kv placeholder_counts
         /\ (snd kv - Z.of_nat (str_count text_prompt (fst kv)) < 0)%Z) ->
        exists e,
          _get_full_multimodal_text_prompt placeholder_counts text_prompt
            = inl e
          /\ PlaceholderAccounting e)
     /\ ((forall kv, In kv placeholder_counts ->
            (0 <= snd kv - Z.of_nat (str_count text_prompt (fst kv)))%Z) ->
         _get_full_multimodal_text_prompt placeholder_counts text_prompt
         = inr (block_before
                  (flat_map (missing_copies text_prompt) placeholder_counts)
                  text_prompt))).
  { intros counts text Hnd. unfold _get_full_multimodal_text_prompt.
    destruct (backfill_loop_spec text counts counts [] Hnd) as [Hneg Hpos].
    { intros k v. now apply dict_get_in. }
    split.
    - intros Hex. destruct (Hneg Hex) as (e & -> & He). eauto.
    - intros Hall. rewrite (Hpos Hall). simpl.
      now rewrite concat_block_before. }
  split; [exact Hgen|].
  intros p Hno.
  destruct (Hgen [(p, 2%Z)] "Describe these.") as [_ Hpos].
  { constructor; [intros []|]. constructor. }
  rewrite Hpos.
  - unfold missing_copies. simpl. rewrite (str_count_absent _ _ Hno).
    reflexivity.
  - intros kv [<- | []]. simpl. rewrite (str_count_absent _ _ Hno). lia.
Qed.

Lemma backfill_missing_placeholders_witness :
  _get_full_multimodal_text_prompt
    [("<|image|>", 2%Z); ("<|audio|>", 1%Z)] "Compare <|image|> with:"
  = inr ("<|image|>"
         +:+ String "010"%char
               ("<|audio|>" +:+ String "010"%char "Compare <|image|> with:"))
  /\ exists e,
       _get_full_multimodal_text_prompt [("<image>", 1%Z)] "<image> and <image>"
       = inl e /\ PlaceholderAccounting e.
Proof.
  destruct backfill_missing_placeholders as [Hgen _]. split.
  - destruct (Hgen [("<|image|>", 2%Z); ("<|audio|>", 1%Z)]
                "Compare <|image|> with:") as [_ Hpos].
    { constructor; [intros [H | []]; discriminate H|].
      constructor; [intros []|]. constructor. }
    rewrite Hpos; [reflexivity|].
    intros kv [<- | [<- | []]]; vm_compute; discriminate.
  - destruct (Hgen [("<image>", 1%Z)] "<image> and <image>") as [Hneg _].
    { constructor; [intros []|]. constructor. }
    apply Hneg. exists ("<image>", 1%Z). split; [now left | reflexivity].
Defined.

End BackfillFacts.

Module PartsFacts.
Import Tracker Parts.

Lemma str_in_cons x y l :
  str_in x (y :: l) = String.eqb x y || str_in x l.
Proof. reflexivity. Qed.

(** The part types with an entry in [MM_PARSER_MAP] are the valid ones. *)
Lemma MM_PARSER_MAP_None part_type :
  str_in part_type VALID_MESSAGE_CONTENT_MM_PART_TYPES = false ->
  MM_PARSER_MAP part_type = None.
Proof.
  unfold VALID_MESSAGE_CONTENT_MM_PART_TYPES, MM_PARSER_MAP.
  rewrite !str_in_cons. intros H.
  repeat (apply orb_false_elim in H as [?E H]).
  repeat match goal with
         | Hf : String.eqb _ _ = false |- _ => rewrite Hf; clear Hf
         end.
  reflexivity.
Qed.

Lemma media_types_valid part_type :
  In part_type media_part_types ->
  str_in part_type VALID_MESSAGE_CONTENT_MM_PART_TYPES = true.
Proof.
  intros H. repeat (destruct H as [<- | H]; [reflexivity|]). destruct H.
Qed.

Section Generic.

Context {S : Type} `{BaseMultiModalContentParser S}.

Lemma state_eta (st : state S) :
  {| mm_parser := mm_parser st; warnings := warnings st ++ [] |} = st.
Proof. destruct st. simpl. now rewrite app_nil_r. Qed.

(** A part of a valid type with a falsy payload is skipped with a
    warning, whatever the target format. *)
Lemma part_skipped part wrap_dicts (st : state S) logged part_type content :
  _parse_chat_message_content_mm_part part = (logged, inr (part_type, content)) ->
  str_in part_type VALID_MESSAGE_CONTENT_MM_PART_TYPES = true ->
  truthy content = false ->
  _parse_chat_message_content_part part wrap_dicts st
  = ({| mm_parser := mm_parser st;
        warnings := (warnings st ++ logged) ++ [skip_warning part_type] |},
     inr None).
Proof.
  intros Hmm Hvalid Hfalsy.
  unfold _parse_chat_message_content_part.
  destruct part as [| | |s| |d]; try discriminate Hmm.
  rewrite Hmm. unfold bind, warn, lift, ret. cbv beta iota zeta.
  cbn [fst snd mm_parser warnings].
  now rewrite Hvalid, Hfalsy.
Qed.

Lemma loop_skips part parts wrap_dicts content (st st' : state S) :
  _parse_chat_message_content_part part wrap_dicts st = (st', inr None) ->
  parse_parts_loop (part :: parts) wrap_dicts content st
  = parse_parts_loop parts wrap_dicts content st'.
Proof.
  intros Hp. cbn [parse_parts_loop]. unfold bind at 1. now rewrite Hp.
Qed.

(** C5.  A media part whose extracted locator is empty is dropped: part
    parsing returns nothing and does not raise, the parser and its tracker
    are untouched, the one effect is the warning appended to the log, and
    the loop over the parts goes on with the content list as it was. *)
Theorem empty_media_part_dropped
    part wrap_dicts (st : state S) logged part_type locator parts content :
  _parse_chat_message_content_mm_part part = (logged, inr (part_type, locator)) ->
  In part_type media_part_types ->
  truthy locator = false ->
  let st' := {| mm_parser := mm_parser st;
                warnings := (warnings st ++ logged) ++ [skip_warning part_type] |} in
  _parse_chat_message_content_part part wrap_dicts st = (st', inr None)
  /\ parse_parts_loop (part :: parts) wrap_dicts content st
     = parse_parts_loop parts wrap_dicts content st'.
Proof.
  intros Hmm Hmedia Hempty st'.
  assert (Hp : _parse_chat_message_content_part part wrap_dicts st = (st', inr None)).
  { apply (part_skipped _ _ _ _ _ _ Hmm); auto using media_types_valid. }
  split; [exact Hp | now apply (loop_skips _ _ _ _ _ _ Hp)].
Qed.

(** C9.  A part tagged "text" or "refusal" whose payload is the empty
    string (or is missing) is dropped like an empty media part: nothing is
    returned, a warning is logged, and the content list is left as it was,
    for the flat and for the structured target alike. *)
Theorem empty_text_part_dropped
    d part_type wrap_dicts (st : state S) parts content :
  part_type = "text" \/ part_type = "refusal" ->
  dict_get_default d "type" PNone = PStr part_type ->
  dict_get_default d part_type (PStr "") = PStr "" ->
  let st' := {| mm_parser := mm_parser st;
                warnings := warnings st ++ [skip_warning part_type] |} in
  _parse_chat_message_content_part (PDict d) wrap_dicts st = (st', inr None)
  /\ parse_parts_loop (PDict d :: parts) wrap_dicts content st
     = parse_parts_loop parts wrap_dicts content st'.
Proof.
  intros Hty Htag Hpayload st'.
  assert (Hmm : _parse_chat_message_content_mm_part (PDict d)
                = ([], inr (part_type, PStr ""))).
  { unfold _parse_chat_message_content_mm_part. rewrite Htag.
    destruct Hty as [-> | ->]; simpl; now rewrite Hpayload. }
  assert (Hp : _parse_chat_message_content_part (PDict d) wrap_dicts st
               = (st', inr None)).
  { rewrite (part_skipped _ _ _ _ _ _ Hmm).
    - subst st'. now rewrite app_nil_r.
    - destruct Hty as [-> | ->]; reflexivity.
    - reflexivity. }
  split; [exact Hp | now apply (loop_skips _ _ _ _ _ _ Hp)].
Qed.

Lemma str_in_false_eqb x l y :
  str_in x l = false -> In y l -> String.eqb x y = false.
Proof.
  unfold str_in. intros Hno Hin.
  destruct (String.eqb x y) eqn:E; [|reflexivity].
  assert (existsb (String.eqb x) l = true)
    by (apply existsb_exists; now exists y).
  congruence.
Qed.

(** C6.  A [dict] part whose type tag is absent, with none of the legacy
    fields present, fails with the "missing type" [ValueError].  A part
    whose type tag is present and is not a recognized string fails too:
    with the "invalid type" [ValueError] when the tag is not a string, with
    the "unknown part type" [NotImplementedError] when it is an unknown
    string.  The three are the SchemaViolation failure. *)
Theorem unusable_type_tag_rejected d wrap_dicts (st : state S) :
  (dict_get_default d "type" PNone = PNone ->
   (forall field,
       In field ["image_url"; "audio_url"; "input_audio"; "video_url"] ->
       dict_get_default d field PNone = PNone) ->
   _parse_chat_message_content_part (PDict d) wrap_dicts st
   = (st, inl (ValueError "Missing 'type' field in multimodal part.")))
  /\ (forall tag,
        dict_get_default d "type" PNone = tag ->
        tag <> PNone ->
        (forall s, tag = PStr s ->
                   str_in s VALID_MESSAGE_CONTENT_MM_PART_TYPES = false) ->
        exists e,
          _parse_chat_message_content_part (PDict d) wrap_dicts st = (st, inl e)
          /\ SchemaViolation e
          /\ e = match tag with
                 | PStr s => NotImplementedError ("Unknown part type: " +:+ s)
                 | _ => ValueError "Invalid 'type' field in multimodal part."
                 end).
Proof.
  split.
  - intros Htag Hlegacy.
    unfold _parse_chat_message_content_part, _parse_chat_message_content_mm_part.
    rewrite Htag.
    rewrite !Hlegacy by (simpl; auto). simpl.
    unfold bind, warn, lift, raise. simpl. now rewrite state_eta.
  - intros tag Htag Hsome Hunknown.
    unfold _parse_chat_message_content_part, _parse_chat_message_content_mm_part.
    rewrite Htag.
    destruct tag as [|b|z|s|l|d']; try contradiction;
      try (eexists; split;
           [unfold bind, warn, lift, raise; simpl; now rewrite state_eta|];
           split; [right; left; reflexivity | reflexivity]).
    specialize (Hunknown s eq_refl).
    rewrite (MM_PARSER_MAP_None _ Hunknown).
    eexists. split; [|split; [right; right; now exists s | reflexivity]].
    unfold bind, warn, lift, raise, ret. cbv beta iota zeta.
    cbn [fst snd mm_parser warnings]. rewrite state_eta.
    rewrite Hunknown. rewrite andb_false_l.
    assert (Hne : forall y, In y VALID_MESSAGE_CONTENT_MM_PART_TYPES ->
                            String.eqb s y = false)
      by (intros y; now apply str_in_false_eqb).
    unfold str_in. simpl.
    rewrite !Hne by (simpl; auto 10). reflexivity.
Qed.

End Generic.

Lemma empty_media_part_dropped_witness :
  @parse_parts_loop _ blocking_parser
    [image_url_part ""; text_part "Describe this."] true [] fresh_state
  = @parse_parts_loop _ blocking_parser
      [text_part "Describe this."] true []
      {| mm_parser := create_parser ∅;
         warnings := [skip_warning "image_url"] |}.
Proof.
  exact (proj2 (@empty_media_part_dropped _ blocking_parser
                  (image_url_part "") true fresh_state [] "image_url" (PStr "")
                  [text_part "Describe this."] []
                  eq_refl ltac:(simpl; auto) eq_refl)).
Defined.

Lemma empty_text_part_dropped_witness :
  @_parse_chat_message_content_part _ blocking_parser (text_part "") false
    fresh_state
  = ({| mm_parser := create_parser ∅; warnings := [skip_warning "text"] |},
     inr None).
Proof.
  exact (proj1 (@empty_text_part_dropped _ blocking_parser
                  [("type", PStr "text"); ("text", PStr "")] "text" false
                  fresh_state [] []
                  (or_introl eq_refl) eq_refl eq_refl)).
Defined.

Lemma unusable_type_tag_rejected_witness :
  @_parse_chat_message_content_part _ blocking_parser
    (PDict [("text", PStr "hello")]) true fresh_state
  = (fresh_state, inl (ValueError "Missing 'type' field in multimodal part."))
  /\ exists e,
       @_parse_chat_message_content_part _ blocking_parser
         (PDict [("type", PStr "image"); ("image", PStr "http://a")]) true
         fresh_state
       = (fresh_state, inl e)
       /\ SchemaViolation e.
Proof.
  split.
  - apply (proj1 (@unusable_type_tag_rejected _ blocking_parser
                    [("text", PStr "hello")] true fresh_state)).
    + reflexivity.
    + intros field Hin. repeat (destruct Hin as [<- | Hin]; [reflexivity|]).
      destruct Hin.
  - destruct (proj2 (@unusable_type_tag_rejected _ blocking_parser
                       [("type", PStr "image"); ("image", PStr "http://a")]
                       true fresh_state)
                (PStr "image") eq_refl ltac:(discriminate)
                ltac:(intros s [= <-]; reflexivity))
      as (e & He & Hs & _).
    exists e. split; assumption.
Defined.

(** The example of the specification, end to end: a model family with the
    placeholder [<|image|>], two images allowed, two image parts and the
    text ["Describe these."], flat target. *)
Example two_images_flat :
  snd (@_parse_chat_message_content_parts _ blocking_parser "user"
         [image_url_part "http://a"; image_url_part "http://b";
          text_part "Describe these."] false fresh_state)
  = inr [[("role", PStr "user");
          ("content",
           PStr ("<|image|>" +:+ Backfill.line_feed +:+ "<|image|>" +:+ Backfill.line_feed
                 +:+ "Describe these."))]].
Proof. vm_compute. reflexivity. Qed.

End PartsFacts.

Module PostFacts.
Import Post.

Section Generic.

Variable loads : string -> option pyval.

Lemma decode_records_app fns1 fns2 h :
  decode_records loads (fns1 ++ fns2) h
  = match decode_records loads fns1 h with
    | (h', inr _) => decode_records loads fns2 h'
    | (h', inl e) => (h', inl e)
    end.
Proof.
  revert h. induction fns1 as [|fn fns1 IH]; intros h; simpl; [reflexivity|].
  destruct (decode_arguments loads h fn) as [h1 [e|[]]]; [reflexivity|].
  apply IH.
Qed.

Lemma decode_calls_records items h :
  decode_calls loads items h = decode_records loads (map function items) h.
Proof.
  revert h. induction items as [|item items IH]; intros h; simpl; [reflexivity|].
  destruct (decode_arguments loads h (function item)) as [h1 [e|[]]];
    [reflexivity | apply IH].
Qed.

(** The pass is the pass over the records of the assistant messages. *)
Lemma postprocess_records messages h :
  _postprocess_messages loads messages h
  = decode_records loads (tool_call_records messages) h.
Proof.
  revert h. induction messages as [|m messages IH]; intros h; [reflexivity|].
  cbn [_postprocess_messages tool_call_records List.flat_map].
  fold (tool_call_records messages).
  rewrite decode_records_app.
  destruct (String.eqb (role m) "assistant"); [|apply IH].
  destruct (tool_calls m) as [items|]; simpl; [|apply IH].
  rewrite decode_calls_records.
  destruct (decode_records loads (map function items) h) as [h1 [e|[]]];
    [reflexivity | apply IH].
Qed.

Lemma decode_arguments_ok h fn h' :
  decode_arguments loads h fn = (h', inr tt) ->
  exists record text value,
    h !! fn = Some record
    /\ dict_get record "arguments" = Some (PStr text)
    /\ loads text = Some value
    /\ h' = <[fn := dict_set record "arguments" value]> h.
Proof.
  unfold decode_arguments.
  destruct (h !! fn) as [record|]; [|discriminate].
  destruct (dict_get record "arguments") as [[| | |text| |]|] eqn:Ha;
    try discriminate.
  destruct (loads text) as [value|] eqn:Hl; [|discriminate].
  intros [= <-]. exists record, text, value. auto.
Qed.

Lemma dict_get_set_eq {V : Type} (d : list (string * V)) k v :
  dict_get (dict_set d k v) k = Some v.
Proof.
  unfold dict_get. induction d as [|[k0 v0] d IH]; simpl.
  - now rewrite String.eqb_refl.
  - destruct (String.eqb_spec k0 k) as [-> | Hne]; simpl.
    + now rewrite String.eqb_refl.
    + destruct (String.eqb_spec k0 k); [contradiction | exact IH].
Qed.

Lemma dict_get_set_other {V : Type} (d : list (string * V)) k k' v :
  k <> k' -> dict_get (dict_set d k v) k' = dict_get d k'.
Proof.
  intros Hne. unfold dict_get.
  induction d as [|[k0 v0] d IH]; simpl.
  - destruct (String.eqb_spec k k'); [contradiction | reflexivity].
  - destruct (String.eqb_spec k0 k) as [-> | Hk0]; simpl.
    + destruct (String.eqb_spec k k'); [contradiction | reflexivity].
    + destruct (String.eqb_spec k0 k'); [reflexivity | exact IH].
Qed.

Lemma decode_records_ok fns : forall h h',
  List.NoDup fns ->
  decode_records loads fns h = (h', inr tt) ->
  (forall fn, In fn fns ->
     exists record text value,
       h !! fn = Some record
       /\ dict_get record "arguments" = Some (PStr text)
       /\ loads text = Some value
       /\ h' !! fn = Some (dict_set record "arguments" value))
  /\ (forall fn, ~ In fn fns -> h' !! fn = h !! fn).
Proof.
  induction fns as [|fn0 fns IH]; intros h h' Hnd Hrun.
  - injection Hrun as <-. split; [intros fn [] | reflexivity].
  - simpl in Hrun. apply List.NoDup_cons_iff in Hnd as [Hfresh Hnd].
    destruct (decode_arguments loads h fn0) as [h1 [e|[]]] eqn:Hd;
      [discriminate Hrun|].
    destruct (decode_arguments_ok _ _ _ Hd) as (record & text & value & Hr & Ha & Hl & ->).
    destruct (IH _ _ Hnd Hrun) as [IHin IHout].
    split.
    + intros fn [<- | Hin].
      * exists record, text, value. repeat split; try assumption.
        rewrite (IHout fn0 Hfresh). apply lookup_insert_eq.
      * destruct (IHin fn Hin) as (r & t & v & Hr' & Ha' & Hl' & Hh').
        assert (fn0 <> fn) by (intros ->; contradiction).
        rewrite lookup_insert_ne in Hr' by assumption.
        exists r, t, v. auto.
    + intros fn Hout.
      rewrite IHout by (intros Hin; apply Hout; now right).
      apply lookup_insert_ne. intros ->. apply Hout. now left.
Qed.

Lemma decode_records_total fns : forall h,
  List.NoDup fns ->
  (forall fn, In fn fns -> exists value, encodes loads h fn value) ->
  exists h', decode_records loads fns h = (h', inr tt).
Proof.
  induction fns as [|fn0 fns IH]; intros h Hnd Hall; [now exists h|].
  apply List.NoDup_cons_iff in Hnd as [Hfresh Hnd]. simpl.
  destruct (Hall fn0 (or_introl eq_refl)) as (value & text & Harg & Hl).
  unfold arguments_of in Harg. unfold decode_arguments.
  destruct (h !! fn0) as [record|] eqn:Hr; [|discriminate Harg].
  rewrite Harg, Hl.
  apply IH; [exact Hnd|].
  intros fn Hin. destruct (Hall fn (or_intror Hin)) as (v & t & Ha & Hlt).
  exists v, t. split; [|exact Hlt].
  unfold arguments_of in *. rewrite lookup_insert_ne; [exact Ha|].
  intros ->. contradiction.
Qed.

End Generic.



(** A record shared by two messages is reached twice: the second visit
    finds the decoded value, not a text. *)
Example shared_record_decoded_once :
  (_postprocess_messages json_loads [calling_message; calling_message]
     wire_heap).2
  = inl (TypeError
           "the JSON object must be str, bytes or bytearray, not dict").
Proof. reflexivity. Qed.


End PostFacts.

Module TrackerRunsFacts.
Import Tracker TrackerRuns TrackerFacts.

Section Runs.

Variable cfg : TrackerConfig.
Context {T : Type}.

(** A call of [add] touches the entry of its own modality only. *)
Lemma add_lookup_other (items : gmap string (list T)) modality item other :
  other <> modality ->
  (add cfg items modality item).1 !! other = items !! other.
Proof.
  intros Hne. rewrite add_unfold. cbv zeta.
  destruct (_ <? _)%Z; simpl.
  - unfold defaultdict_getitem. destruct (items !! modality); simpl;
      [reflexivity | now rewrite lookup_insert_ne].
  - now rewrite lookup_insert_ne.
Qed.

Lemma add_count_same (items : gmap string (list T)) modality item :
  count_of (add cfg items modality item).1 modality
  = if (default 1%Z (_allowed_items cfg !! modality)
        <? Z.of_nat (count_of items modality) + 1)%Z
    then count_of items modality
    else S (count_of items modality).
Proof.
  rewrite add_unfold. cbv zeta. destruct (_ <? _)%Z; simpl.
  - unfold count_of, defaultdict_getitem.
    destruct (items !! modality) eqn:E; simpl; [now rewrite E|].
    now rewrite lookup_insert_eq.
  - unfold count_of. rewrite lookup_insert_eq. simpl.
    rewrite length_app. simpl. lia.
Qed.

Lemma add_keeps_within_limits (items : gmap string (list T)) modality item :
  within_limits cfg items ->
  within_limits cfg (add cfg items modality item).1.
Proof.
  intros Hin m. destruct (decide (m = modality)) as [-> | Hne].
  - rewrite add_count_same. specialize (Hin modality).
    destruct (Z.ltb_spec (default 1%Z (_allowed_items cfg !! modality))
                (Z.of_nat (count_of items modality) + 1)); lia.
  - unfold count_of. rewrite add_lookup_other by exact Hne.
    apply Hin.
Qed.

(** Whatever calls of [add] are made on a fresh tracker, in any order and
    for any modalities, no modality ever holds more items than its limit
    (1 when unspecified; nothing for a limit below 1). *)
Theorem add_calls_within_limits (calls : list (string * T)) modality :
  (Z.of_nat (count_of (add_calls cfg ∅ calls) modality)
   <= Z.max 0 (default 1 (_allowed_items cfg !! modality)))%Z.
Proof.
  assert (Hgen : forall items, within_limits cfg items ->
                               within_limits cfg (add_calls cfg items calls)).
  { induction calls as [|[m x] calls IH]; intros items Hin; [exact Hin|].
    simpl. apply IH. now apply add_keeps_within_limits. }
  apply Hgen. intros m. unfold count_of. rewrite lookup_empty. simpl. lia.
Qed.

Lemma add_keeps_entries_nonempty (items : gmap string (list T)) modality item :
  (1 <= default 1 (_allowed_items cfg !! modality))%Z ->
  entries_nonempty items ->
  entries_nonempty (add cfg items modality item).1.
Proof.
  intros Hpos Hne m l Hl.
  destruct (decide (m = modality)) as [-> | Hm].
  - rewrite add_unfold in Hl. cbv zeta in Hl.
    destruct (_ <? _)%Z eqn:Hlt; simpl in Hl.
    + unfold defaultdict_getitem in Hl.
      destruct (items !! modality) as [l0|] eqn:E; simpl in Hl.
      * rewrite E in Hl. injection Hl as <-. now apply (Hne modality).
      * apply Z.ltb_lt in Hlt. unfold count_of in Hlt. rewrite E in Hlt.
        simpl in Hlt. lia.
    + rewrite lookup_insert_eq in Hl. injection Hl as <-.
      now destruct (default [] (items !! modality)).
  - rewrite add_lookup_other in Hl by exact Hm.
    now apply (Hne m).
Qed.

(** When every limit is at least 1, no run of [add] calls on a fresh
    tracker leaves a modality recorded with an empty item list. *)
Theorem add_calls_entries_nonempty (calls : list (string * T)) :
  (forall modality, (1 <= default 1 (_allowed_items cfg !! modality))%Z) ->
  entries_nonempty (add_calls cfg ∅ calls).
Proof.
  intros Hpos.
  assert (Hgen : forall items, entries_nonempty items ->
                               entries_nonempty (add_calls cfg items calls)).
  { induction calls as [|[m x] calls IH]; intros items Hin; [exact Hin|].
    simpl. apply IH. now apply add_keeps_entries_nonempty. }
  apply Hgen. intros m l Hl. now rewrite lookup_empty in Hl.
Qed.

(** All of [xs] are accepted when they fit under the limit. *)
Lemma add_each_accepted (items : gmap string (list T)) modality xs :
  (Z.of_nat (count_of items modality + length xs)
   <= default 1 (_allowed_items cfg !! modality))%Z ->
  xs <> [] ->
  (add_each cfg items modality xs).1
  = <[modality := default [] (items !! modality) ++ xs]> items.
Proof.
  revert items. induction xs as [|x xs IH]; intros items Hfit Hne; [easy|].
  simpl. pose proof (add_unfold cfg items modality x) as Hadd.
  cbv zeta in Hadd.
  destruct (Z.ltb_spec (default 1%Z (_allowed_items cfg !! modality))
              (Z.of_nat (count_of items modality) + 1));
    [simpl in Hfit; lia|].
  destruct (add cfg items modality x) as [items1 r].
  injection Hadd as -> ->.
  destruct xs as [|y xs]; [reflexivity|].
  specialize (IH (<[modality := default [] (items !! modality) ++ [x]]> items)).
  destruct (add_each cfg _ modality (y :: xs)) as [items2 rs].
  simpl in *. rewrite IH.
  - rewrite lookup_insert_eq. simpl. rewrite <- app_assoc.
    now rewrite insert_insert_eq.
  - unfold count_of in *. rewrite lookup_insert_eq. simpl.
    rewrite length_app. simpl. lia.
  - discriminate.
Qed.

(** From [add] to [all_mm_data]: the items of a modality accepted on a
    fresh tracker come back as that modality's list, in the order they
    were added; a single image embedding comes back under "image", not in
    a list. *)
Theorem added_items_are_returned modality (xs : list T) :
  xs <> [] ->
  (Z.of_nat (length xs) <= default 1 (_allowed_items cfg !! modality))%Z ->
  (In modality ["image"; "audio"; "video"] ->
   all_mm_data (add_each cfg ∅ modality xs).1
   = inr (Some {[ modality := Items xs ]}))
  /\ (modality = "image_embeds" ->
      forall x, xs = [x] ->
      all_mm_data (add_each cfg ∅ modality xs).1
      = inr (Some {[ "image" := Single x ]})).
Proof.
  intros Hne Hfit.
  assert (Hrun : (add_each cfg ∅ modality xs).1
                 = ({[ modality := xs ]} : gmap string (list T))).
  { rewrite add_each_accepted; [|unfold count_of; rewrite lookup_empty; simpl; lia
                                |exact Hne].
    rewrite lookup_empty. simpl. now rewrite insert_empty. }
  rewrite Hrun. split.
  - intros Hm. unfold all_mm_data.
    rewrite bool_decide_eq_false_2
      by (intros E; apply (f_equal (fun m => m !! modality)) in E;
          rewrite lookup_singleton_eq, lookup_empty in E; discriminate E).
    unfold build_mm_inputs.
    destruct Hm as [<- | [<- | [<- | []]]];
      repeat first [rewrite lookup_singleton_eq
                   |rewrite lookup_singleton_ne by discriminate];
      rewrite ?(bool_decide_eq_false_2 (is_Some None)) by (intros [? [=]]);
      rewrite ?andb_false_r; cbv beta iota zeta;
      now rewrite insert_empty.
  - intros -> x ->. unfold all_mm_data.
    rewrite bool_decide_eq_false_2
      by (intros E; apply (f_equal (fun m => m !! "image_embeds")) in E;
          rewrite lookup_singleton_eq, lookup_empty in E; discriminate E).
    unfold build_mm_inputs.
    repeat first [rewrite lookup_singleton_eq
                 |rewrite lookup_singleton_ne by discriminate].
    rewrite (bool_decide_eq_false_2 (is_Some None)) by (intros [? [=]]).
    rewrite andb_false_l. cbv beta iota zeta. simpl.
    now rewrite insert_empty.
Qed.

End Runs.

Lemma add_calls_entries_nonempty_witness :
  entries_nonempty
    (add_calls mllama_two_images (∅ : gmap string (list string))
       [("image", "a"); ("audio", "b"); ("image", "c"); ("image", "d")]).
Proof.
  apply (add_calls_entries_nonempty mllama_two_images).
  intros modality. simpl.
  destruct (decide (modality = "image")) as [-> | Hne].
  - rewrite lookup_singleton_eq. simpl. lia.
  - rewrite lookup_singleton_ne by congruence. simpl. lia.
Defined.

Lemma added_items_are_returned_witness :
  all_mm_data (add_each mllama_two_images ∅ "image" ["a"; "b"]).1
  = inr (Some {[ "image" := Items ["a"; "b"] ]}).
Proof.
  apply (proj1 (added_items_are_returned mllama_two_images "image" ["a"; "b"]
                  ltac:(discriminate) ltac:(simpl; reflexivity || (vm_compute; discriminate)))).
  simpl. auto.
Defined.

End TrackerRunsFacts.

Module PromptFacts.
Import Backfill BackfillFacts.

(** Placeholders the author has already written, each as often as items
    were supplied, leave the prompt as it is. *)
Theorem backfill_keeps_complete_prompt placeholder_counts text_prompt :
  List.NoDup (map fst placeholder_counts) ->
  (forall kv, In kv placeholder_counts ->
     snd kv = Z.of_nat (str_count text_prompt (fst kv))) ->
  _get_full_multimodal_text_prompt placeholder_counts text_prompt
  = inr text_prompt.
Proof.
  intros Hnd Hall. unfold _get_full_multimodal_text_prompt.
  destruct (backfill_loop_spec text_prompt placeholder_counts
              placeholder_counts [] Hnd) as [_ Hpos].
  { intros k v. now apply dict_get_in. }
  rewrite Hpos by (intros kv Hin; rewrite (Hall kv Hin); lia).
  assert (Hnone : flat_map (missing_copies text_prompt) placeholder_counts = []).
  { clear Hnd Hpos. induction placeholder_counts as [|kv l IH]; [reflexivity|].
    simpl. rewrite IH by (intros kv' Hin; apply Hall; now right).
    unfold missing_copies. rewrite (Hall kv (or_introl eq_refl)).
    now rewrite Z.sub_diag. }
  now rewrite Hnone.
Qed.

Lemma backfill_keeps_complete_prompt_witness :
  _get_full_multimodal_text_prompt [("<image>", 2%Z)]
    "Compare <image> and <image>."
  = inr "Compare <image> and <image>.".
Proof.
  apply backfill_keeps_complete_prompt.
  - constructor; [intros [] | constructor].
  - intros kv [<- | []]. reflexivity.
Defined.

End PromptFacts.

Module PartShapesFacts.
Import Tracker Parts PartsFacts.

Section Generic.

Context {S : Type} `{BaseMultiModalContentParser S}.

(** A part with a non-empty "text" or "refusal" payload is returned as it
    is for the flat target and as a part of type "text" for the structured
    one (a refusal too); the parser, its tracker and the log are left as
    they were. *)
Theorem text_part_passes_through
    d part_type payload wrap_dicts (st : state S) :
  part_type = "text" \/ part_type = "refusal" ->
  dict_get_default d "type" PNone = PStr part_type ->
  dict_get_default d part_type (PStr "") = payload ->
  truthy payload = true ->
  _parse_chat_message_content_part (PDict d) wrap_dicts st
  = (st, inr (Some (if wrap_dicts
                    then PDict [("type", PStr "text"); ("text", payload)]
                    else payload))).
Proof.
  intros Hty Htag Hpayload Htruthy.
  unfold _parse_chat_message_content_part, _parse_chat_message_content_mm_part.
  rewrite Htag.
  destruct Hty as [-> | ->]; cbn [MM_PARSER_MAP String.eqb Ascii.eqb Bool.eqb];
    cbv beta iota; rewrite Hpayload;
    unfold bind, warn, lift, ret; cbv beta iota zeta;
    cbn [fst snd mm_parser warnings]; rewrite state_eta;
    rewrite Htruthy; destruct wrap_dicts; reflexivity.
Qed.

(** Parsing reads a [dict] part through
    [_parse_chat_message_content_mm_part] only. *)
Lemma part_parse_by_mm_part d1 d2 wrap_dicts (st : state S) :
  _parse_chat_message_content_mm_part (PDict d1)
  = _parse_chat_message_content_mm_part (PDict d2) ->
  _parse_chat_message_content_part (PDict d1) wrap_dicts st
  = _parse_chat_message_content_part (PDict d2) wrap_dicts st.
Proof.
  intros Heq. unfold _parse_chat_message_content_part. now rewrite Heq.
Qed.

(** The shape without a type tag and with a bare "image_url", "audio_url"
    or "video_url" is parsed as the tagged part with that URL. *)
Theorem bare_url_part_as_tagged d field url wrap_dicts (st : state S) :
  dict_get_default d "type" PNone = PNone ->
  (field = "image_url"
   \/ (field = "audio_url" /\ dict_get_default d "image_url" PNone = PNone)
   \/ (field = "video_url" /\ dict_get_default d "image_url" PNone = PNone
       /\ dict_get_default d "audio_url" PNone = PNone
       /\ dict_get_default d "input_audio" PNone = PNone)) ->
  dict_get d field = Some url ->
  url <> PNone ->
  _parse_chat_message_content_part (PDict d) wrap_dicts st
  = _parse_chat_message_content_part
      (PDict [("type", PStr field); (field, PDict [("url", url)])])
      wrap_dicts st.
Proof.
  intros Htag Hfield Hurl Hsome. apply part_parse_by_mm_part.
  unfold _parse_chat_message_content_mm_part. rewrite Htag.
  assert (Hget : forall default, dict_get_default d field default = url).
  { intros default. unfold dict_get_default. unfold dict_get in Hurl.
    destruct (List.find _ d) as [kv|]; simpl in Hurl; [|discriminate Hurl].
    now injection Hurl. }
  assert (Hnn : is_None url = false) by now destruct url.
  destruct Hfield as [-> | [[-> Hi] | (-> & Hi & Ha & Hin)]].
  - rewrite !Hget, Hnn. reflexivity.
  - rewrite Hi, !Hget, Hnn. reflexivity.
  - rewrite Hi, Ha, Hin, !Hget, Hnn. reflexivity.
Qed.

(** A non-empty text part: the text for the flat target, the part for
    the structured one. *)
Lemma nonempty_text_part s wrap_dicts (st : state S) :
  s <> "" ->
  _parse_chat_message_content_part
    (PDict [("type", PStr "text"); ("text", PStr s)]) wrap_dicts st
  = (st, inr (Some (if wrap_dicts
                    then PDict [("type", PStr "text"); ("text", PStr s)]
                    else PStr s))).
Proof.
  intros Hs.
  assert (Htruthy : truthy (PStr s) = true) by (simpl; now destruct s).
  set (d := [("type", PStr "text"); ("text", PStr s)]) at 1.
  assert (Htag : dict_get_default d "type" PNone = PStr "text")
    by reflexivity.
  assert (Hpayload : dict_get_default d "text" (PStr "") = PStr s)
    by reflexivity.
  clearbody d.
  unfold _parse_chat_message_content_part, _parse_chat_message_content_mm_part.
  rewrite Htag. cbn [MM_PARSER_MAP String.eqb Ascii.eqb Bool.eqb].
  cbv beta iota. rewrite Hpayload.
  unfold bind, warn, lift, ret. cbv beta iota zeta.
  cbn [fst snd mm_parser warnings]. rewrite state_eta.
  rewrite Htruthy. destruct wrap_dicts; reflexivity.
Qed.

Lemma parse_parts_loop_app parts1 parts2 wrap_dicts content (st : state S) :
  parse_parts_loop (parts1 ++ parts2) wrap_dicts content st
  = match parse_parts_loop parts1 wrap_dicts content st with
    | (st', inr content') => parse_parts_loop parts2 wrap_dicts content' st'
    | (st', inl e) => (st', inl e)
    end.
Proof.
  revert content st. induction parts1 as [|p parts1 IH]; intros content st.
  - reflexivity.
  - cbn [app parse_parts_loop]. unfold bind.
    destruct (_parse_chat_message_content_part p wrap_dicts st) as [st1 [e|r]];
      [reflexivity | apply IH].
Qed.

Lemma text_parts_loop texts wrap_dicts content (st : state S) :
  Forall (fun s => s <> "") texts ->
  parse_parts_loop (map text_part texts) wrap_dicts content st
  = (st, inr (content
              ++ map (fun s => if wrap_dicts
                               then PDict [("type", PStr "text"); ("text", PStr s)]
                               else PStr s) texts)).
Proof.
  intros Hall. revert content.
  induction Hall as [|s texts Hs Hall IH]; intros content.
  - simpl. now rewrite app_nil_r.
  - cbn [map parse_parts_loop]. unfold bind at 1. unfold text_part at 1.
    rewrite (nonempty_text_part s wrap_dicts st Hs).
    assert (Ht : truthy (if wrap_dicts
                         then PDict [("type", PStr "text"); ("text", PStr s)]
                         else PStr s) = true)
      by (destruct wrap_dicts; simpl; [reflexivity | now destruct s]).
    rewrite Ht, IH, <- app_assoc. reflexivity.
Qed.

Lemma str_items_strings texts : str_items (map PStr texts) = inr texts.
Proof.
  unfold str_items. generalize 0.
  induction texts as [|s texts IH]; intros i; simpl;
    [reflexivity | now rewrite IH].
Qed.

(** A message of non-empty text parts, on a parser that has counted no
    placeholder: for the flat target the content is the texts joined by
    line feeds and nothing is injected; for the structured target it is
    the list of the parts, in order.  Parser, tracker and log are left as
    they were. *)
Theorem text_only_message role texts (st : state S) :
  Forall (fun s => s <> "") texts ->
  mm_placeholder_counts (mm_parser st) = [] ->
  _parse_chat_message_content_parts role (map text_part texts) false st
  = (st, inr [[("role", PStr role);
               ("content", PStr (String.concat Backfill.line_feed texts))]])
  /\ _parse_chat_message_content_parts role (map text_part texts) true st
     = (st, inr [[("role", PStr role);
                  ("content", PList (map text_part texts))]]).
Proof.
  intros Hall Hcounts. unfold _parse_chat_message_content_parts. split.
  - unfold bind at 1. rewrite (text_parts_loop texts false [] st Hall).
    cbv iota beta. cbn [app]. unfold bind, lift.
    change (map (fun s : string => PStr s) texts) with (map PStr texts).
    rewrite str_items_strings. unfold ret at 1. cbv iota beta.
    now rewrite Hcounts.
  - unfold bind at 1. rewrite (text_parts_loop texts true [] st Hall).
    reflexivity.
Qed.

End Generic.

Section Blocking.

Variable cfg : TrackerConfig.
Context {Media : Type}.
Variable _connector : MediaConnector Media.
Variable str_of_container : pyval -> string.

Abbreviation parser := (MultiModalContentParser cfg _connector str_of_container).

(** The shape without a type tag and with a bare "input_audio" hands the
    whole part to [parse_input_audio], which reads "data" and "format" at
    its top level: when the part has neither, the audio is fetched from
    the data URL with empty format and empty data, whatever the
    "input_audio" field holds. *)
Theorem bare_input_audio_loses_payload d wrap_dicts
    (st : state (SyncParser Media)) :
  dict_get_default d "type" PNone = PNone ->
  dict_get_default d "image_url" PNone = PNone ->
  dict_get_default d "audio_url" PNone = PNone ->
  dict_get_default d "input_audio" PNone <> PNone ->
  dict_get_default d "data" (PStr "") = PStr "" ->
  dict_get_default d "format" (PStr "") = PStr "" ->
  @_parse_chat_message_content_part _ parser (PDict d) wrap_dicts st
  = @_parse_chat_message_content_part _ parser
      (PDict [("type", PStr "audio_url");
              ("audio_url", PDict [("url", PStr "data:audio/;base64,")])])
      wrap_dicts st.
Proof.
  intros Htag Hi Ha Hin Hdata Hformat.
  assert (Hd : truthy (PDict d) = true).
  { destruct d; [|reflexivity]. now elim Hin. }
  unfold _parse_chat_message_content_part, _parse_chat_message_content_mm_part.
  rewrite Htag, Hi, Ha.
  destruct (dict_get_default d "input_audio" PNone) eqn:E; try (now elim Hin);
    cbn [is_None negb]; cbv iota;
    unfold bind, warn, lift, ret, call; cbv beta iota zeta;
    cbn [fst snd mm_parser warnings]; rewrite Hd;
    cbn [negb andb str_in existsb String.eqb Ascii.eqb Bool.eqb orb
         VALID_MESSAGE_CONTENT_MM_PART_TYPES];
    cbv iota;
    cbn [parse_input_audio parse_audio MultiModalContentParser];
    unfold sync_parse_input_audio; cbn [py_get];
    rewrite Hdata, Hformat; reflexivity.
Qed.

(** One image and a text for the flat target: when the model family has a
    placeholder for a first image, the image is allowed and loads, and the
    text does not hold the placeholder, the content is the placeholder on
    a line of its own followed by the text, and the image is recorded. *)
Theorem image_then_text_flat role url text placeholder medium
    (log : list string) :
  url <> "" -> text <> "" ->
  _placeholder_str cfg "image" 1 = inr (Some placeholder) ->
  placeholder <> "" ->
  (1 <= default 1 (_allowed_items cfg !! "image"))%Z ->
  fetch_image _connector (PStr url) = inr medium ->
  ~ Backfill.occurs_in placeholder text ->
  @_parse_chat_message_content_parts _ parser role
    [image_url_part url; text_part text] false
    {| mm_parser := create_parser ∅; warnings := log |}
  = ({| mm_parser :=
          {| _items_by_modality := {[ "image" := [Medium medium] ]};
             _placeholder_counts := [(placeholder, 1%Z)] |};
        warnings := log |},
     inr [[("role", PStr role);
           ("content", PStr (placeholder +:+ Backfill.line_feed +:+ text))]]).
Proof.
  intros Hurl Htext Hph Hne Hallowed Hfetch Habsent.
  assert (Hadd : add cfg (∅ : gmap string (list (Item Media))) "image"
                   (Medium medium)
                 = ({[ "image" := [Medium medium] ]}, inr (Some placeholder))).
  { rewrite TrackerFacts.add_unfold. cbv zeta.
    unfold count_of. rewrite lookup_empty.
    change (Z.of_nat (length (default [] (@None (list (Item Media))))) + 1)%Z
      with 1%Z.
    destruct (Z.ltb_spec (default 1%Z (_allowed_items cfg !! "image")) 1);
      [lia|].
    now rewrite Hph, insert_empty. }
  assert (Himg : @_parse_chat_message_content_part _ parser
                   (image_url_part url) false
                   {| mm_parser := create_parser ∅; warnings := log |}
                 = ({| mm_parser :=
                         {| _items_by_modality := {[ "image" := [Medium medium] ]};
                            _placeholder_counts := [(placeholder, 1%Z)] |};
                       warnings := log ++ [] |}, inr None)).
  { unfold _parse_chat_message_content_part, image_url_part,
      _parse_chat_message_content_mm_part.
    cbn [dict_get_default List.find fst snd String.eqb Ascii.eqb Bool.eqb
         MM_PARSER_MAP py_get eq_str negb andb].
    unfold bind, warn, lift, ret, call. cbv beta iota zeta.
    cbn [fst snd mm_parser warnings truthy].
    assert (String.eqb url "" = false) as -> by now apply String.eqb_neq.
    cbn [negb andb str_in existsb String.eqb Ascii.eqb Bool.eqb orb
         VALID_MESSAGE_CONTENT_MM_PART_TYPES].
    cbv iota.
    cbn [parse_image MultiModalContentParser].
    unfold fetch_then_track. rewrite Hfetch. unfold track, create_parser.
    cbn [_items_by_modality _placeholder_counts mm_parser warnings].
    rewrite Hadd.
    destruct placeholder as [|c p]; [now elim Hne|]. reflexivity. }
  unfold _parse_chat_message_content_parts.
  unfold bind at 1. cbn [parse_parts_loop]. unfold bind at 1.
  rewrite Himg. cbv iota beta. rewrite app_nil_r.
  unfold bind at 1.
  rewrite (nonempty_text_part text false _ Htext).
  assert (truthy (PStr text) = true) as -> by (simpl; now destruct text).
  unfold ret at 1. cbv iota beta. cbn [app].
  unfold bind, lift, str_items. cbn [str_items_from].
  unfold ret at 1. cbv iota beta.
  cbn [mm_parser mm_placeholder_counts MultiModalContentParser
       _placeholder_counts String.concat].
  assert (Hfull : Backfill._get_full_multimodal_text_prompt
                    [(placeholder, 1%Z)] text
                  = inr (placeholder +:+ Backfill.line_feed +:+ text)).
  { unfold Backfill._get_full_multimodal_text_prompt.
    cbn [map fst Backfill.backfill_loop]. unfold dict_get.
    cbn [List.find fst]. rewrite String.eqb_refl.
    cbn [fmap option_fmap option_map snd].
    rewrite (BackfillFacts.str_count_absent _ _ Habsent). reflexivity. }
  rewrite Hfull. reflexivity.
Qed.

End Blocking.

Lemma text_part_passes_through_witness :
  @_parse_chat_message_content_part _ blocking_parser
    (PDict [("type", PStr "refusal"); ("refusal", PStr "I cannot help.")])
    true fresh_state
  = (fresh_state,
     inr (Some (PDict [("type", PStr "text"); ("text", PStr "I cannot help.")]))).
Proof.
  exact (@text_part_passes_through _ blocking_parser
           [("type", PStr "refusal"); ("refusal", PStr "I cannot help.")]
           "refusal" (PStr "I cannot help.") true fresh_state
           (or_intror eq_refl) eq_refl eq_refl eq_refl).
Defined.

Lemma bare_url_part_as_tagged_witness :
  @_parse_chat_message_content_part _ blocking_parser
    (PDict [("audio_url", PStr "http://a/clip.mp3")]) true fresh_state
  = @_parse_chat_message_content_part _ blocking_parser
      (PDict [("type", PStr "audio_url");
              ("audio_url", PDict [("url", PStr "http://a/clip.mp3")])])
      true fresh_state.
Proof.
  apply (@bare_url_part_as_tagged _ blocking_parser
           [("audio_url", PStr "http://a/clip.mp3")] "audio_url"
           (PStr "http://a/clip.mp3") true fresh_state).
  - reflexivity.
  - right; left. split; reflexivity.
  - reflexivity.
  - discriminate.
Defined.

Lemma text_only_message_witness :
  @_parse_chat_message_content_parts _ blocking_parser "user"
    [text_part "Hello."; text_part "How are you?"] false fresh_state
  = (fresh_state,
     inr [[("role", PStr "user");
           ("content", PStr ("Hello." +:+ Backfill.line_feed +:+ "How are you?"))]]).
Proof.
  apply (proj1 (@text_only_message _ blocking_parser "user"
                  ["Hello."; "How are you?"] fresh_state
                  ltac:(repeat constructor; discriminate) eq_refl)).
Defined.

Lemma bare_input_audio_loses_payload_witness :
  @_parse_chat_message_content_part _ blocking_parser
    (PDict [("input_audio",
             PDict [("data", PStr "UklGRg=="); ("format", PStr "wav")])])
    false fresh_state
  = @_parse_chat_message_content_part _ blocking_parser
      (PDict [("type", PStr "audio_url");
              ("audio_url", PDict [("url", PStr "data:audio/;base64,")])])
      false fresh_state.
Proof.
  apply (bare_input_audio_loses_payload mllama_two_images echo_connector
           (fun _ => "")
           [("input_audio",
             PDict [("data", PStr "UklGRg=="); ("format", PStr "wav")])]
           false fresh_state); try reflexivity.
  discriminate.
Defined.

Lemma image_then_text_flat_witness :
  @_parse_chat_message_content_parts _ blocking_parser "user"
    [image_url_part "http://a/cat.png"; text_part "What is this?"] false
    fresh_state
  = ({| mm_parser :=
          {| _items_by_modality :=
               {[ "image" := [Medium (PStr "http://a/cat.png")] ]};
             _placeholder_counts := [("<|image|>", 1%Z)] |};
        warnings := [] |},
     inr [[("role", PStr "user");
           ("content",
            PStr ("<|image|>" +:+ Backfill.line_feed +:+ "What is this?"))]]).
Proof.
  apply (image_then_text_flat mllama_two_images echo_connector (fun _ => "")
           "user" "http://a/cat.png" "What is this?" "<|image|>"
           (PStr "http://a/cat.png") []);
    try discriminate; try reflexivity.
  intros ([|c pre] & post & H); [discriminate H|].
  injection H as _ H.
  repeat (destruct pre as [|? pre]; [discriminate H | injection H as _ H]).
  destruct pre; discriminate H.
Defined.

End PartShapesFacts.

Module TemplatesFacts.
Import Templates TemplateRuns.

Lemma char_in_occurs c s :
  char_in c s = true <-> exists pre post, s = pre +:+ String c post.
Proof.
  induction s as [|d s IH]; simpl.
  - split; [discriminate|]. intros ([|? ?] & post & H); discriminate H.
  - rewrite orb_true_iff, IH. split.
    + intros [Hc | (pre & post & ->)].
      * apply Ascii.eqb_eq in Hc as ->. now exists "", s.
      * now exists (String d pre), post.
    + intros ([|e pre] & post & H); simpl in H; injection H as -> ->.
      * left. apply Ascii.eqb_refl.
      * right. eauto.
Qed.

Section FileSystem.

Variable path_exists : string -> bool.
Variable read_file : string -> string + string.
Variable path_type_repr : string.

(** [validate_chat_template] raises on every [Path]: a missing one is a
    [FileNotFoundError], and an existing one reaches the final [else] and
    is a [TypeError]. *)
Theorem validate_rejects_every_path (p : string) :
  validate_chat_template path_exists path_type_repr (Some (Path p)) <> inr tt
  /\ (path_exists p = false ->
      validate_chat_template path_exists path_type_repr (Some (Path p))
      = inl (FileNotFoundError
               "the supplied chat template path doesn't exist"))
  /\ (path_exists p = true ->
      validate_chat_template path_exists path_type_repr (Some (Path p))
      = inl (Py (TypeError (path_type_repr
                            +:+ " is not a valid chat template type")))).
Proof.
  unfold validate_chat_template. destruct (path_exists p); simpl.
  - split; [discriminate | split; [discriminate | reflexivity]].
  - split; [discriminate | split; [reflexivity | discriminate]].
Qed.

(** A [str] is accepted exactly when it holds one of the characters
    [{], [}] or a line feed, or names an existing path. *)
Theorem validate_accepts_text (s : string) :
  validate_chat_template path_exists path_type_repr (Some (Text s)) = inr tt
  <-> (exists c pre post, In c JINJA_CHARS /\ s = pre +:+ String c post)
      \/ path_exists s = true.
Proof.
  unfold validate_chat_template.
  assert (Hj : has_jinja_chars s = true <->
               exists c pre post, In c JINJA_CHARS /\ s = pre +:+ String c post).
  { unfold has_jinja_chars. rewrite existsb_exists. split.
    - intros (c & Hin & Hc). apply char_in_occurs in Hc as (pre & post & ->).
      exists c, pre, post. auto.
    - intros (c & pre & post & Hin & ->). exists c. split; [exact Hin|].
      apply char_in_occurs. eauto. }
  rewrite <- Hj.
  destruct (has_jinja_chars s), (path_exists s); simpl;
    split; auto; try discriminate; intros [H | H]; discriminate H.
Qed.

(** Validation then loading.  A [str] that [validate_chat_template]
    accepts is loaded as the text of the file it names when that file
    opens.  When it does not open, the string is loaded as it is if it
    holds one of the characters [{], [}] or a line feed; otherwise it
    names a path that exists and cannot be opened (a directory, say), and
    loading raises the [ValueError] with the reason: validation does not
    make loading safe. *)
Theorem validated_text_loads (s : string) :
  validate_chat_template path_exists path_type_repr (Some (Text s)) = inr tt ->
  (forall text,
     read_file s = inr text ->
     _load_chat_template read_file (Some (Text s)) false = inr (Some text))
  /\ (forall reason,
        read_file s = inl reason ->
        if has_jinja_chars s then
          _load_chat_template read_file (Some (Text s)) false = inr (Some s)
        else
          path_exists s = true
          /\ _load_chat_template read_file (Some (Text s)) false
             = inl (Py (ValueError
                          ("The supplied chat template (" +:+ s
                           +:+ ") looks like a file path, but it failed to be opened. Reason: "
                           +:+ reason)))).
Proof.
  unfold validate_chat_template, _load_chat_template. intros Hv. split.
  - intros text ->. reflexivity.
  - intros reason ->. destruct (has_jinja_chars s); [reflexivity|].
    destruct (path_exists s); [split; reflexivity | discriminate Hv].
Qed.

End FileSystem.

Lemma validated_text_loads_witness :
  _load_chat_template one_file_read (Some (Text "template.jinja")) false
  = inr (Some "{{ messages }}")
  /\ _load_chat_template one_file_read (Some (Text "templates")) false
     = inl (Py (ValueError
                  "The supplied chat template (templates) looks like a file path, but it failed to be opened. Reason: [Errno 21] Is a directory: 'templates'")).
Proof.
  split.
  - apply (proj1 (validated_text_loads one_file_exists one_file_read
                    "<class 'pathlib.PosixPath'>" "template.jinja" eq_refl)).
    reflexivity.
  - apply (proj2 (validated_text_loads one_file_exists one_file_read
                    "<class 'pathlib.PosixPath'>" "templates" eq_refl)
             "[Errno 21] Is a directory: 'templates'" eq_refl).
Defined.

End TemplatesFacts.

Module ResolveFacts.
Import Analyzer Resolve.

Lemma format_option_eqb_refl a : format_option_eqb a a = true.
Proof. now destruct a. Qed.

Lemma log_key_eqb_refl k : log_key_eqb k k = true.
Proof.
  destruct k as [[[t|] g] d]; simpl;
    rewrite ?String.eqb_refl, !format_option_eqb_refl; reflexivity.
Qed.

(** The memoisation: a call repeated at once with the same arguments logs
    nothing. *)
Theorem log_repeated_call_is_silent chat_template given_format detected_format st :
  logged (_log_chat_template_content_format chat_template given_format
            detected_format
            (_log_chat_template_content_format chat_template given_format
               detected_format st))
  = logged (_log_chat_template_content_format chat_template given_format
              detected_format st).
Proof.
  set (key := (chat_template, given_format, detected_format)).
  assert (Hhit : existsb (log_key_eqb key)
                   (cache (_log_chat_template_content_format chat_template
                             given_format detected_format st)) = true).
  { unfold _log_chat_template_content_format. fold key.
    destruct (existsb (log_key_eqb key) (cache st));
      unfold maxsize; cbn [cache firstn existsb];
      now rewrite log_key_eqb_refl. }
  unfold _log_chat_template_content_format at 1. fold key. now rewrite Hhit.
Qed.

Section Resolution.

Variable name_or_path : string.
Variable get_chat_template : option (list pyval) -> PyExc + string.

(** The priorities of [_resolve_hf_chat_template]: a given template is
    returned whatever the processor and the tokenizer hold; with tools the
    processor is not consulted; and without tools the template of a
    processor that has one is returned whatever the tokenizer holds. *)
Lemma resolve_hf_chat_template_priorities :
  (forall cached_get_processor get_chat_template' t tools trust,
     _resolve_hf_chat_template name_or_path cached_get_processor
       get_chat_template' (Some t) tools trust = ([], Some t))
  /\ (forall processor1 processor2 tools trust,
        _resolve_hf_chat_template name_or_path processor1 get_chat_template
          None (Some tools) trust
        = _resolve_hf_chat_template name_or_path processor2 get_chat_template
            None (Some tools) trust)
  /\ (forall cached_get_processor get_chat_template' trust t,
        cached_get_processor trust
        = inr {| is_ProcessorMixin := true;
                 processor_chat_template := Some t |} ->
        _resolve_hf_chat_template name_or_path cached_get_processor
          get_chat_template' None None trust = ([], Some t)).
Proof.
  split; [reflexivity|]. split; [reflexivity|].
  intros proc get' trust t Hp. unfold _resolve_hf_chat_template.
  now rewrite Hp.
Qed.

Variable cached_get_processor : bool -> PyExc + Processor.
Variable _try_extract_ast : string -> option Node.
Variable is_hf_tokenizer : bool.

Abbreviation resolve_format :=
  (_resolve_chat_template_content_format name_or_path cached_get_processor
     get_chat_template _try_extract_ast is_hf_tokenizer).

(** An explicit format is returned as it is, but only once the detection
    has run: the call finishes for an explicit format exactly when it
    finishes for "auto", with the same debug lines. *)
Theorem explicit_format_after_detection
    fuel chat_template tools given_format trust :
  given_format <> opt_auto ->
  _resolve_chat_template_content_format name_or_path cached_get_processor
    get_chat_template _try_extract_ast is_hf_tokenizer
    fuel chat_template tools given_format trust
  = (fst (_resolve_chat_template_content_format name_or_path
            cached_get_processor get_chat_template _try_extract_ast
            is_hf_tokenizer fuel chat_template tools opt_auto trust),
     match snd (_resolve_chat_template_content_format name_or_path
                  cached_get_processor get_chat_template _try_extract_ast
                  is_hf_tokenizer fuel chat_template tools opt_auto trust) with
     | Returned _ =>
         Returned (match given_format with
                   | opt_openai => fmt_openai
                   | _ => fmt_string
                   end)
     | Raised e => Raised e
     | Unfinished => Unfinished
     end).
Proof.
  intros Hg. unfold _resolve_chat_template_content_format.
  destruct (if is_hf_tokenizer then _ else _) as [debug hf].
  simpl.
  destruct (match match hf with Some t => Some t | None => chat_template end with
            | Some text => _ | None => _ end) as [d|e|];
    destruct given_format; try reflexivity; now elim Hg.
Qed.

Lemma resolve_hf_debug_lines cached tools chat_template trust line :
  In line (fst (_resolve_hf_chat_template name_or_path cached
                  get_chat_template chat_template tools trust)) ->
  exists rest, line = String "F" rest.
Proof.
  unfold _resolve_hf_chat_template.
  destruct chat_template; [intros []|].
  destruct tools as [tools|].
  - destruct (get_chat_template (Some tools)); simpl;
      [intros [<- | []]; eexists; reflexivity | intros []].
  - destruct (cached trust) as [e|p].
    + destruct (get_chat_template None); simpl.
      * intros [<- | [<- | []]]; eexists; reflexivity.
      * intros [<- | []]; eexists; reflexivity.
    + destruct (is_ProcessorMixin p).
      * destruct (processor_chat_template p); [intros []|].
        destruct (get_chat_template None); simpl;
          [intros [<- | []]; eexists; reflexivity | intros []].
      * destruct (get_chat_template None); simpl;
          [intros [<- | []]; eexists; reflexivity | intros []].
Qed.

(** What is returned for a requested format is that format. *)
Lemma resolved_format_is_requested
    fuel chat_template tools given_format trust f :
  snd (resolve_format fuel chat_template tools given_format trust)
  = Returned f ->
  given_format = opt_auto \/ given_format = option_of_format f.
Proof.
  unfold _resolve_chat_template_content_format.
  destruct (if is_hf_tokenizer then _ else _) as [debug hf].
  cbn [snd].
  destruct (match match hf with Some t => Some t | None => chat_template end with
            | Some text => _ | None => _ end) as [d|e|];
    [|discriminate|discriminate].
  destruct given_format; intros [= <-]; auto.
Qed.

(** [resolve_chat_template_content_format] never logs the warning about
    a requested format that differs from the detected one: what it passes
    to the logging function as the detected format is the format it
    returns, which is the requested one whenever one was requested. *)
Theorem resolve_never_warns_of_mismatch
    fuel chat_template tools given_format trust st :
  exists added,
    logged (fst (resolve_chat_template_content_format name_or_path
                   cached_get_processor get_chat_template _try_extract_ast
                   is_hf_tokenizer fuel chat_template tools given_format
                   trust st))
    = logged st ++ added
    /\ forall requested detected,
         ~ In (mismatch_warning requested detected) added.
Proof.
  unfold resolve_chat_template_content_format.
  assert (Hdebug : forall line,
            In line (fst (resolve_format fuel chat_template tools given_format trust)) ->
            exists rest, line = String "F" rest).
  { unfold _resolve_chat_template_content_format.
    destruct is_hf_tokenizer.
    - pose proof (resolve_hf_debug_lines cached_get_processor tools
                    chat_template trust) as Hl.
      destruct (_resolve_hf_chat_template _ _ _ _ _ _) as [debug hf].
      exact Hl.
    - intros line []. }
  pose proof (resolved_format_is_requested fuel chat_template tools
                given_format trust) as Hret.
  destruct (resolve_format fuel chat_template tools given_format trust)
    as [debug [f|e|]]; simpl in *.
  - unfold _log_chat_template_content_format. simpl.
    assert (Hbody : log_body given_format (option_of_format f)
                    = [detected_info (option_of_format f)]).
    { unfold log_body. destruct (Hret f eq_refl) as [-> | ->];
        [reflexivity | now rewrite format_option_eqb_refl, andb_false_r]. }
    destruct (existsb _ _); simpl.
    + exists debug. split; [reflexivity|].
      intros r d Hin. apply Hdebug in Hin as (rest & Hin). discriminate Hin.
    + exists (debug ++ log_body given_format (option_of_format f)).
      split; [now rewrite app_assoc|].
      intros r d Hin. apply in_app_or in Hin as [Hin | Hin].
      * apply Hdebug in Hin as (rest & Hin). discriminate Hin.
      * rewrite Hbody in Hin. destruct Hin as [Hin | []]. discriminate Hin.
  - exists debug. split; [reflexivity|].
    intros r d Hin. apply Hdebug in Hin as (rest & Hin). discriminate Hin.
  - exists debug. split; [reflexivity|].
    intros r d Hin. apply Hdebug in Hin as (rest & Hin). discriminate Hin.
Qed.

End Resolution.

Lemma explicit_format_after_detection_witness :
  _resolve_chat_template_content_format "model" (fun _ => inl AssertionError)
    (fun _ => inl AssertionError) (fun _ => Some structured_ast) false
    2 (Some "{% for message in messages %}...") None opt_string false
  = ([], Returned fmt_string).
Proof.
  exact (explicit_format_after_detection "model" (fun _ => inl AssertionError)
           (fun _ => inl AssertionError) (fun _ => Some structured_ast) false
           2 (Some "{% for message in messages %}...") None opt_string false
           ltac:(discriminate)).
Defined.

(** The logging function itself does warn of a mismatch when it is given
    one. *)
Example log_body_warns :
  log_body opt_string opt_openai
  = [detected_info opt_openai; mismatch_warning opt_string opt_openai].
Proof. reflexivity. Qed.

End ResolveFacts.

Module BuilderFacts.
Import Analyzer Tracker Parts Builder BuilderRuns.

Section Generic.

Context {S : Type} `{BaseMultiModalContentParser S}.

(** On success the parts of one message make one [dict] with the role and
    the content, a [list] for the structured target and a [str] for the
    flat one. *)
Lemma parts_result_shape role parts wrap_dicts (st st' : state S) result :
  _parse_chat_message_content_parts role parts wrap_dicts st
  = (st', inr result) ->
  exists c, result = [[("role", PStr role); ("content", c)]]
            /\ if wrap_dicts then exists l, c = PList l
               else exists s, c = PStr s.
Proof.
  unfold _parse_chat_message_content_parts, bind.
  destruct (parse_parts_loop parts wrap_dicts [] st) as [st1 [e|content]];
    [discriminate|].
  destruct wrap_dicts.
  - intros [= _ <-]. eexists. split; [reflexivity | now eexists].
  - unfold lift. destruct (str_items content) as [e|texts];
      [discriminate|]. unfold ret at 1.
    destruct (mm_placeholder_counts (mm_parser st1)) as [|kv counts].
    + intros [= _ <-]. eexists. split; [reflexivity | now eexists].
    + destruct (Backfill._get_full_multimodal_text_prompt _ _) as [e|s];
        [discriminate|].
      intros [= _ <-]. eexists. split; [reflexivity | now eexists].
Qed.

End Generic.

(** The keys that [attach_fields] sets on the one message. *)
Lemma attach_fields_keys message r c m :
  attach_fields message [("role", r); ("content", c)] = inr m ->
  dict_get m "role" = Some r
  /\ dict_get m "content" = Some c
  /\ dict_get m "tool_calls"
     = (if String.eqb (role message) "assistant"
        then match tool_calls message with
             | Some calls =>
                 match py_iter calls with
                 | inr l => Some (PList l)
                 | inl _ => None
                 end
             | None => None
             end
        else None)
  /\ dict_get m "tool_call_id"
     = (if String.eqb (role message) "tool" then tool_call_id message
        else None)
  /\ dict_get m "name"
     = match name message with
       | Some (PStr n) => Some (PStr n)
       | _ => None
       end.
Proof.
  unfold attach_fields.
  destruct (String.eqb_spec (role message) "assistant") as [Hr | Hr].
  - rewrite Hr. cbn [String.eqb Ascii.eqb Bool.eqb].
    destruct (tool_calls message) as [calls|];
      [destruct (py_iter calls) as [e|l]; [discriminate|]|];
      destruct (name message) as [[]|]; intros [= <-];
      repeat split; reflexivity.
  - destruct (String.eqb (role message) "tool");
      [destruct (tool_call_id message) as [id|]|];
      destruct (name message) as [[]|]; intros [= <-];
      repeat split; reflexivity.
Qed.

Section Blocking.

Variable cfg : TrackerConfig.
Context {Media : Type}.
Variable _connector : MediaConnector Media.
Variable str_of_container : pyval -> string.

Abbreviation parse_message :=
  (_parse_chat_message_content cfg _connector str_of_container).
Abbreviation parse_messages :=
  (parse_messages_loop cfg _connector str_of_container).

Lemma parse_message_result message content_format (rq rq' : request) result :
  parse_message message content_format rq = (rq', inr result) ->
  exists m c,
    result = [m]
    /\ attach_fields message [("role", PStr (role message)); ("content", c)]
       = inr m
    /\ match content_format with
       | fmt_openai => exists l, c = PList l
       | fmt_string => exists s, c = PStr s
       end.
Proof.
  unfold _parse_chat_message_content, parse_parts_of.
  destruct (py_iter _) as [e|parts]; [discriminate|].
  destruct (_parse_chat_message_content_parts _ _ _ _) as [st [e|res]] eqn:Hp;
    [discriminate|].
  apply parts_result_shape in Hp as (c & -> & Hc).
  cbn [attach_all].
  destruct (attach_fields message _) as [e|m] eqn:Hm; [discriminate|].
  intros [= _ <-]. exists m, c. repeat split; [exact Hm|].
  now destruct content_format.
Qed.

(** When [_parse_chat_message_content] returns, it returns one message;
    it has the role of the input and a content, a [str] for the flat
    target and a [list] for the structured one; it has "tool_calls" only
    for an assistant input that has them (as a new list of the same
    items), "tool_call_id" only for a tool input that has one, and "name"
    only for an input whose name is a [str]. *)
Theorem message_yields_one_canonical_message
    message content_format (rq rq' : request) result :
  parse_message message content_format rq = (rq', inr result) ->
  exists m c,
    result = [m]
    /\ dict_get m "role" = Some (PStr (role message))
    /\ dict_get m "content" = Some c
    /\ match content_format with
       | fmt_openai => exists l, c = PList l
       | fmt_string => exists s, c = PStr s
       end
    /\ dict_get m "tool_calls"
       = (if String.eqb (role message) "assistant"
          then match tool_calls message with
               | Some calls =>
                   match py_iter calls with
                   | inr l => Some (PList l)
                   | inl _ => None
                   end
               | None => None
               end
          else None)
    /\ dict_get m "tool_call_id"
       = (if String.eqb (role message) "tool" then tool_call_id message
          else None)
    /\ dict_get m "name"
       = match name message with
         | Some (PStr n) => Some (PStr n)
         | _ => None
         end.
Proof.
  intros Hrun.
  apply parse_message_result in Hrun as (m & c & -> & Hm & Hc).
  apply attach_fields_keys in Hm as (Hrole & Hcontent & Hcalls & Hid & Hname).
  exists m, c. repeat split; assumption.
Qed.

(** When the loop over the messages of a request completes, the
    conversation has grown by one message for each input message, in the
    order of the input and with the input's roles. *)
Theorem conversation_follows_messages messages content_format :
  forall conversation (rq rq' : request) conversation',
  parse_messages messages content_format conversation rq
  = (rq', inr conversation') ->
  exists sub_messages,
    conversation' = conversation ++ sub_messages
    /\ map (fun m => dict_get m "role") sub_messages
       = map (fun message => Some (PStr (role message))) messages.
Proof.
  induction messages as [|message messages IH];
    intros conversation rq rq' conversation'.
  - intros [= _ <-]. exists []. now rewrite app_nil_r.
  - cbn [parse_messages_loop].
    destruct (parse_message message content_format rq) as [rq1 [e|sub]] eqn:Hm;
      [discriminate|].
    intros Hrest.
    apply parse_message_result in Hm as (m & c & -> & Hm & _).
    apply attach_fields_keys in Hm as (Hrole & _).
    apply IH in Hrest as (rest & -> & Hroles).
    exists (m :: rest). split; [now rewrite <- app_assoc|].
    cbn [map]. now rewrite Hrole, Hroles.
Qed.

(** A message without content, with [None] as content, with the empty
    string or with an empty list of parts adds nothing to the tracker; its
    content is the empty string for the flat target and the empty list for
    the structured one. *)
Theorem empty_content_message message content_format (rq : request) :
  content message = PNone \/ content message = PStr ""
  \/ content message = PList [] ->
  mm_tracker (parse_message message content_format rq).1 = mm_tracker rq
  /\ (parse_message message content_format rq).2
     = attach_all message
         [[("role", PStr (role message));
           ("content", match content_format with
                       | fmt_openai => PList []
                       | fmt_string => PStr ""
                       end)]].
Proof.
  unfold _parse_chat_message_content.
  intros [-> | [-> | ->]]; destruct content_format; split; reflexivity.
Qed.

(** The limit on a modality is on the request, not on the message: a
    message whose first part is an image that loads is rejected when the
    messages before it have used up the images allowed; nothing is
    recorded for it. *)
Theorem image_limit_spans_messages
    message content_format (rq : request) url rest medium :
  let allowed_count := default 1%Z (_allowed_items cfg !! "image") in
  content message = PList (image_url_part url :: rest) ->
  url <> "" ->
  fetch_image _connector (PStr url) = inr medium ->
  (allowed_count < Z.of_nat (count_of (mm_tracker rq) "image") + 1)%Z ->
  (parse_message message content_format rq).2
  = inl (limit_exceeded allowed_count "image")
  /\ forall modality,
       default [] (mm_tracker (parse_message message content_format rq).1
                   !! modality)
       = default [] (mm_tracker rq !! modality).
Proof.
  intros allowed_count Hcontent Hurl Hfetch Hfull.
  assert (Hadd : add cfg (mm_tracker rq) "image" (Medium medium)
                 = ((defaultdict_getitem (mm_tracker rq) "image").1,
                    inl (limit_exceeded allowed_count "image"))).
  { rewrite TrackerFacts.add_unfold. cbv zeta. fold allowed_count.
    destruct (Z.ltb_spec allowed_count
                (Z.of_nat (count_of (mm_tracker rq) "image") + 1)); [|lia].
    reflexivity. }
  assert (Hrun : parse_message message content_format rq
                 = ({| mm_tracker := (defaultdict_getitem (mm_tracker rq) "image").1;
                       log := log rq |},
                    inl (limit_exceeded allowed_count "image"))).
  { unfold _parse_chat_message_content, parse_parts_of. rewrite Hcontent.
    cbn [py_iter]. unfold _parse_chat_message_content_parts.
    unfold bind at 1. cbn [parse_parts_loop]. unfold bind at 1.
    unfold _parse_chat_message_content_part, image_url_part,
      _parse_chat_message_content_mm_part.
    cbn [dict_get_default List.find fst snd String.eqb Ascii.eqb Bool.eqb
         MM_PARSER_MAP py_get eq_str negb andb].
    unfold bind, warn, lift, ret, call. cbv beta iota zeta.
    cbn [fst snd mm_parser warnings truthy].
    assert (String.eqb url "" = false) as -> by now apply String.eqb_neq.
    cbn [negb andb str_in existsb String.eqb Ascii.eqb Bool.eqb orb
         VALID_MESSAGE_CONTENT_MM_PART_TYPES].
    cbv iota.
    cbn [parse_image MultiModalContentParser].
    unfold fetch_then_track. rewrite Hfetch. unfold track, create_parser.
    cbn [_items_by_modality _placeholder_counts mm_parser warnings].
    rewrite Hadd. cbn [_items_by_modality mm_parser warnings].
    destruct content_format; now rewrite app_nil_r. }
  rewrite Hrun. split; [reflexivity|].
  intros modality. cbn [fst mm_tracker]. unfold defaultdict_getitem.
  destruct (mm_tracker rq !! "image") as [l|] eqn:Hl; [reflexivity|].
  cbn [fst].
  destruct (String.eqb_spec modality "image") as [-> | Hne].
  - now rewrite lookup_insert_eq, Hl.
  - now rewrite lookup_insert_ne by congruence.
Qed.

End Blocking.

(** *** Preparing the conversation for the template *)

(** [_convert_message] returns its own results as they are: what it
    builds has the five keys it knows in its own order. *)
Theorem convert_message_idempotent msg m :
  _convert_message msg = inr m -> _convert_message m = inr m.
Proof.
  unfold _convert_message at 1.
  destruct (dict_get msg "role") as [r|]; [|discriminate].
  destruct (dict_get msg "content") as [c|];
    destruct (dict_get msg "name") as [n|];
    destruct (dict_get msg "tool_calls") as [calls|];
    destruct (dict_get msg "tool_call_id") as [id|];
    intros [= <-]; reflexivity.
Qed.

(** [_convert_message] keeps the role, gives every message a content (the
    empty string when there was none), keeps "name", "tool_calls" and
    "tool_call_id" as they were, and drops every other key. *)
Theorem convert_message_keys msg m :
  _convert_message msg = inr m ->
  dict_get m "role" = dict_get msg "role"
  /\ dict_get m "content" = Some (default (PStr "") (dict_get msg "content"))
  /\ dict_get m "name" = dict_get msg "name"
  /\ dict_get m "tool_calls" = dict_get msg "tool_calls"
  /\ dict_get m "tool_call_id" = dict_get msg "tool_call_id"
  /\ forall key, In key (map fst m) ->
       In key ["role"; "content"; "name"; "tool_calls"; "tool_call_id"].
Proof.
  unfold _convert_message.
  destruct (dict_get msg "role") as [r|]; [|discriminate].
  destruct (dict_get msg "content") as [c|];
    destruct (dict_get msg "name") as [n|];
    destruct (dict_get msg "tool_calls") as [calls|];
    destruct (dict_get msg "tool_call_id") as [id|];
    intros [= <-]; repeat split; try reflexivity;
    intros key Hin; simpl in Hin |- *; tauto.
Qed.

Lemma last_is_assistant_snoc conv m :
  last_is_assistant (conv ++ [m])
  = match dict_get m "role" with
    | None => inl (KeyError "role")
    | Some r => inr (eq_str r "assistant")
    end.
Proof.
  unfold last_is_assistant. rewrite List.map_app. cbn [map].
  now rewrite List.last_last.
Qed.

(** With a generation prompt asked for (the default), the conversation
    handed to the template ends with an assistant message whenever
    [conv_for_formatting] is built: the last one of the input when the
    final message is to be continued and is the assistant's, an empty one
    appended otherwise. *)
Theorem generation_prompt_ends_with_assistant conversation kwargs conv :
  truthy (dict_get_default kwargs "add_generation_prompt" (PBool true)) = true ->
  conv_for_formatting conversation kwargs = inr conv ->
  last_is_assistant conv = inr true
  /\ (conv = conversation
      \/ conv = conversation
                ++ [[("role", PStr "assistant"); ("content", PStr "")]]).
Proof.
  intros Hgen. unfold conv_for_formatting. rewrite Hgen.
  destruct (truthy (dict_get_default kwargs "continue_final_message" _)
            && _) eqn:Hc.
  - destruct (last_is_assistant conversation) as [e|[]] eqn:Hl;
      [discriminate| |]; intros [= <-].
    + split; [exact Hl | now left].
    + split; [now rewrite last_is_assistant_snoc | now right].
  - intros [= <-]. split; [now rewrite last_is_assistant_snoc | now right].
Qed.

(** Without a generation prompt, one final assistant message is taken off
    and nothing else changes. *)
Theorem no_generation_prompt_drops_final_assistant conversation kwargs conv :
  truthy (dict_get_default kwargs "add_generation_prompt" (PBool true)) = false ->
  conv_for_formatting conversation kwargs = inr conv ->
  (last_is_assistant conversation = inr true
   /\ conv = List.removelast conversation /\ conversation <> [])
  \/ (last_is_assistant conversation = inr false /\ conv = conversation).
Proof.
  intros Hgen. unfold conv_for_formatting. rewrite Hgen.
  destruct conversation as [|m conversation].
  - intros [= <-]. right. split; reflexivity.
  - destruct (last_is_assistant (m :: conversation)) as [e|[]] eqn:Hl;
      [discriminate| |]; intros [= <-]; [left | right]; auto.
Qed.

(** *** From the parser to the template *)

Lemma last_has_role (conv : list (list (string * pyval))) :
  Forall (fun m => dict_get m "role" <> None) conv ->
  match List.last (map Some conv) None with
  | Some final => dict_get final "role" <> None
  | None => True
  end.
Proof.
  induction 1 as [|m conv Hm Hall IH]; [exact I|].
  destruct conv as [|m' conv]; [exact Hm | exact IH].
Qed.

Lemma last_is_assistant_returns (conv : list (list (string * pyval))) :
  Forall (fun m => dict_get m "role" <> None) conv ->
  exists b, last_is_assistant conv = inr b.
Proof.
  intros Hall. apply last_has_role in Hall. unfold last_is_assistant.
  destruct (List.last (map Some conv) None) as [final|]; [|now exists false].
  destruct (dict_get final "role") as [r|]; [now eexists | now elim Hall].
Qed.

Lemma removelast_Forall {A : Type} (P : A -> Prop) (l : list A) :
  Forall P l -> Forall P (List.removelast l).
Proof.
  induction 1 as [|x l Hx Hall IH]; [constructor|].
  destruct l as [|y l]; [constructor|]. constructor; assumption.
Qed.

Lemma conv_for_formatting_returns conversation kwargs :
  Forall (fun m => dict_get m "role" <> None) conversation ->
  exists conv,
    conv_for_formatting conversation kwargs = inr conv
    /\ Forall (fun m => dict_get m "role" <> None) conv.
Proof.
  intros Hall.
  assert (Hturn : Forall (fun m => dict_get m "role" <> None)
                    (conversation
                     ++ [[("role", PStr "assistant"); ("content", PStr "")]])).
  { apply Forall_app. split; [exact Hall|]. repeat constructor. discriminate. }
  destruct (last_is_assistant_returns conversation Hall) as [b Hb].
  unfold conv_for_formatting. rewrite Hb.
  destruct (truthy (dict_get_default kwargs "add_generation_prompt" _)).
  - destruct (truthy (dict_get_default kwargs "continue_final_message" _)
              && _); [destruct b|]; eauto.
  - destruct conversation as [|m conversation]; [eauto|].
    destruct b; eauto using removelast_Forall.
Qed.

Lemma convert_all_returns conv :
  Forall (fun m => dict_get m "role" <> None) conv ->
  exists converted,
    convert_all conv = inr converted
    /\ map (fun m => dict_get m "role") converted
       = map (fun m => dict_get m "role") conv.
Proof.
  induction 1 as [|m conv Hm Hall (converted & Hc & Hroles)];
    [now exists []|].
  cbn [convert_all].
  destruct (_convert_message m) as [e|m'] eqn:Hconv.
  - unfold _convert_message in Hconv.
    destruct (dict_get m "role"); [discriminate Hconv | now elim Hm].
  - rewrite Hc. exists (m' :: converted). split; [reflexivity|].
    cbn [map]. rewrite Hroles. f_equal.
    unfold _convert_message in Hconv.
    destruct (dict_get m "role") as [r|]; [|discriminate Hconv].
    destruct (dict_get m "content"), (dict_get m "name"),
      (dict_get m "tool_calls"), (dict_get m "tool_call_id");
      injection Hconv as <-; reflexivity.
Qed.

Section Pipeline.

Variable cfg : TrackerConfig.
Context {Media : Type}.
Variable _connector : MediaConnector Media.
Variable str_of_container : pyval -> string.

Lemma parse_messages_have_role messages content_format :
  forall conversation (rq rq' : request (Media := Media)) conversation',
  Forall (fun m => dict_get m "role" <> None) conversation ->
  parse_messages_loop cfg _connector str_of_container messages
    content_format conversation rq = (rq', inr conversation') ->
  Forall (fun m => dict_get m "role" <> None) conversation'.
Proof.
  induction messages as [|message messages IH];
    intros conversation rq rq' conversation' Hall.
  - now intros [= _ <-].
  - cbn [parse_messages_loop].
    destruct (_parse_chat_message_content _ _ _ message content_format rq)
      as [rq1 [e|sub]] eqn:Hm; [discriminate|].
    apply parse_message_result in Hm as (m & c & -> & Hm & _).
    apply attach_fields_keys in Hm as (Hrole & _).
    apply IH. apply Forall_app. split; [exact Hall|].
    constructor; [now rewrite Hrole | constructor].
Qed.

(** What the parser builds, the template step accepts: the conversation
    that the loop over the messages returns is turned into the
    conversation for formatting and converted message by message without
    a failure, whatever the keyword arguments; the converted messages
    keep the roles. *)
Theorem parsed_conversation_is_converted
    messages content_format (rq rq' : request (Media := Media))
    conversation kwargs :
  parse_messages_loop cfg _connector str_of_container messages
    content_format [] rq = (rq', inr conversation) ->
  exists conv converted,
    conv_for_formatting conversation kwargs = inr conv
    /\ convert_all conv = inr converted
    /\ map (fun m => dict_get m "role") converted
       = map (fun m => dict_get m "role") conv.
Proof.
  intros Hrun.
  apply parse_messages_have_role in Hrun; [|constructor].
  destruct (conv_for_formatting_returns conversation kwargs Hrun)
    as (conv & Hconv & Hall).
  destruct (convert_all_returns conv Hall) as (converted & Hc & Hroles).
  now exists conv, converted.
Qed.

End Pipeline.

Lemma parsed_conversation_is_converted_witness :
  exists conv converted,
    conv_for_formatting
      [[("role", PStr "user"); ("content", PStr "Hi.")]] []
    = inr conv
    /\ convert_all conv = inr converted
    /\ map (fun m => dict_get m "role") converted
       = map (fun m => dict_get m "role") conv.
Proof.
  apply (parsed_conversation_is_converted mllama_two_images echo_connector
           (fun _ => "") [user_message "Hi."] fmt_string fresh_request
           (parse_messages_loop mllama_two_images echo_connector
              (fun _ => "") [user_message "Hi."] fmt_string []
              fresh_request).1).
  reflexivity.
Defined.

Lemma message_yields_one_canonical_message_witness :
  exists m c,
    (_parse_chat_message_content mllama_two_images echo_connector
       (fun _ => "") assistant_call_message fmt_string fresh_request).2
    = inr [m]
    /\ dict_get m "role" = Some (PStr "assistant")
    /\ dict_get m "content" = Some c
    /\ dict_get m "tool_calls" = Some (PList [PDict [("id", PStr "call_0")]])
    /\ dict_get m "tool_call_id" = None
    /\ dict_get m "name" = Some (PStr "helper").
Proof.
  destruct (message_yields_one_canonical_message mllama_two_images
              echo_connector (fun _ => "") assistant_call_message fmt_string
              fresh_request
              (_parse_chat_message_content mllama_two_images echo_connector
                 (fun _ => "") assistant_call_message fmt_string
                 fresh_request).1
              [[("role", PStr "assistant"); ("content", PStr "");
                ("tool_calls", PList [PDict [("id", PStr "call_0")]]);
                ("name", PStr "helper")]] eq_refl)
    as (m & c & Hm & Hrole & Hcontent & _ & Hcalls & Hid & Hname).
  exists m, c. injection Hm as <-.
  repeat split; first [assumption | reflexivity].
Defined.

Lemma conversation_follows_messages_witness :
  exists sub_messages,
    (parse_messages_loop mllama_two_images echo_connector (fun _ => "")
       [user_message "Hi."; assistant_call_message] fmt_openai []
       fresh_request).2
    = inr ([] ++ sub_messages)
    /\ map (fun m => dict_get m "role") sub_messages
       = [Some (PStr "user"); Some (PStr "assistant")].
Proof.
  destruct (conversation_follows_messages mllama_two_images echo_connector
              (fun _ => "") [user_message "Hi."; assistant_call_message]
              fmt_openai [] fresh_request
              (parse_messages_loop mllama_two_images echo_connector
                 (fun _ => "") [user_message "Hi."; assistant_call_message]
                 fmt_openai [] fresh_request).1
              [[("role", PStr "user");
                ("content", PList [text_part "Hi."])];
               [("role", PStr "assistant"); ("content", PList []);
                ("tool_calls", PList [PDict [("id", PStr "call_0")]]);
                ("name", PStr "helper")]] eq_refl)
    as (sub & Hsub & Hroles).
  exists sub. split; [now rewrite <- Hsub | exact Hroles].
Defined.

Lemma empty_content_message_witness :
  (_parse_chat_message_content mllama_two_images echo_connector (fun _ => "")
     (user_message "") fmt_string two_image_request).2
  = inr [[("role", PStr "user"); ("content", PStr "")]].
Proof.
  apply (proj2 (empty_content_message mllama_two_images echo_connector
                  (fun _ => "") (user_message "") fmt_string
                  two_image_request (or_intror (or_introl eq_refl)))).
Defined.

Lemma image_limit_spans_messages_witness :
  (_parse_chat_message_content mllama_two_images echo_connector (fun _ => "")
     (image_message "http://a/3.png") fmt_string two_image_request).2
  = inl (limit_exceeded 2 "image").
Proof.
  apply (proj1 (image_limit_spans_messages mllama_two_images echo_connector
                  (fun _ => "") (image_message "http://a/3.png") fmt_string
                  two_image_request "http://a/3.png" []
                  (PStr "http://a/3.png") eq_refl
                  ltac:(discriminate) eq_refl ltac:(vm_compute; reflexivity))).
Defined.

Lemma convert_message_idempotent_witness :
  _convert_message
    [("role", PStr "user"); ("content", PStr ""); ("name", PStr "ana")]
  = inr [("role", PStr "user"); ("content", PStr ""); ("name", PStr "ana")].
Proof.
  apply (convert_message_idempotent annotated_message). reflexivity.
Defined.

Lemma convert_message_keys_witness :
  dict_get [("role", PStr "user"); ("content", PStr ""); ("name", PStr "ana")]
    "content"
  = Some (default (PStr "") (dict_get annotated_message "content"))
  /\ dict_get
       [("role", PStr "user"); ("content", PStr ""); ("name", PStr "ana")]
       "name"
     = dict_get annotated_message "name".
Proof.
  destruct (convert_message_keys annotated_message
              [("role", PStr "user"); ("content", PStr "");
               ("name", PStr "ana")] eq_refl)
    as (_ & Hcontent & Hname & _).
  split; assumption.
Defined.

Lemma generation_prompt_ends_with_assistant_witness :
  last_is_assistant
    [[("role", PStr "user"); ("content", PStr "Hi.")];
     [("role", PStr "assistant"); ("content", PStr "")]]
  = inr true.
Proof.
  apply (generation_prompt_ends_with_assistant
           [[("role", PStr "user"); ("content", PStr "Hi.")]] []);
    reflexivity.
Defined.

Lemma no_generation_prompt_drops_final_assistant_witness :
  (last_is_assistant
     [[("role", PStr "user"); ("content", PStr "Hi.")];
      [("role", PStr "assistant"); ("content", PStr "Hello.")]] = inr true
   /\ [[("role", PStr "user"); ("content", PStr "Hi.")]]
      = List.removelast
          [[("role", PStr "user"); ("content", PStr "Hi.")];
           [("role", PStr "assistant"); ("content", PStr "Hello.")]]
   /\ [[("role", PStr "user"); ("content", PStr "Hi.")];
       [("role", PStr "assistant"); ("content", PStr "Hello.")]] <> [])
  \/ (last_is_assistant
        [[("role", PStr "user"); ("content", PStr "Hi.")];
         [("role", PStr "assistant"); ("content", PStr "Hello.")]] = inr false
      /\ [[("role", PStr "user"); ("content", PStr "Hi.")]]
         = [[("role", PStr "user"); ("content", PStr "Hi.")];
            [("role", PStr "assistant"); ("content", PStr "Hello.")]]).
Proof.
  apply (no_generation_prompt_drops_final_assistant
           [[("role", PStr "user"); ("content", PStr "Hi.")];
            [("role", PStr "assistant"); ("content", PStr "Hello.")]]
           [("add_generation_prompt", PBool false)]);
    reflexivity.
Defined.

End BuilderFacts.

Module PostRunsFacts.
Import Post PostFacts PostRuns.

Section Generic.

Variable loads : string -> option pyval.

(** The pass does not undo itself and is not to be run twice: after it
    has completed, a second run stops at the first tool call, whose
    arguments are no longer a text, unless that text decoded to a string:
    [json.loads] raises the [TypeError] that names the type of the decoded
    value; the records stay as the first run left them. *)
Theorem postprocess_second_run_fails messages (h h' : heap) fn rest :
  tool_call_records messages = fn :: rest ->
  List.NoDup (tool_call_records messages) ->
  (forall text s, arguments_of h fn = Some (PStr text) ->
                  loads text <> Some (PStr s)) ->
  _postprocess_messages loads messages h = (h', inr tt) ->
  exists value,
    arguments_of h' fn = Some value
    /\ _postprocess_messages loads messages h'
       = (h', inl (TypeError
                     ("the JSON object must be str, bytes or bytearray, not "
                      +:+ type_name value))).
Proof.
  intros Hrecords Hnd Hnot_str Hrun.
  rewrite postprocess_records in Hrun |- *.
  destruct (decode_records_ok loads _ _ _ Hnd Hrun) as [Hin _].
  rewrite Hrecords in Hin |- *.
  destruct (Hin fn (or_introl eq_refl))
    as (record & text & value & Hr & Ha & Hl & Hh').
  exists value. split.
  { unfold arguments_of. rewrite Hh'. apply dict_get_set_eq. }
  cbn [decode_records]. unfold decode_arguments.
  rewrite Hh', dict_get_set_eq.
  assert (Hargs : arguments_of h fn = Some (PStr text))
    by (unfold arguments_of; now rewrite Hr).
  destruct value as [| | |s| |]; try reflexivity.
  now elim (Hnot_str text s Hargs).
Qed.

(** A failure is not rolled back: when the text of one tool call does not
    decode, the pass stops there with the decoder's failure, the records
    of the tool calls before it hold their decoded values, and every other
    record is as it was. *)
Theorem postprocess_failure_keeps_decoded
    messages (h : heap) fns1 fn fns2 text :
  tool_call_records messages = fns1 ++ fn :: fns2 ->
  List.NoDup fns1 -> ~ In fn fns1 ->
  (forall f, In f fns1 -> exists value, encodes loads h f value) ->
  arguments_of h fn = Some (PStr text) -> loads text = None ->
  exists h',
    _postprocess_messages loads messages h = (h', inl JSONDecodeError)
    /\ (forall f, In f fns1 ->
          exists value, encodes loads h f value
                        /\ arguments_of h' f = Some value)
    /\ (forall f, ~ In f fns1 -> h' !! f = h !! f).
Proof.
  intros Hrecords Hnd Hfresh Hall Hargs Hbad.
  rewrite postprocess_records, Hrecords, decode_records_app.
  destruct (decode_records_total loads fns1 h Hnd Hall) as [h1 Hrun].
  rewrite Hrun.
  destruct (decode_records_ok loads _ _ _ Hnd Hrun) as [Hin Hout].
  exists h1. split; [|split].
  - cbn [decode_records]. unfold decode_arguments.
    rewrite (Hout fn Hfresh).
    unfold arguments_of in Hargs.
    destruct (h !! fn) as [record|]; [|discriminate Hargs].
    now rewrite Hargs, Hbad.
  - intros f Hf.
    destruct (Hin f Hf) as (record & t & value & Hr & Ha & Hl & Hh1).
    exists value. split.
    + exists t. split; [|exact Hl]. unfold arguments_of. now rewrite Hr.
    + unfold arguments_of. rewrite Hh1. apply dict_get_set_eq.
  - exact Hout.
Qed.

End Generic.

Lemma postprocess_second_run_fails_witness :
  _postprocess_messages json_loads [calling_message]
    (_postprocess_messages json_loads [calling_message] wire_heap).1
  = ((_postprocess_messages json_loads [calling_message] wire_heap).1,
     inl (TypeError
            "the JSON object must be str, bytes or bytearray, not dict")).
Proof.
  destruct (postprocess_second_run_fails json_loads [calling_message]
              wire_heap
              (_postprocess_messages json_loads [calling_message] wire_heap).1
              1%positive [])
    as (value & Hvalue & Hrun).
  - reflexivity.
  - constructor; [intros [] | constructor].
  - intros text s Hargs. vm_compute in Hargs. injection Hargs as <-.
    vm_compute. discriminate.
  - reflexivity.
  - vm_compute in Hvalue. injection Hvalue as <-. exact Hrun.
Defined.

Lemma postprocess_failure_keeps_decoded_witness :
  exists h',
    _postprocess_messages json_loads [two_call_message] cut_short_heap
    = (h', inl JSONDecodeError)
    /\ (forall f, In f [1%positive] ->
          exists value, encodes json_loads cut_short_heap f value
                        /\ arguments_of h' f = Some value)
    /\ (forall f, ~ In f [1%positive] -> h' !! f = cut_short_heap !! f).
Proof.
  apply (postprocess_failure_keeps_decoded json_loads [two_call_message]
           cut_short_heap [1%positive] 2%positive [] "{").
  - reflexivity.
  - constructor; [intros [] | constructor].
  - intros [H | []]. discriminate H.
  - intros f [<- | []]. exists (PDict [("a", PInt 1)]), a_1_text.
    split; reflexivity.
  - reflexivity.
  - reflexivity.
Defined.

End PostRunsFacts.

Module AsyncPartsFacts.
Import Tracker Parts AsyncParts.

Section Simulation.

Context {S1 S2 : Type}.
Variable P1 : BaseMultiModalContentParser S1.
Variable P2 : BaseMultiModalContentParser S2.
Variable R : S1 -> S2 -> Prop.

Hypothesis R_counts :
  forall p q, R p q ->
    @mm_placeholder_counts _ P1 p = @mm_placeholder_counts _ P2 q.
Hypothesis R_image : follows R (@parse_image _ P1) (@parse_image _ P2).
Hypothesis R_image_embeds :
  follows R (@parse_image_embeds _ P1) (@parse_image_embeds _ P2).
Hypothesis R_audio : follows R (@parse_audio _ P1) (@parse_audio _ P2).
Hypothesis R_input_audio :
  follows R (@parse_input_audio _ P1) (@parse_input_audio _ P2).
Hypothesis R_video : follows R (@parse_video _ P1) (@parse_video _ P2).

Lemma simulates_ret {A : Type} (a : A) :
  simulates R (ret (S := S1) a) (ret (S := S2) a).
Proof.
  intros st1 st2 st1' a' Hrel. unfold ret. intros [= <- <-]. now exists st2.
Qed.

Lemma simulates_raise {A : Type} e (c2 : state S2 -> state S2 * (PyExc + A)) :
  simulates R (raise (S := S1) e) c2.
Proof. intros st1 st2 st1' a Hrel. discriminate. Qed.

Lemma simulates_bind {A B : Type} c1 c2
    (k1 : A -> state S1 -> state S1 * (PyExc + B))
    (k2 : A -> state S2 -> state S2 * (PyExc + B)) :
  simulates R c1 c2 -> (forall a, simulates R (k1 a) (k2 a)) ->
  simulates R (bind c1 k1) (bind c2 k2).
Proof.
  intros Hc Hk st1 st2 st1' b Hrel. unfold bind.
  destruct (c1 st1) as [s1 [e|a]] eqn:E; [discriminate|].
  destruct (Hc _ _ _ _ Hrel E) as (s2 & -> & Hs).
  now apply Hk.
Qed.

Lemma simulates_warn msgs :
  simulates R (warn (S := S1) msgs) (warn (S := S2) msgs).
Proof.
  intros st1 st2 st1' a [Hp Hw]. unfold warn. intros [= <- <-].
  eexists. split; [reflexivity|]. split; [exact Hp | simpl; now rewrite Hw].
Qed.

Lemma simulates_lift {A : Type} (r : PyExc + A) :
  simulates R (lift (S := S1) r) (lift (S := S2) r).
Proof.
  destruct r as [e|a]; [apply simulates_raise | apply simulates_ret].
Qed.

Lemma simulates_call m1 m2 v :
  follows R m1 m2 -> simulates R (call (m1 v)) (call (m2 v)).
Proof.
  intros Hf st1 st2 st1' [] [Hp Hw]. unfold call.
  destruct (m1 v (mm_parser st1)) as [p' [e|[]]] eqn:E1; [discriminate|].
  intros [= <-].
  destruct (Hf v _ _ _ Hp E1) as (q' & -> & Hq).
  eexists. split; [reflexivity|]. split; [exact Hq | exact Hw].
Qed.

Lemma part_simulates part wrap_dicts :
  simulates R (@_parse_chat_message_content_part _ P1 part wrap_dicts)
    (@_parse_chat_message_content_part _ P2 part wrap_dicts).
Proof.
  unfold _parse_chat_message_content_part.
  assert (Hmedia : forall m1 m2 v kind,
             follows R m1 m2 ->
             simulates R
               (bind (call (m1 v)) (fun _ => ret (marker wrap_dicts kind)))
               (bind (call (m2 v)) (fun _ => ret (marker wrap_dicts kind)))).
  { intros m1 m2 v kind Hf. apply simulates_bind;
      [now apply simulates_call | intros _; apply simulates_ret]. }
  destruct part; try apply simulates_ret;
    destruct (_parse_chat_message_content_mm_part _) as [logged parsed];
    (apply simulates_bind; [apply simulates_warn | intros _]);
    (apply simulates_bind; [apply simulates_lift | intros [part_type content]]);
    (destruct (str_in part_type VALID_MESSAGE_CONTENT_MM_PART_TYPES
               && negb (truthy content));
     [apply simulates_bind; [apply simulates_warn | intros _; apply simulates_ret]|]);
    (destruct (str_in part_type ["text"; "refusal"]);
     [destruct wrap_dicts; apply simulates_ret|]);
    (destruct (String.eqb part_type "image_url"); [now apply Hmedia|]);
    (destruct (String.eqb part_type "image_embeds"); [now apply Hmedia|]);
    (destruct (String.eqb part_type "audio_url"); [now apply Hmedia|]);
    (destruct (String.eqb part_type "input_audio"); [now apply Hmedia|]);
    (destruct (String.eqb part_type "video_url"); [now apply Hmedia|]);
    apply simulates_raise.
Qed.

Lemma loop_simulates parts wrap_dicts : forall content,
  simulates R (@parse_parts_loop _ P1 parts wrap_dicts content)
    (@parse_parts_loop _ P2 parts wrap_dicts content).
Proof.
  induction parts as [|part parts IH]; intros content.
  - apply simulates_ret.
  - cbn [parse_parts_loop]. apply simulates_bind;
      [apply part_simulates | intros res; apply IH].
Qed.

Lemma parts_simulate role parts wrap_dicts :
  simulates R (@_parse_chat_message_content_parts _ P1 role parts wrap_dicts)
    (@_parse_chat_message_content_parts _ P2 role parts wrap_dicts).
Proof.
  unfold _parse_chat_message_content_parts.
  apply simulates_bind; [apply loop_simulates | intros content].
  destruct wrap_dicts; [apply simulates_ret|].
  apply simulates_bind; [apply simulates_lift | intros texts].
  intros st1 st2 st1' a Hrel.
  rewrite <- (R_counts _ _ (proj1 Hrel)).
  destruct (@mm_placeholder_counts _ P1 (mm_parser st1)) as [|kv counts].
  - now apply simulates_ret.
  - revert st1 st2 st1' a Hrel. fold (simulates R (A := list (list (string * pyval)))).
    apply simulates_bind; [apply simulates_lift | intros prompt].
    apply simulates_ret.
Qed.

End Simulation.

Section Async.

Variable cfg : TrackerConfig.
Context {Media : Type}.
Variable _connector : MediaConnector Media.
Variable str_of_container : pyval -> string.

Abbreviation blocking :=
  (MultiModalContentParser cfg _connector str_of_container).
Abbreviation pending :=
  (AsyncMultiModalContentParser cfg _connector str_of_container).

(** [add] looks at the number of items only. *)
Lemma add_same_counts {T1 T2 : Type}
    (items1 : gmap string (list T1)) (items2 : gmap string (list T2))
    modality x1 x2 :
  (forall m, length <$> (items1 !! m) = length <$> (items2 !! m)) ->
  (add cfg items1 modality x1).2 = (add cfg items2 modality x2).2
  /\ forall m, length <$> ((add cfg items1 modality x1).1 !! m)
               = length <$> ((add cfg items2 modality x2).1 !! m).
Proof.
  intros Hsame. unfold add, defaultdict_getitem.
  pose proof (Hsame modality) as Hm.
  destruct (items1 !! modality) as [l1|] eqn:E1,
           (items2 !! modality) as [l2|] eqn:E2;
    try discriminate Hm; cbn [fmap option_fmap option_map] in Hm.
  - injection Hm as Hlen. rewrite Hlen.
    destruct (_ <? _)%Z; cbn [fst snd]; (split; [reflexivity|]); [exact Hsame|].
    intros m. destruct (decide (m = modality)) as [-> | Hne].
    + rewrite !lookup_insert_eq. simpl. now rewrite !length_app, Hlen.
    + rewrite !lookup_insert_ne by congruence. apply Hsame.
  - cbn [length].
    destruct (_ <? _)%Z; cbn [fst snd]; (split; [reflexivity|]);
      intros m; destruct (decide (m = modality)) as [-> | Hne];
      rewrite ?insert_insert_eq;
      rewrite ?lookup_insert_eq; try reflexivity;
      rewrite !lookup_insert_ne by congruence; apply Hsame.
Qed.

Lemma track_follows modality x1 x2 (p : SyncParser Media) q p' :
  same_counts p q ->
  Parts.track cfg modality x1 p = (p', inr tt) ->
  exists q', AsyncParts.track cfg modality x2 q = (q', inr tt)
             /\ same_counts p' q'.
Proof.
  intros [Hc Hi]. unfold Parts.track, AsyncParts.track.
  destruct (add_same_counts (Parts._items_by_modality p)
              (AsyncParts._items_by_modality q) modality x1 x2 Hi)
    as [Hr Hitems].
  destruct (add cfg (Parts._items_by_modality p) modality x1) as [i1 r1].
  destruct (add cfg (AsyncParts._items_by_modality q) modality x2) as [i2 r2].
  cbn [fst snd] in Hr, Hitems. subst r2.
  destruct r1 as [e|placeholder]; [discriminate|].
  intros [= <-]. eexists. split; [reflexivity|].
  split; cbn [Parts._placeholder_counts AsyncParts._placeholder_counts
              Parts._items_by_modality AsyncParts._items_by_modality];
    [now rewrite Hc | exact Hitems].
Qed.

Lemma fetch_then_track_follows fetch modality v x2
    (p : SyncParser Media) q p' :
  same_counts p q ->
  fetch_then_track cfg fetch modality v p = (p', inr tt) ->
  exists q', AsyncParts.track cfg modality x2 q = (q', inr tt)
             /\ same_counts p' q'.
Proof.
  intros Hs. unfold fetch_then_track.
  destruct (fetch v) as [e|medium]; [discriminate|].
  now apply track_follows.
Qed.

Lemma audio_follows :
  follows (same_counts (Media := Media)) (sync_parse_audio cfg _connector)
    (async_parse_audio cfg).
Proof.
  intros v p q p' Hs. unfold sync_parse_audio, async_parse_audio.
  now apply fetch_then_track_follows.
Qed.

(** Whenever the blocking parser parses the parts of a message, the
    parser of pending items, started on a tracker with as many items
    under each modality, parses them too, to the same message and with
    the same warnings; the two trackers again hold as many items. *)
Theorem pending_parser_follows_blocking role parts wrap_dicts
    (items : gmap string (list (Item Media)))
    (pending_items : gmap string (list (Pending Media)))
    log st' result :
  (forall modality,
     length <$> (items !! modality) = length <$> (pending_items !! modality)) ->
  @_parse_chat_message_content_parts _ blocking role parts wrap_dicts
    {| mm_parser := Parts.create_parser items; warnings := log |}
  = (st', inr result) ->
  exists st2',
    @_parse_chat_message_content_parts _ pending role parts wrap_dicts
      {| mm_parser := AsyncParts.create_parser pending_items;
         warnings := log |}
    = (st2', inr result)
    /\ related_states (same_counts (Media := Media)) st' st2'.
Proof.
  intros Hsame Hrun.
  assert (Hsim : simulates (same_counts (Media := Media))
                   (@_parse_chat_message_content_parts _ blocking role parts
                      wrap_dicts)
                   (@_parse_chat_message_content_parts _ pending role parts
                      wrap_dicts)).
  { apply parts_simulate.
    - now intros p q [Hc _].
    - intros v p q p' Hs. now apply fetch_then_track_follows.
    - intros v p q p' Hs. cbn [parse_image_embeds MultiModalContentParser
                                AsyncMultiModalContentParser].
      unfold sync_parse_image_embeds, async_parse_image_embeds.
      destruct v; try discriminate.
      + unfold fetch_then_track.
        destruct (fetch_image_embedding _connector _) as [e|m]; [discriminate|].
        now apply track_follows.
      + destruct (fetch_embeddings _connector _) as [e|embeds]; [discriminate|].
        now apply track_follows.
    - apply audio_follows.
    - intros v p q p' Hs. cbn [parse_input_audio MultiModalContentParser
                                AsyncMultiModalContentParser].
      unfold sync_parse_input_audio, async_parse_input_audio.
      destruct (py_get v "data" _) as [e|d]; [discriminate|].
      destruct (py_get v "format" _) as [e|f]; [discriminate|].
      now apply audio_follows.
    - intros v p q p' Hs. now apply fetch_then_track_follows. }
  apply (Hsim _ {| mm_parser := AsyncParts.create_parser pending_items;
                   warnings := log |} _ _) in Hrun; [exact Hrun|].
  split; [split; [reflexivity | exact Hsame] | reflexivity].
Qed.

(** A retrieval that fails stops the blocking parser at the part, with
    the failure of the connector and nothing recorded; the parser of
    pending items does not retrieve: it records the coroutine and counts
    the placeholder, so that the failure is left to [all_mm_data]. *)
Theorem retrieval_failure_is_deferred url e placeholder wrap_dicts
    (items : gmap string (list (Item Media)))
    (pending_items : gmap string (list (Pending Media))) log :
  url <> "" ->
  fetch_image _connector (PStr url) = inl e ->
  (Z.of_nat (count_of pending_items "image") + 1
   <= default 1 (_allowed_items cfg !! "image"))%Z ->
  _placeholder_str cfg "image"
    (Z.of_nat (count_of pending_items "image") + 1) = inr placeholder ->
  @_parse_chat_message_content_part _ blocking (image_url_part url) wrap_dicts
    {| mm_parser := Parts.create_parser items; warnings := log |}
  = ({| mm_parser := Parts.create_parser items; warnings := log |}, inl e)
  /\ @_parse_chat_message_content_part _ pending (image_url_part url)
       wrap_dicts
       {| mm_parser := AsyncParts.create_parser pending_items;
          warnings := log |}
     = ({| mm_parser :=
             {| AsyncParts._items_by_modality :=
                  <["image" := default [] (pending_items !! "image")
                               ++ [Coroutine fetch_image_async (PStr url)]]>
                    pending_items;
                AsyncParts._placeholder_counts :=
                  _add_placeholder placeholder [] |};
           warnings := log |},
        inr (marker wrap_dicts "image")).
Proof.
  intros Hurl Hfetch Hfit Hph.
  assert (Hadd : add cfg pending_items "image"
                   (Coroutine fetch_image_async (PStr url))
                 = (<["image" := default [] (pending_items !! "image")
                                 ++ [Coroutine fetch_image_async (PStr url)]]>
                      pending_items, inr placeholder)).
  { rewrite TrackerFacts.add_unfold. cbv zeta.
    destruct (Z.ltb_spec (default 1%Z (_allowed_items cfg !! "image"))
                (Z.of_nat (count_of pending_items "image") + 1)); [lia|].
    now rewrite Hph. }
  unfold _parse_chat_message_content_part, image_url_part,
    _parse_chat_message_content_mm_part.
  cbn [dict_get_default List.find fst snd String.eqb Ascii.eqb Bool.eqb
       MM_PARSER_MAP py_get eq_str negb andb].
  unfold bind, warn, lift, ret, call. cbv beta iota zeta.
  cbn [fst snd mm_parser warnings truthy].
  assert (String.eqb url "" = false) as -> by now apply String.eqb_neq.
  cbn [negb andb str_in existsb String.eqb Ascii.eqb Bool.eqb orb
       VALID_MESSAGE_CONTENT_MM_PART_TYPES].
  cbv iota.
  cbn [parse_image MultiModalContentParser AsyncMultiModalContentParser].
  unfold fetch_then_track, AsyncParts.track, AsyncParts.create_parser.
  rewrite Hfetch.
  cbn [AsyncParts._items_by_modality AsyncParts._placeholder_counts
       mm_parser warnings].
  rewrite Hadd, app_nil_r. split; reflexivity.
Qed.

End Async.

Lemma pending_parser_follows_blocking_witness :
  exists st2',
    @_parse_chat_message_content_parts _
      (AsyncMultiModalContentParser mllama_two_images echo_connector
         (fun _ => ""))
      "user" [image_url_part "http://a/cat.png"; text_part "What is this?"]
      false {| mm_parser := AsyncParts.create_parser ∅; warnings := [] |}
    = (st2',
       inr [[("role", PStr "user");
             ("content",
              PStr ("<|image|>" +:+ Backfill.line_feed +:+ "What is this?"))]]).
Proof.
  destruct (pending_parser_follows_blocking mllama_two_images echo_connector
              (fun _ => "") "user"
              [image_url_part "http://a/cat.png"; text_part "What is this?"]
              false ∅ ∅ []
              (@_parse_chat_message_content_parts _ blocking_parser "user"
                 [image_url_part "http://a/cat.png";
                  text_part "What is this?"] false fresh_state).1
              [[("role", PStr "user");
                ("content",
                 PStr ("<|image|>" +:+ Backfill.line_feed +:+ "What is this?"))]])
    as (st2' & Hrun & _).
  - intros modality. now rewrite !lookup_empty.
  - reflexivity.
  - now exists st2'.
Defined.

Lemma retrieval_failure_is_deferred_witness :
  @_parse_chat_message_content_part _
    (MultiModalContentParser mllama_two_images offline_connector
       (fun _ => ""))
    (image_url_part "http://a/cat.png") false fresh_state
  = (fresh_state, inl (ValueError "offline"))
  /\ (@_parse_chat_message_content_part _
        (AsyncMultiModalContentParser mllama_two_images offline_connector
           (fun _ => ""))
        (image_url_part "http://a/cat.png") false
        {| mm_parser := AsyncParts.create_parser ∅; warnings := [] |}).2
     = inr None.
Proof.
  destruct (retrieval_failure_is_deferred mllama_two_images offline_connector
              (fun _ => "") "http://a/cat.png" (ValueError "offline")
              (Some "<|image|>") false ∅ ∅ [])
    as [Hblocking Hpending]; try reflexivity; try discriminate.
  split; [exact Hblocking | now rewrite Hpending].
Defined.

End AsyncPartsFacts.
